(** * Teraslice jobs service: execution lifecycle core

    A shallow embedding of the cluster master's jobs service
    (the service module exporting [submitJob], [notify], [restartExecution],
    [shutdown], ...) and of its storage adapter [lib/cluster/storage/jobs.js],
    together with the properties of the lifecycle specification that can be
    settled on it.

    JavaScript objects are finite maps from field names to values, promises
    are outcomes threaded through an explicit world, and the collaborators
    that live outside these two files (the cluster service, the job
    validator, the asset service, the Elasticsearch backend, the queue) are
    either parameters of the development or small models taken from the
    specification, each marked as such. *)

From Stdlib Require Import ZArith DecimalString.
From stdpp Require Import gmap strings list fin_maps sorting.

Open Scope string_scope.
Open Scope list_scope.

(** ** Values and records *)

(** The field values that the service reads or writes.  [VStrs] is an array
    of names (the [assets] of a job), [VConns] an object from connection type
    to connection names (the [moderator] of a job) in insertion order, which
    is what [_.toPairs] enumerates. *)
Inductive val :=
  | VStr (s : string)
  | VNum (n : Z)
  | VBool (b : bool)
  | VDate (t : nat)
  | VStrs (l : list string)
  | VConns (m : list (string * list string)).

(** A JavaScript object; a missing key reads as [undefined]. *)
Abbreviation obj := (gmap string val).

(** [o.k] when it holds a string. *)
Definition str_field (k : string) (o : obj) : option string :=
  match o !! k with
  | Some (VStr s) => Some s
  | _ => None
  end.

(** [o.k = v], where [v] may be [undefined]. *)
Definition set_field (k : string) (v : option val) (o : obj) : obj :=
  match v with
  | Some x => <[k := x]> o
  | None => delete k o
  end.

(** JavaScript truthiness of a field read. *)
Definition truthy (v : option val) : bool :=
  match v with
  | None => false
  | Some (VStr s) => negb (String.eqb s "")
  | Some (VNum n) => negb (n =? 0)%Z
  | Some (VBool b) => b
  | Some (VDate _) | Some (VStrs _) | Some (VConns _) => true
  end.

(** ** Status model *)

Definition VALID_STATUS : list string :=
  [ "pending"; "scheduling"; "initializing"; "running"; "failing"; "paused";
    "moderator_paused";
    "completed"; "stopped"; "rejected"; "failed"; "terminated" ].

(** Maps job notification to execution states. *)
Definition STATE_MAPPING : gmap string string :=
  <["stop" := "stopped"]>
  (<["pause" := "paused"]>
  (<["resume" := "running"]>
  (<["moderator_paused" := "moderator_paused"]> ∅))).

(** Maps job control messages into cluster control messages. *)
Definition MESSAGE_MAPPING : gmap string string :=
  <["pause" := "cluster:job:pause"]>
  (<["resume" := "cluster:job:resume"]>
  (<["restart" := "cluster:job:restart"]>
  (<["stop" := "cluster:job:stop"]>
  (<["terminated" := "cluster:job:stop"]>
  (<["moderator_paused" := "cluster:job:pause"]> ∅))))).

(** [VALID_STATUS.slice(0, 7)] and [VALID_STATUS.slice(7)]. *)
Definition active_statuses : list string := take 7 VALID_STATUS.
Definition finished_statuses : list string := drop 7 VALID_STATUS.

(** The classification the specification calls [isActive]: membership in
    the first seven entries of [VALID_STATUS]. *)
Definition isActive (s : string) : bool :=
  bool_decide (s ∈ active_statuses).

(** [VALID_STATUS.indexOf(status) != -1], for a status that may be
    [undefined]. *)
Definition valid_status (status : option string) : bool :=
  match status with
  | Some s => bool_decide (s ∈ VALID_STATUS)
  | None => false
  end.

(** ** Queries *)

(** The service composes Lucene query strings; the shapes it uses are field
    equalities joined by [AND], [OR] and [NOT].  They are kept here as terms,
    one constructor per connective. *)
Inductive query :=
  | QTerm (field value : string)
  | QModerator (type connection : string)
  | QAnd (q1 q2 : query)
  | QOr (q1 q2 : query)
  | QNot (q : query)
  | QNone.

(** [qs.join(' OR ')]. *)
Definition join_or (qs : list query) : query :=
  match qs with
  | [] => QNone
  | q :: qs' => foldl QOr q qs'
  end.

Definition moderator_of (o : obj) : list (string * list string) :=
  match o !! "moderator" with
  | Some (VConns m) => m
  | _ => []
  end.

Fixpoint matches (q : query) (o : obj) : bool :=
  match q with
  | QTerm f v => bool_decide (str_field f o = Some v)
  | QModerator t c =>
      existsb (fun p => bool_decide (p.1 = t) && bool_decide (c ∈ p.2))
              (moderator_of o)
  | QAnd q1 q2 => matches q1 o && matches q2 o
  | QOr q1 q2 => matches q1 o || matches q2 o
  | QNot q1 => negb (matches q1 o)
  | QNone => false
  end.

(** The query of [shutdown]:
    [VALID_STATUS.slice(0, 7).map(str => `_status:${str}`).join(" OR ")]. *)
Definition shutdown_query : query :=
  join_or (map (QTerm "_status") active_statuses).

(** The query of [getLatestExecution]. *)
Definition latest_execution_query (job_id : string) (checkIfActive : bool) : query :=
  let base := QAnd (QTerm "job_id" job_id) (QTerm "_context" "ex") in
  if checkIfActive
  then QAnd base (QNot (join_or (map (QTerm "_status") finished_statuses)))
  else base.

(** ** Errors and promises *)

(** Rejection reasons.  The source rejects with message strings and [Error]
    objects; one constructor stands for each kind of message. *)
Inductive error :=
  | StorageError
  | NotFound (record_id : option string)
  | ClusterError (reason : string)
  | InvalidStatus (status : option string)
  | InvalidCommand
  | ValidationError
  | AssetResolution
  | CompletedNotRestartable
  | AlreadyScheduling
  | TypeError.

(** How a call ends: a promise that resolves, a promise that rejects, or an
    exception thrown before any promise is returned. *)
Inductive outcome (A : Type) :=
  | Resolved (a : A)
  | Rejected (e : error)
  | Thrown (e : error).
Arguments Resolved {A} a.
Arguments Rejected {A} e.
Arguments Thrown {A} e.

(** ** The collaborators *)

(** One entry of the moderator's answer. *)
Record moderator_entry := { canRun : bool }.

(** The reply of the asset service to [jobs_service:verify_assets]. *)
Record asset_msg := { msg_error : option error; msg_assets : option (list string) }.

(** The cluster service handed to the module.  Its own state is abstract;
    every call may change it.  Its asynchronous methods answer with a promise:
    [inr] when it resolves, [inl] when it rejects. *)
Module cluster_service.
Class t (Cluster : Type) := {
  availableWorkers : Cluster → Z;
  allocateSlicer : obj → option val → Cluster → (error + unit) * Cluster;
  allocateWorkers : obj → option val → Cluster → (error + unit) * Cluster;
  findNodesForJob : option string → bool → Cluster → list string;
  notifyNode : string → string → option string → Cluster → (error + unit) * Cluster;
  checkModerator :
    list (string * list string) → Cluster → (error + list moderator_entry) * Cluster
}.
End cluster_service.

(** What the module closes over: the cluster service, the configured state
    connection, the job validator, [parseError], the asset service and the
    identifiers that [uuid.v4()] hands out, in order. *)
Class Context_ (Cluster : Type) := {
  context_cluster :: cluster_service.t Cluster;
  esConnectionState : string;
  job_validator_validate : obj → option obj;
  parseError : error → error;
  verify_assets : option val → asset_msg;
  uuid : nat → string
}.

(** The calls made on the cluster service, in the order they are issued. *)
Inductive cluster_call :=
  | CallAllocateSlicer (ex_id : option string) (recover : option val)
  | CallAllocateWorkers (ex_id : option string) (workers : option val)
  | CallNotifyNode (node_id message : string) (ex_id : option string)
  | CallCheckModerator (connectionList : list (string * list string)).

(** ** The world *)

(** Modelled from the spec: the Elasticsearch backend
    ([./backends/elasticsearch_store]) is not among the sources.  A backend
    handle is either reachable or not, and is closed by [shutdown]. *)
Record backend := { online : bool; closed : bool }.

(** The two adapters of [jobs.js]; [jobType] is ['job'] for the first and
    ['ex'] for the second. *)
Inductive store_name := job_store | ex_store.

Definition jobType (s : store_name) : string :=
  match s with job_store => "job" | ex_store => "ex" end.

(** The last argument pushed on [jobArgs]: the field holding the document id. *)
Definition id_field (s : store_name) : string :=
  match s with job_store => "job_id" | ex_store => "ex_id" end.

(** Everything the service can observe or change.  Both adapters are opened
    on the same index, [config.name + '__jobs'], with the same record type,
    so jobs and executions are documents of one collection, told apart by
    [_context]. *)
Record world (Cluster : Type) := World {
  jobs_index : gmap string obj;
  job_backend : backend;
  ex_backend : backend;
  pendingExecutionQueue : list obj;
  moderatorPausedQueue : list obj;
  isJobBeingAllocated : bool;
  cluster : Cluster;
  cluster_calls : list cluster_call;
  uuids_used : nat;
  clock : nat;
  logger : list (string * string)
}.
Arguments World {Cluster}.
Arguments jobs_index {Cluster}.
Arguments job_backend {Cluster}.
Arguments ex_backend {Cluster}.
Arguments pendingExecutionQueue {Cluster}.
Arguments moderatorPausedQueue {Cluster}.
Arguments isJobBeingAllocated {Cluster}.
Arguments cluster {Cluster}.
Arguments cluster_calls {Cluster}.
Arguments uuids_used {Cluster}.
Arguments clock {Cluster}.
Arguments logger {Cluster}.

Section World.
Context {Cluster : Type}.
Implicit Types w : world Cluster.

Definition set_jobs_index (i : gmap string obj) w :=
  World i (job_backend w) (ex_backend w) (pendingExecutionQueue w)
    (moderatorPausedQueue w) (isJobBeingAllocated w) (cluster w)
    (cluster_calls w) (uuids_used w) (clock w) (logger w).

Definition set_backend (s : store_name) (b : backend) w :=
  match s with
  | job_store =>
      World (jobs_index w) b (ex_backend w) (pendingExecutionQueue w)
        (moderatorPausedQueue w) (isJobBeingAllocated w) (cluster w)
        (cluster_calls w) (uuids_used w) (clock w) (logger w)
  | ex_store =>
      World (jobs_index w) (job_backend w) b (pendingExecutionQueue w)
        (moderatorPausedQueue w) (isJobBeingAllocated w) (cluster w)
        (cluster_calls w) (uuids_used w) (clock w) (logger w)
  end.

Definition set_pendingExecutionQueue (q : list obj) w :=
  World (jobs_index w) (job_backend w) (ex_backend w) q
    (moderatorPausedQueue w) (isJobBeingAllocated w) (cluster w)
    (cluster_calls w) (uuids_used w) (clock w) (logger w).

Definition set_moderatorPausedQueue (q : list obj) w :=
  World (jobs_index w) (job_backend w) (ex_backend w)
    (pendingExecutionQueue w) q (isJobBeingAllocated w) (cluster w)
    (cluster_calls w) (uuids_used w) (clock w) (logger w).

Definition set_isJobBeingAllocated (b : bool) w :=
  World (jobs_index w) (job_backend w) (ex_backend w)
    (pendingExecutionQueue w) (moderatorPausedQueue w) b (cluster w)
    (cluster_calls w) (uuids_used w) (clock w) (logger w).

(** A call on the cluster service: its new state, and the call recorded. *)
Definition set_cluster (c : Cluster) (call : list cluster_call) w :=
  World (jobs_index w) (job_backend w) (ex_backend w)
    (pendingExecutionQueue w) (moderatorPausedQueue w)
    (isJobBeingAllocated w) c (cluster_calls w ++ call)%list
    (uuids_used w) (clock w) (logger w).

Definition set_uuids_used (n : nat) w :=
  World (jobs_index w) (job_backend w) (ex_backend w)
    (pendingExecutionQueue w) (moderatorPausedQueue w)
    (isJobBeingAllocated w) (cluster w) (cluster_calls w) n (clock w)
    (logger w).

Definition set_clock (n : nat) w :=
  World (jobs_index w) (job_backend w) (ex_backend w)
    (pendingExecutionQueue w) (moderatorPausedQueue w)
    (isJobBeingAllocated w) (cluster w) (cluster_calls w) (uuids_used w) n
    (logger w).

Definition set_logger (l : list (string * string)) w :=
  World (jobs_index w) (job_backend w) (ex_backend w)
    (pendingExecutionQueue w) (moderatorPausedQueue w)
    (isJobBeingAllocated w) (cluster w) (cluster_calls w) (uuids_used w)
    (clock w) l.

Definition backend_of (s : store_name) w : backend :=
  match s with job_store => job_backend w | ex_store => ex_backend w end.

(** *** Promises over the world *)

(** A computation that runs against the world and settles.  The chains of
    the source are run to completion one after the other, each in the order
    in which it issues its calls. *)
Definition promise (A : Type) : Type := world Cluster → outcome A * world Cluster.

(** The outcome of a promise handed back by a collaborator. *)
Definition settle {A} (r : error + A) : outcome A :=
  match r with
  | inr a => Resolved a
  | inl e => Rejected e
  end.

Definition resolve {A} (a : A) : promise A := fun w => (Resolved a, w).
Definition reject {A} (e : error) : promise A := fun w => (Rejected e, w).
Definition throw {A} (e : error) : promise A := fun w => (Thrown e, w).

(** [m.then(f)]. *)
Definition bind {A B} (m : promise A) (f : A → promise B) : promise B :=
  fun w =>
    match m w with
    | (Resolved a, w') => f a w'
    | (Rejected e, w') => (Rejected e, w')
    | (Thrown e, w') => (Thrown e, w')
    end.

(** [m.catch(h)]: only a rejection reaches the handler. *)
Definition catch {A} (m : promise A) (h : error → promise A) : promise A :=
  fun w =>
    match m w with
    | (Rejected e, w') => h e w'
    | r => r
    end.

(** [m.finally(f)]. *)
Definition finally {A B} (m : promise A) (f : promise B) : promise A :=
  fun w =>
    let (r, w') := m w in
    match f w' with
    | (Resolved _, w'') => (r, w'')
    | (Rejected e, w'') => (Rejected e, w'')
    | (Thrown e, w'') => (Thrown e, w'')
    end.

(** A call made inside a [then] callback: an exception it throws rejects
    the chain. *)
Definition in_callback {A} (m : promise A) : promise A :=
  fun w =>
    match m w with
    | (Thrown e, w') => (Rejected e, w')
    | r => r
    end.

(** A promise nobody waits for. *)
Definition detached {A} (m : promise A) : promise unit :=
  fun w => let (_, w') := m w in (Resolved tt, w').

(** [Promise.all([m1, m2])]: both are started, whatever the other does. *)
Definition Promise_all2 {A B} (m1 : promise A) (m2 : promise B) : promise (A * B) :=
  fun w =>
    let (r1, w1) := m1 w in
    let (r2, w2) := m2 w1 in
    match r1, r2 with
    | Resolved a, Resolved b => (Resolved (a, b), w2)
    | Thrown e, _ | Rejected e, _ => (Rejected e, w2)
    | _, Thrown e | _, Rejected e => (Rejected e, w2)
    end.

(** [Promise.all(ms)] over promises that were all started, and
    [Promise.map(l, f)]: every element is processed, the result rejects
    with the first failure. *)
Fixpoint Promise_all {A} (ms : list (promise A)) : promise (list A) :=
  match ms with
  | [] => resolve []
  | m :: ms' =>
      fun w =>
        let (r, w1) := m w in
        let (rs, w2) := Promise_all ms' w1 in
        match r, rs with
        | Resolved a, Resolved l => (Resolved (a :: l), w2)
        | Thrown e, _ | Rejected e, _ => (Rejected e, w2)
        | _, Thrown e | _, Rejected e => (Rejected e, w2)
        end
  end.

Definition Promise_map {A B} (l : list A) (f : A → promise B) : promise (list B) :=
  Promise_all (map f l).

Definition logger_log (level message : string) : promise unit :=
  fun w => (Resolved tt, set_logger (logger w ++ [(level, message)])%list w).

(** [new Date()]: the clock is read and moves on. *)
Definition new_Date : promise nat :=
  fun w => (Resolved (clock w), set_clock (S (clock w)) w).
End World.
Arguments promise Cluster A : clear implicits.

(** [await x <- m in k] is [m.then(x => k)]. *)
Notation "'await' x <- m 'in' k" := (bind m (fun x => k))
  (at level 10, x name, m at level 100, k at level 200,
   format "'[v' 'await'  x  <-  m  'in' '/' k ']'").

#[global] Instance val_eq_dec : EqDecision val.
Proof. solve_decision. Defined.

(** ** The queues *)

(** Modelled from the spec: the [queue] module is not among the sources.
    A queue is a list, head first: [enqueue] appends, [dequeue] pops the
    front, [unshift] inserts at the front, [remove(id, key)] drops the entries
    whose field [key] is [id], [size] is the length and [each] visits the
    entries front to back. *)
Module Queue.
Definition enqueue (x : obj) (q : list obj) : list obj := q ++ [x].
Definition unshift (x : obj) (q : list obj) : list obj := x :: q.
Definition dequeue (q : list obj) : option obj * list obj :=
  match q with
  | [] => (None, [])
  | x :: q' => (Some x, q')
  end.
Definition remove (id : option val) (key : string) (q : list obj) : list obj :=
  filter (fun x => x !! key ≠ id) q.
Definition size (q : list obj) : nat := length q.
End Queue.

(** ** The document store *)

(** The sort orders the service asks for. *)
Inductive sort_order := created_asc | created_desc.

Definition created (o : obj) : nat :=
  match o !! "_created" with
  | Some (VDate t) => t
  | _ => 0
  end.

Definition created_le (a b : obj) : Prop := (created a ≤ created b)%nat.

#[global] Instance created_le_dec : RelDecision created_le.
Proof. intros a b. unfold created_le. apply _. Defined.

(** Modelled from the spec: the Elasticsearch backend
    ([./backends/elasticsearch_store]) is not among the sources.  It is a
    key-value collection with a query index: [get] fails on an absent id,
    [create] files the record under its id field and answers the record,
    [update] merges the partial into the stored record and answers the merged
    record, [search] answers the matching records, sorted when asked, from
    offset [from] and at most [size] of them; every call fails with a storage
    error while the backend is unreachable. *)
Module elasticsearch_store.
Section elasticsearch_store.
Context {Cluster : Type}.
Local Abbreviation promise := (promise Cluster).

Definition get (s : store_name) (record_id : option string) : promise obj :=
  fun w =>
    if online (backend_of s w) then
      match record_id ≫= (jobs_index w !!.) with
      | Some record => (Resolved record, w)
      | None => (Rejected (NotFound record_id), w)
      end
    else (Rejected StorageError, w).

Definition sorted (sort : option sort_order) (l : list obj) : list obj :=
  match sort with
  | None => l
  | Some created_asc => merge_sort created_le l
  | Some created_desc => merge_sort (flip created_le) l
  end.

Definition search (s : store_name) (q : query) (from : option nat) (size : nat)
    (sort : option sort_order) : promise (list obj) :=
  fun w =>
    if online (backend_of s w) then
      let found := filter (fun o => matches q o = true)
                          ((map_to_list (jobs_index w)).*2) in
      (Resolved (take size (drop (default 0 from) (sorted sort found))), w)
    else (Rejected StorageError, w).

Definition create (s : store_name) (record : obj) : promise obj :=
  fun w =>
    if online (backend_of s w) then
      match str_field (id_field s) record with
      | Some id => (Resolved record, set_jobs_index (<[id := record]> (jobs_index w)) w)
      | None => (Rejected StorageError, w)
      end
    else (Rejected StorageError, w).

Definition update (s : store_name) (record_id : option string) (update_spec : obj)
    : promise obj :=
  fun w =>
    if online (backend_of s w) then
      match record_id, record_id ≫= (jobs_index w !!.) with
      | Some id, Some record =>
          let merged := update_spec ∪ record in
          (Resolved merged, set_jobs_index (<[id := merged]> (jobs_index w)) w)
      | _, _ => (Rejected (NotFound record_id), w)
      end
    else (Rejected StorageError, w).

Definition shutdown (s : store_name) : promise unit :=
  fun w =>
    (Resolved tt,
     set_backend s {| online := online (backend_of s w); closed := true |} w).
End elasticsearch_store.
End elasticsearch_store.

(** *** [lib/cluster/storage/jobs.js] *)

Module storage.
Section storage.
Context {Cluster : Type} `{!Context_ Cluster}.
Local Abbreviation promise := (promise Cluster).

(** [uuid.v4()]. *)
Definition uuid_v4 : promise string :=
  fun w => (Resolved (uuid (uuids_used w)), set_uuids_used (S (uuids_used w)) w).

Definition get (s : store_name) (record_id : option string) : promise obj :=
  elasticsearch_store.get s record_id.

Definition search (s : store_name) (q : query) (from : option nat) (size : nat)
    (sort : option sort_order) : promise (list obj) :=
  elasticsearch_store.search s q from size sort.

Definition create (s : store_name) (record : obj) : promise obj :=
  await date <- new_Date in
  await id <- uuid_v4 in
  let record := <[id_field s := VStr id]> record in
  let record := <["_context" := VStr (jobType s)]> record in
  let record := <["_created" := VDate date]> record in
  let record := <["_updated" := VDate date]> record in
  elasticsearch_store.create s record.

(** [update_spec] may be [undefined], in which case the assignment of
    [_updated] throws. *)
Definition update (s : store_name) (record_id : option string)
    (update_spec : option obj) : promise obj :=
  match update_spec with
  | None => throw TypeError
  | Some update_spec =>
      await date <- new_Date in
      elasticsearch_store.update s record_id (<["_updated" := VDate date]> update_spec)
  end.

Definition shutdown (s : store_name) : promise unit :=
  await _ <- logger_log "info" "shutting down." in
  elasticsearch_store.shutdown s.
End storage.
End storage.

(** ** The jobs service *)

(** What [checkModerator(job)] resolves to: the literal [true] when the job
    tracks nothing, the answer of the cluster service otherwise. *)
Inductive moderator_response :=
  | ModeratorTrue
  | ModeratorEntries (entries : list moderator_entry).

(** [_.every(moderatorResponse, db => db.canRun === true)]; on a value that
    is not a collection [_.every] has nothing to refute. *)
Definition every_canRun (moderatorResponse : moderator_response) : bool :=
  match moderatorResponse with
  | ModeratorTrue => true
  | ModeratorEntries entries => forallb (fun db => canRun db) entries
  end.

(** Truthiness of the same value: [true] is truthy, and so is every array. *)
Definition response_truthy (moderatorResponse : moderator_response) : bool :=
  match moderatorResponse with
  | ModeratorTrue => true
  | ModeratorEntries _ => true
  end.

(** [_.toPairs(job.moderator)] for a moderator object; a number, boolean or
    date has no pairs. *)
Definition toPairs (v : option val) : list (string * list string) :=
  match v with
  | Some (VConns m) => m
  | _ => []
  end.

(** [v.length]. *)
Definition js_length (v : option val) : option nat :=
  match v with
  | Some (VStrs l) => Some (length l)
  | Some (VStr s) => Some (String.length s)
  | _ => None
  end.


Section jobs_service.
Context {Cluster : Type} `{!Context_ Cluster}.
Local Abbreviation promise := (promise Cluster).

(** *** Calls on the cluster service *)

Definition cluster_allocateSlicer (ex : obj) (recover : option val) : promise unit :=
  fun w =>
    let (r, c) := cluster_service.allocateSlicer ex recover (cluster w) in
    (settle r, set_cluster c [CallAllocateSlicer (str_field "ex_id" ex) recover] w).

Definition cluster_allocateWorkers (ex : obj) (workers : option val) : promise unit :=
  fun w =>
    let (r, c) := cluster_service.allocateWorkers ex workers (cluster w) in
    (settle r, set_cluster c [CallAllocateWorkers (str_field "ex_id" ex) workers] w).

Definition cluster_notifyNode (node_id message : string) (ex_id : option string)
    : promise unit :=
  fun w =>
    let (r, c) := cluster_service.notifyNode node_id message ex_id (cluster w) in
    (settle r, set_cluster c [CallNotifyNode node_id message ex_id] w).

Definition cluster_checkModerator (connectionList : list (string * list string))
    : promise (list moderator_entry) :=
  fun w =>
    let (r, c) := cluster_service.checkModerator connectionList (cluster w) in
    (settle r, set_cluster c [CallCheckModerator connectionList] w).

(** *** Storage helpers *)

Definition ex_search (q : query) : promise (list obj) :=
  catch (storage.search ex_store q None 10000 None)
    (fun err =>
       let errMsg := parseError err in
       await _ <- logger_log "error" "could not findJob" in
       reject errMsg).

(** [ex_store] is set before the service's API is handed out, so the polling
    branch of [findJobs] is never taken by a caller of the API. *)
Definition findJobs (q : query) : promise (list obj) := ex_search q.

Definition saveJob (job : obj) (jobType : string) : promise obj :=
  if bool_decide (jobType = "job") then storage.create job_store job
  else storage.create ex_store job.

Definition enqueueJob (ex : obj) : promise unit :=
  fun w =>
    (Resolved tt,
     set_pendingExecutionQueue (Queue.enqueue ex (pendingExecutionQueue w)) w).

Definition getJob (job_id : option string) : promise (option obj) :=
  catch (await job_spec <- storage.get job_store job_id in resolve (Some job_spec))
    (fun err =>
       await _ <- logger_log "error" "could not get job for job_id" in
       resolve None).

Definition getExecutionContext (ex_id : option string) : promise (option obj) :=
  catch (await ex <- storage.get ex_store ex_id in resolve (Some ex))
    (fun err =>
       await _ <- logger_log "error" "error getting execution context for ex" in
       resolve None).

(** *** Moderator gate *)

(** check to see if state connection is listed, if not add it for moderator
    checks *)
Definition connectionDefaults (array : list (string * list string))
    : list (string * list string) :=
  let array' :=
    map (fun conn : string * list string =>
           if bool_decide (conn.1 = "elasticsearch") then
             match find (fun c => bool_decide (c = esConnectionState)) conn.2 with
             | Some stateConn =>
                 if String.eqb stateConn "" then (conn.1, (conn.2 ++ [esConnectionState])%list)
                 else conn
             | None => (conn.1, (conn.2 ++ [esConnectionState])%list)
             end
           else conn) array in
  let wasFound := existsb (fun conn => bool_decide (conn.1 = "elasticsearch")) array in
  if wasFound then array' else (array' ++ [("elasticsearch", [esConnectionState])])%list.

Definition checkModerator (job : obj) : promise moderator_response :=
  if negb (truthy (job !! "moderator")) then resolve ModeratorTrue
  else
    let connectionList := connectionDefaults (toPairs (job !! "moderator")) in
    catch
      (await entries <- cluster_checkModerator connectionList in
       resolve (ModeratorEntries entries))
      (fun err =>
         let errMsg := parseError err in
         await _ <- logger_log "error" "could not check moderator" in
         reject errMsg).

(** *** Status write *)

Definition _setStatus (job_spec : obj) (status : option string)
    (metaData : option obj) : promise obj :=
  if valid_status status then
    catch
      (await ex <- getExecutionContext (str_field "ex_id" job_spec) in
       let statusObj : obj := set_field "_status" (VStr <$> status) ∅ in
       let statusObj :=
         match metaData with
         | Some metaData => metaData ∪ statusObj
         | None => statusObj
         end in
       catch
         (await _ <- in_callback
                       (storage.update ex_store (str_field "ex_id" job_spec)
                          (Some statusObj)) in
          resolve job_spec)
         (fun err =>
            let errMsg := parseError err in
            await _ <- logger_log "error" "error update ex_store, error:" in
            reject errMsg))
      (fun err =>
         let errMsg := parseError err in
         await _ <- logger_log "error" "was not able to _setStatus, error:" in
         reject errMsg)
  else reject (InvalidStatus status).

(** *** Submission *)

Definition createExecutionContext (job : obj) : promise obj :=
  catch
    (await ex <- saveJob job "ex" in
     await both <- Promise_all2 (_setStatus ex (Some "pending") None)
                                (checkModerator job) in
     let ex := both.1 in
     let moderatorResponse := both.2 in
     let canRun := every_canRun moderatorResponse in
     await _ <-
       (if canRun then
          await _ <- logger_log "debug" "enqueueing job to be processed, job" in
          fun w =>
            (Resolved tt,
             set_pendingExecutionQueue (Queue.enqueue ex (pendingExecutionQueue w)) w)
        else
          await _ <- logger_log "warn"
                       "job cannot be run due to throttled database connections" in
          fun w =>
            (Resolved tt,
             set_moderatorPausedQueue (Queue.enqueue ex (moderatorPausedQueue w)) w)) in
     resolve (set_field "job_id" (ex !! "job_id") ∅))
    (fun err =>
       let errMsg := parseError err in
       await _ <- logger_log "error" "could not create execution context" in
       reject errMsg).

(** The request [jobs_service:verify_assets] and the reply awaited under the
    generated id are one call on the asset service. *)
Definition ensureAssets (job_spec : obj) : promise obj :=
  if negb (truthy (job_spec !! "assets")) then resolve job_spec
  else
    let msg := verify_assets (job_spec !! "assets") in
    match msg_error msg with
    | Some e => reject e
    | None =>
        match msg_assets msg with
        | None => reject AssetResolution
        | Some assets =>
            if bool_decide (Some (length assets) ≠ js_length (job_spec !! "assets"))
            then reject AssetResolution
            else resolve (<["assets" := VStrs assets]> job_spec)
        end
    end.

Definition _validateJob (job_spec : obj) : promise obj :=
  match job_validator_validate job_spec with
  | Some validJob => resolve validJob
  | None => reject ValidationError
  end.

Definition submitJob (job_spec : obj) (shouldRun : bool) : promise obj :=
  catch
    (await parsedAssetJob <- ensureAssets job_spec in
     await validJob <- _validateJob parsedAssetJob in
     let oldAssetNames := job_spec !! "assets" in
     let parsedAssets := validJob !! "assets" in
     let validJob := set_field "assets" oldAssetNames validJob in
     await job <- saveJob validJob "job" in
     if negb shouldRun then resolve (set_field "job_id" (job !! "job_id") ∅)
     else
       let job := set_field "assets" parsedAssets job in
       createExecutionContext job)
    (fun err =>
       let errMsg := parseError err in
       await _ <- logger_log "error" "could not submit job" in
       reject errMsg).

(** Updates the job but does not automatically start it.  The callback's
    parameter is named [job] as well, so it is the fetched record that reaches
    [job_store.update]. *)
Definition updateJob (job_id : option string) (job : obj) : promise (option obj) :=
  catch
    (await job <- getJob job_id in
     await updated <- in_callback (storage.update job_store job_id job) in
     resolve (Some updated))
    (fun err =>
       let errMsg := parseError err in
       await _ <- logger_log "error" "could not updateJob" in
       resolve None).

Definition updateEX (ex_id : option string) (updateConfig : option obj)
    : promise (option obj) :=
  catch
    (await updated <- storage.update ex_store ex_id updateConfig in
     resolve (Some updated))
    (fun err =>
       await _ <- logger_log "error" "failed to update ex with new data" in
       resolve None).

Definition startJob (job_id : option string) : promise (option obj) :=
  catch
    (await job_spec <- getJob job_id in
     match job_spec with
     | None => reject TypeError
     | Some job_spec =>
         await assetIdJob <- ensureAssets job_spec in
         await started <- createExecutionContext assetIdJob in
         resolve (Some started)
     end)
    (fun err =>
       let errMsg := parseError err in
       await _ <- logger_log "error" "could not startJob" in
       resolve None).

Definition restartExecution (ex_id : option string) : promise unit :=
  catch
    (await ex <- getExecutionContext ex_id in
     match ex with
     | None => reject TypeError
     | Some ex =>
         if bool_decide (ex !! "_status" = Some (VStr "completed")) then
           reject CompletedNotRestartable
         else if bool_decide (ex !! "_status" = Some (VStr "scheduling")) then
           reject AlreadyScheduling
         else
           let ex := <["_recover_execution" := VBool true]> ex in
           enqueueJob ex
     end)
    (fun err =>
       let errMsg := parseError err in
       await _ <- logger_log "error" "could not restart execution context" in
       resolve tt).


(** *** Notifications *)

Definition _notifyCluster (ex_id : option string) (notice : string) : promise bool :=
  let slicerOnly :=
    bool_decide (notice = "pause") || bool_decide (notice = "resume")
    || bool_decide (notice = "moderator_paused") in
  match MESSAGE_MAPPING !! notice with
  | None => throw InvalidCommand
  | Some message =>
      fun w =>
        let nodes := cluster_service.findNodesForJob ex_id slicerOnly (cluster w) in
        let requests := map (fun node_id => cluster_notifyNode node_id message ex_id) nodes in
        catch (await _ <- Promise_all requests in resolve true)
          (fun err =>
             let errMsg := parseError err in
             await _ <- logger_log "error" "could not notify cluster" in
             reject errMsg) w
  end.

Definition _signalJobStateChange (ex_id : option string) (notice : string)
    (state : option string) : promise (option string) :=
  catch
    (await _ <- _notifyCluster ex_id notice in
     await job_spec <- storage.get ex_store ex_id in
     await _ <- logger_log "info" "job has changed to state" in
     await job <- _setStatus job_spec state None in
     resolve state)
    (fun err =>
       let errMsg := parseError err in
       await _ <- logger_log "error" "could not signal job state change" in
       reject errMsg).

(** Valid notifications: stop, pause, resume *)
Definition notify (ex_id : option string) (state : string) : promise (option string) :=
  let status := STATE_MAPPING !! state in
  catch (_signalJobStateChange ex_id state status)
    (fun err =>
       let errMsg := parseError err in
       await _ <- logger_log "error" "could not notify" in
       reject errMsg).

(** *** The allocator *)

(** The chain started for one dequeued execution.  It resolves [true] when
    it ends by calling [allocator()] again; when the first status write
    rejects nothing handles the rejection and the allocator is not called. *)
Definition allocation (executionContext : obj) : promise bool :=
  let recover_execution := executionContext !! "_recover_execution" in
  await _ <- logger_log "info" "Scheduling job" in
  await _ <- _setStatus executionContext (Some "scheduling") None in
  catch
    (await _ <- cluster_allocateSlicer executionContext recover_execution in
     await _ <- _setStatus executionContext (Some "initializing") None in
     catch
       (await _ <- cluster_allocateWorkers executionContext
                     (executionContext !! "workers") in
        fun w => (Resolved true, set_isJobBeingAllocated false w))
       (fun err =>
          (* this is to catch errors of allocateWorkers *)
          let errMsg := parseError err in
          await _ <- logger_log "error"
                       "Workers failed to be allocated, they will be enqueued" in
          fun w => (Resolved true, set_isJobBeingAllocated false w)))
    (fun err =>
       let errMsg := parseError err in
       await _ <- logger_log "error" "Failure during worker allocation" in
       await _ <- (fun w => (Resolved tt, set_isJobBeingAllocated false w)) in
       await _ <- detached (_setStatus executionContext (Some "failed") None) in
       resolve true).

(** Checks the queue of pending jobs and will allocate any workers required.
    Every call that passes the guard dequeues one execution, so a run is
    bounded by the length of the queue; [fuel] counts the calls. *)
Fixpoint allocator (fuel : nat) (w : world Cluster) : option (world Cluster) :=
  match fuel with
  | 0 => None
  | S fuel' =>
      if negb (isJobBeingAllocated w)
         && bool_decide (0 < Queue.size (pendingExecutionQueue w))%nat
         && bool_decide (2 ≤ cluster_service.availableWorkers (cluster w))%Z
      then
        let w := set_isJobBeingAllocated true w in
        match Queue.dequeue (pendingExecutionQueue w) with
        | (Some executionContext, rest) =>
            match allocation executionContext (set_pendingExecutionQueue rest w) with
            | (Resolved true, w') => allocator fuel' w'
            | (_, w') => Some w'
            end
        | (None, _) => Some w
        end
      else Some w
  end.

(** One tick of [pendingJobsScheduler]. *)
Definition allocateJobs (w : world Cluster) : option (world Cluster) :=
  allocator (S (Queue.size (pendingExecutionQueue w))) w.

(** *** Shutdown *)

(** The function mapped over the active executions by [shutdown]. *)
Definition mark_terminated (job : obj) : promise (option string) :=
  await _ <- logger_log "warn" "marking job as terminated" in
  in_callback (_signalJobStateChange (str_field "ex_id" job) "stop" (Some "terminated")).

Definition shutdown : promise (list (option string)) :=
  await _ <- logger_log "info" "shutting down" in
  finally
    (await jobs <- ex_search shutdown_query in
     Promise_map jobs mark_terminated)
    (Promise_all2 (storage.shutdown job_store) (storage.shutdown ex_store)).

(** *** Event handlers *)

(** The body of [moderatorPausedQueue.each] in the handler of
    [moderate_jobs:resume]. *)
Definition resume_sidelined (job : obj) : promise unit :=
  catch
    (await canRun <- checkModerator job in
     if response_truthy canRun then
       fun w =>
         let w := set_moderatorPausedQueue
                    (Queue.remove (job !! "ex_id") "ex_id" (moderatorPausedQueue w)) w in
         (Resolved tt,
          set_pendingExecutionQueue (Queue.unshift job (pendingExecutionQueue w)) w)
     else resolve tt)
    (fun err =>
       let errMsg := parseError err in
       await _ <- logger_log "error"
                    "error checking moderator while attempting to remove job from moderatorPausedQueue" in
       resolve tt).

Definition moderator_query (connectionList : list (string * string)) : query :=
  join_or (map (fun db : string * string => QModerator db.1 db.2) connectionList).

(** [events.on('moderate_jobs:resume', ...)]; a connection is the pair of its
    [type] and [connection]. *)
Definition on_moderate_jobs_resume (connectionList : list (string * string))
    : promise unit :=
  let q := QAnd (QTerm "_status" "moderator_paused") (moderator_query connectionList) in
  await _ <- logger_log "trace" "moderator is attempting to resume jobs" in
  (* add any side-lined jobs back to the main job queue *)
  await _ <-
    (fun w =>
       if bool_decide (0 < Queue.size (moderatorPausedQueue w))%nat
       then detached (Promise_map (moderatorPausedQueue w) resume_sidelined) w
       else (Resolved tt, w)) in
  catch
    (await results <- findJobs q in
     await _ <- Promise_map results
                  (fun job => in_callback (notify (str_field "ex_id" job) "resume")) in
     if bool_decide (0 < length results)%nat
     then logger_log "warn" "The following jobs have been resumed by the moderator"
     else resolve tt)
    (fun err =>
       let errMsg := parseError err in
       logger_log "error" "could not resume job for moderator").

(** [events.on('moderate_jobs:pause', ...)]. *)
Definition on_moderate_jobs_pause (connectionList : list (string * string))
    : promise unit :=
  let q := QAnd (QOr (QTerm "_status" "running") (QTerm "_status" "failing"))
                (moderator_query connectionList) in
  await _ <- logger_log "trace" "moderator is attempting to pause jobs" in
  catch
    (await results <- findJobs q in
     await _ <- Promise_map results
                  (fun job => in_callback (notify (str_field "ex_id" job) "moderator_paused")) in
     logger_log "warn" "The following jobs have been paused by the moderator")
    (fun err =>
       let errMsg := parseError err in
       logger_log "error" "could not pause job for moderator").

(** [events.on('cluster_service:cleanup_job', ...)]. *)
Definition on_cluster_service_cleanup_job (data : obj) : promise unit :=
  catch
    (await ex <- getExecutionContext (str_field "ex_id" data) in
     match ex with
     | None => reject TypeError
     | Some ex =>
         if bool_decide (str_field "_status" ex ∈ [Some "running"; Some "failing"; Some "paused"])
         then
           await _ <- logger_log "warn" "node has disconnected with active workers for job" in
           detached (restartExecution (str_field "ex_id" ex))
         else resolve tt
     end)
    (fun err => logger_log "error" "could not cleanup job for ex").

End jobs_service.

(** ** The jobs service: lifecycle events and listings *)

Section jobs_service_events.
Context {Cluster : Type} `{!Context_ Cluster}.
Local Abbreviation promise := (promise Cluster).

(** The metadata object that the failure handlers build:
    [{_has_errors: 'true', _slicer_stats: data.slicer_stats}], with
    [_failureReason] when [data.error] is set. *)
Definition failure_metaData (data : obj) : obj :=
  let metaData : obj :=
    <["_has_errors" := VStr "true"]>
      (set_field "_slicer_stats" (data !! "slicer_stats") ∅) in
  if truthy (data !! "error")
  then set_field "_failureReason" (data !! "error") metaData
  else metaData.

(** [events.on('cluster:job_finished', ...)].  Nobody waits for the status
    write of a handler. *)
Definition on_cluster_job_finished (data : obj) : promise unit :=
  await _ <- logger_log "info" "job has completed" in
  let metaData : obj := set_field "_slicer_stats" (data !! "slicer_stats") ∅ in
  let metaData :=
    if truthy (data !! "hasRecovered")
    then <["_has_errors" := VStr "recovered"]> metaData
    else metaData in
  detached (_setStatus data (Some "completed") (Some metaData)).

(** [events.on('cluster:job_failure', ...)]. *)
Definition on_cluster_job_failure (data : obj) : promise unit :=
  await _ <- logger_log "error" "job has failed to complete" in
  detached (_setStatus data (Some "failed") (Some (failure_metaData data))).

(** [events.on('cluster:slicer_failure', ...)]. *)
Definition on_cluster_slicer_failure (data : obj) : promise unit :=
  await _ <- logger_log "error" "slicer for ex_id has failed to initialize" in
  detached (_setStatus data (Some "failed") (Some (failure_metaData data))).

(** [events.on('slicer:processing:error', ...)]. *)
Definition on_slicer_processing_error (data : obj) : promise unit :=
  await _ <- logger_log "error"
               "job has had at least one slice failure and will be marked 'failed'" in
  let metaData : obj := <["_has_errors" := VStr "true"]> ∅ in
  detached (_setStatus data (Some "failing") (Some metaData)).

(** [events.on('slicer:initialized', ...)]. *)
Definition on_slicer_initialized (data : obj) : promise unit :=
  await _ <- logger_log "info" "job is now running" in
  detached (_setStatus data (Some "running") None).

(** [events.on('slicer:job:update', ...)]. *)
Definition on_slicer_job_update (updateSpec : obj) : promise unit :=
  detached
    (updateEX (str_field "ex_id" updateSpec)
       (Some (set_field "operations" (updateSpec !! "update") ∅))).

End jobs_service_events.

(** ** A small cluster to run the service on *)

(** A cluster whose behaviour is read off a handful of switches: how many
    workers are free, whether allocations fail, which nodes run executions
    (the slicer's node first), which of them cannot be reached and which
    connections the moderator throttles. *)
Record example_cluster := {
  free_workers : Z;
  slicer_fails : bool;
  workers_fail : bool;
  nodes : list string;
  unreachable : list string;
  throttled : list string
}.

Definition take_workers (n : Z) (c : example_cluster) : example_cluster :=
  {| free_workers := free_workers c - n;
     slicer_fails := slicer_fails c;
     workers_fail := workers_fail c;
     nodes := nodes c;
     unreachable := unreachable c;
     throttled := throttled c |}.

Definition example_cluster_service : cluster_service.t example_cluster := {|
  cluster_service.availableWorkers c := free_workers c;
  cluster_service.allocateSlicer ex recover c :=
    if slicer_fails c then (inl (ClusterError "no slicer"), c)
    else (inr tt, take_workers 1 c);
  cluster_service.allocateWorkers ex workers c :=
    if workers_fail c then (inl (ClusterError "no workers"), c)
    else (inr tt, take_workers (match workers with Some (VNum n) => n | _ => 0 end) c);
  cluster_service.findNodesForJob ex_id slicerOnly c :=
    if slicerOnly then take 1 (nodes c) else nodes c;
  cluster_service.notifyNode node_id message ex_id c :=
    if bool_decide (node_id ∈ unreachable c)
    then (inl (ClusterError "node unreachable"), c)
    else (inr tt, c);
  cluster_service.checkModerator connectionList c :=
    (inr (map (fun name => {| canRun := bool_decide (name ∉ throttled c) |})
              (concat (connectionList.*2))), c)
|}.

(** A context around it: the validator asks for a name, the asset service
    knows every asset, [parseError] leaves the reason as it is. *)
Definition example_context : Context_ example_cluster := {|
  context_cluster := example_cluster_service;
  esConnectionState := "default";
  job_validator_validate job := if truthy (job !! "name") then Some job else None;
  parseError e := e;
  verify_assets assets :=
    {| msg_error := None;
       msg_assets :=
         match assets with
         | Some (VStrs l) => Some (map (fun name => "asset:" +:+ name) l)
         | _ => None
         end |};
  uuid n := "uuid-" +:+ NilEmpty.string_of_uint (Nat.to_uint n)
|}.

Definition reachable : backend := {| online := true; closed := false |}.

Definition quiet_cluster : example_cluster :=
  {| free_workers := 5; slicer_fails := false; workers_fail := false;
     nodes := ["node-1"; "node-2"]; unreachable := []; throttled := [] |}.

(** A freshly started service holding the given documents. *)
Definition example_world (docs : list (string * obj)) (c : example_cluster)
    : world example_cluster :=
  World (list_to_map docs) reachable reachable [] [] false c [] 0 0 [].

(** An execution document. *)
Definition execution (ex_id job_id status : string) : obj :=
  <["ex_id" := VStr ex_id]>
  (<["job_id" := VStr job_id]>
  (<["_context" := VStr "ex"]>
  (<["_status" := VStr status]> ∅))).

Definition status_in (docs : gmap string obj) (id : string) : option string :=
  docs !! id ≫= str_field "_status".

(** A job that reads the connection [hot], and an execution of it. *)
Definition hot_job : obj :=
  <["name" := VStr "J1"]>
  (<["workers" := VNum 2]>
  (<["moderator" := VConns [("elasticsearch", ["hot"])]]> ∅)).

Definition hot_execution : obj :=
  <["moderator" := VConns [("elasticsearch", ["hot"])]]>
  (<["workers" := VNum 2]> (execution "E1" "J1" "pending")).

(** The quiet cluster with one switch thrown. *)
Definition throttling_cluster : example_cluster :=
  {| free_workers := 5; slicer_fails := false; workers_fail := false;
     nodes := ["node-1"; "node-2"]; unreachable := []; throttled := ["hot"] |}.

Definition slicerless_cluster : example_cluster :=
  {| free_workers := 5; slicer_fails := true; workers_fail := false;
     nodes := ["node-1"; "node-2"]; unreachable := []; throttled := [] |}.

Definition workerless_cluster : example_cluster :=
  {| free_workers := 5; slicer_fails := false; workers_fail := true;
     nodes := ["node-1"; "node-2"]; unreachable := []; throttled := [] |}.

(** A world holding one running and one completed execution. *)
Definition world_with_running : world example_cluster :=
  example_world [("E1", execution "E1" "J1" "running");
                 ("E2", execution "E2" "J1" "completed")] quiet_cluster.

(** A world holding the job [J1]. *)
Definition world_with_job : world example_cluster :=
  example_world [("J1", <["job_id" := VStr "J1"]> (<["name" := VStr "a"]> ∅))]
    quiet_cluster.

(** A world whose pending queue holds the execution [E1]. *)
Definition world_with_pending (c : example_cluster) : world example_cluster :=
  set_pendingExecutionQueue [hot_execution]
    (example_world [("E1", hot_execution)] c).

(** A world whose queue of held executions holds the execution [E1]. *)
Definition world_with_held (c : example_cluster) : world example_cluster :=
  set_moderatorPausedQueue [hot_execution]
    (example_world [("E1", hot_execution)] c).

(** A job that names an asset, a running execution that reads the
    connection [hot], and a world in which it runs beside an execution that
    reads nothing. *)
Definition job_with_assets : obj := <["assets" := VStrs ["a1"]]> hot_job.

Definition hot_running : obj :=
  <["moderator" := VConns [("elasticsearch", ["hot"])]]> (execution "E1" "J1" "running").

Definition world_with_dependents : world example_cluster :=
  example_world [("E1", hot_running); ("E2", execution "E2" "J1" "running")]
    quiet_cluster.

(** A failure event for the execution [E1]. *)
Definition failure_of_E1 : obj :=
  <["error" := VStr "boom"]> (<["ex_id" := VStr "E1"]> ∅).

(** ** A cluster that never runs out *)

(** A second cluster: it has workers to spare whatever was allocated, counts
    the allocations it made, and its moderator can be down. *)
Record elastic_cluster := { allocated : nat; moderator_down : bool }.

Definition elastic_cluster_service : cluster_service.t elastic_cluster := {|
  cluster_service.availableWorkers c := 10%Z;
  cluster_service.allocateSlicer ex recover c :=
    (inr tt, {| allocated := S (allocated c); moderator_down := moderator_down c |});
  cluster_service.allocateWorkers ex workers c :=
    (inr tt, {| allocated := S (allocated c); moderator_down := moderator_down c |});
  cluster_service.findNodesForJob ex_id slicerOnly c := ["node-1"];
  cluster_service.notifyNode node_id message ex_id c := (inr tt, c);
  cluster_service.checkModerator connectionList c :=
    if moderator_down c then (inl (ClusterError "moderator down"), c)
    else (inr [], c)
|}.

Definition elastic_context : Context_ elastic_cluster := {|
  context_cluster := elastic_cluster_service;
  esConnectionState := "default";
  job_validator_validate job := Some job;
  parseError e := e;
  verify_assets assets := {| msg_error := None; msg_assets := None |};
  uuid n := "uuid-" +:+ NilEmpty.string_of_uint (Nat.to_uint n)
|}.

(** A freshly started service on it, holding the given documents and
    pending executions. *)
Definition elastic_world (docs : list (string * obj)) (pending : list obj)
    (down : bool) : world elastic_cluster :=
  World (list_to_map docs) reachable reachable pending [] false
    {| allocated := 0; moderator_down := down |} [] 0 0 [].

(** ** Vocabulary of the properties *)

Section vocabulary.
Context {Cluster : Type} `{!Context_ Cluster}.

(** The queues, the allocator's flag and the two backend handles. *)
Definition control (w : world Cluster) :=
  (pendingExecutionQueue w, moderatorPausedQueue w, isJobBeingAllocated w,
   job_backend w, ex_backend w).

(** The two admission queues. *)
Definition queues (w : world Cluster) :=
  (pendingExecutionQueue w, moderatorPausedQueue w).

(** The cluster service and the calls it has received. *)
Definition cluster_side (w : world Cluster) := (cluster w, cluster_calls w).

(** [m] leaves the part [proj] of the world as it found it. *)
Definition frames {X A} (proj : world Cluster → X) (m : promise Cluster A) : Prop :=
  ∀ w, proj (m w).2 = proj w.

(** The answers of the nodes to the notifications of one [_notifyCluster],
    in the order of the calls, and the cluster afterwards. *)
Fixpoint notifyNodes (nodes : list string) (message : string) (ex_id : option string)
    (c : Cluster) : list (error + unit) * Cluster :=
  match nodes with
  | [] => ([], c)
  | node_id :: nodes' =>
      let (r, c1) := cluster_service.notifyNode node_id message ex_id c in
      let (rs, c2) := notifyNodes nodes' message ex_id c1 in
      (r :: rs, c2)
  end.

(** What [Promise.all] over those answers rejects with, if it rejects. *)
Fixpoint first_rejection (rs : list (error + unit)) : option error :=
  match rs with
  | [] => None
  | inl e :: _ => Some e
  | inr _ :: rs' => first_rejection rs'
  end.

(** The nodes [_notifyCluster] addresses for a notice. *)
Definition nodes_for (ex_id : option string) (notice : string) (c : Cluster) : list string :=
  cluster_service.findNodesForJob ex_id
    (bool_decide (notice ∈ ["pause"; "resume"; "moderator_paused"])) c.

(** The Moderator Gate of the specification on the answer of the cluster
    service taken in state [c]: a job that tracks nothing passes, any other
    job passes when every entry of the answer can run. *)
Definition gate_passes (job : obj) (c : Cluster) : bool :=
  negb (truthy (job !! "moderator"))
  || match (cluster_service.checkModerator
              (connectionDefaults (toPairs (job !! "moderator"))) c).1 with
     | inr entries => forallb (fun db => canRun db) entries
     | inl _ => false
     end.

(** The moderator, when asked about [job] in state [c], answers. *)
Definition moderator_answers (job : obj) (c : Cluster) : Prop :=
  truthy (job !! "moderator") = true →
  ∃ entries,
    (cluster_service.checkModerator
       (connectionDefaults (toPairs (job !! "moderator"))) c).1 = inr entries.

(** While the cluster stays within [I], the moderator answers whatever it
    is asked. *)
Definition moderator_answers_within (I : Cluster → Prop) : Prop :=
  ∀ connectionList c, I c →
    ∃ entries c',
      cluster_service.checkModerator connectionList c = (inr entries, c') ∧ I c'.

(** While the cluster stays within [I], every node acknowledges whatever it
    is sent. *)
Definition nodes_acknowledge_within (I : Cluster → Prop) : Prop :=
  ∀ node_id message ex_id c, I c →
    ∃ c', cluster_service.notifyNode node_id message ex_id c = (inr tt, c') ∧ I c'.

(** The executions that the query of [shutdown] selects. *)
Definition active_executions (w : world Cluster) : list obj :=
  filter (fun o => matches shutdown_query o = true) ((map_to_list (jobs_index w)).*2).

(** Every document that carries a status is an execution filed under its
    own [ex_id]. *)
Definition executions_filed (docs : gmap string obj) : Prop :=
  map_Forall
    (fun id record => is_Some (record !! "_status") → str_field "ex_id" record = Some id)
    docs.

(** The record that [create] files for [record] under the id [id] at time
    [t]. *)
Definition created_record (s : store_name) (id : string) (t : nat) (record : obj) : obj :=
  <["_updated" := VDate t]>
  (<["_created" := VDate t]>
  (<["_context" := VStr (jobType s)]>
  (<[id_field s := VStr id]> record))).

(** The record that a status write leaves in the store. *)
Definition with_status (status : string) (t : nat) (record : obj) : obj :=
  <["_updated" := VDate t]> (<["_status" := VStr status]> ∅) ∪ record.
End vocabulary.

(** ** Vocabulary of the further properties *)

Section further_vocabulary.
Context {Cluster : Type} `{!Context_ Cluster}.

(** The object that [_setStatus] hands to [ex_store.update]:
    [{_status: status}] with the metadata assigned over it. *)
Definition statusObj_of (status : string) (metaData : option obj) : obj :=
  match metaData with
  | Some metaData => metaData ∪ <["_status" := VStr status]> ∅
  | None => <["_status" := VStr status]> ∅
  end.

(** The record that [update] leaves in the store for a partial. *)
Definition updated_record (update_spec : obj) (t : nat) (record : obj) : obj :=
  <["_updated" := VDate t]> update_spec ∪ record.

(** Every stored [_status] is one of [VALID_STATUS]. *)
Definition statuses_valid (docs : gmap string obj) : Prop :=
  map_Forall
    (fun _ record =>
       ∀ v, record !! "_status" = Some v → ∃ s, v = VStr s ∧ s ∈ VALID_STATUS)
    docs.

(** [m] keeps the property [P] of the documents. *)
Definition keeps {A} (P : gmap string obj → Prop) (m : promise Cluster A) : Prop :=
  ∀ w, P (jobs_index w) → P (jobs_index (m w).2).



(** While the cluster stays within [I] there are workers to spare and every
    allocation succeeds. *)
Definition allocations_succeed_within (I : Cluster → Prop) : Prop :=
  ∀ c, I c →
    (2 ≤ cluster_service.availableWorkers c)%Z
    ∧ ∀ ex recover,
        ∃ c1, cluster_service.allocateSlicer ex recover c = (inr tt, c1)
              ∧ ∀ workers,
                  ∃ c2, cluster_service.allocateWorkers ex workers c1 = (inr tt, c2)
                        ∧ I c2.

(** The two calls that the allocator makes for an execution. *)
Definition allocation_calls (ex : obj) : list cluster_call :=
  [CallAllocateSlicer (str_field "ex_id" ex) (ex !! "_recover_execution");
   CallAllocateWorkers (str_field "ex_id" ex) (ex !! "workers")].

(** The execution is stored under its [ex_id]. *)
Definition stored_execution (docs : gmap string obj) (ex : obj) : Prop :=
  ∃ id, str_field "ex_id" ex = Some id ∧ is_Some (docs !! id).
End further_vocabulary.

(** * Properties *)

(** ** Status model *)

Lemma matches_join_or (qs : list query) (o : obj) :
  matches (join_or qs) o = existsb (fun q => matches q o) qs.
Proof.
  destruct qs as [|q qs]; [done|]. simpl.
  revert q. induction qs as [|q' qs IH]; intros q; simpl.
  - by rewrite orb_false_r.
  - rewrite IH. simpl. by rewrite orb_assoc.
Qed.

Lemma matches_status_list (l : list string) (o : obj) :
  matches (join_or (map (QTerm "_status") l)) o = true
  ↔ ∃ s, s ∈ l ∧ str_field "_status" o = Some s.
Proof.
  rewrite matches_join_or, existsb_exists. split.
  - intros (q & Hq & Hm). apply in_map_iff in Hq as (s & <- & Hs).
    simpl in Hm. apply bool_decide_eq_true in Hm.
    exists s. split; [by apply list_elem_of_In | done].
  - intros (s & Hs & Hf). exists (QTerm "_status" s). split.
    + apply in_map_iff. exists s. split; [done | by apply list_elem_of_In].
    + simpl. by apply bool_decide_eq_true.
Qed.

Lemma matches_shutdown_query (o : obj) :
  matches shutdown_query o = true
  ↔ ∃ s, str_field "_status" o = Some s ∧ isActive s = true.
Proof.
  unfold shutdown_query, isActive. rewrite matches_status_list.
  split; intros (s & H1 & H2); exists s.
  - by rewrite bool_decide_eq_true.
  - by rewrite bool_decide_eq_true in H2.
Qed.

Lemma finished_iff_not_active (s : string) :
  s ∈ VALID_STATUS → (s ∈ finished_statuses ↔ isActive s = false).
Proof.
  unfold isActive. rewrite bool_decide_eq_false.
  unfold VALID_STATUS, finished_statuses, active_statuses, VALID_STATUS. simpl.
  rewrite !elem_of_cons, elem_of_nil.
  intros Hs.
  repeat (destruct Hs as [-> | Hs];
          [apply (bool_decide_unpack _); vm_compute; exact I|]).
  done.
Qed.

(** C4.  [isActive] holds exactly of the first seven statuses, pending,
    scheduling, initializing, running, failing, paused and moderator_paused,
    and of none of completed, stopped, rejected, failed and terminated; the
    query of [shutdown] selects the records whose status is active, and the
    active filter of [getLatestExecution] keeps, among the executions of the
    job with a valid status, exactly those whose status is active. *)
Theorem isActive_first_seven :
  (∀ s, isActive s = true ↔
        s ∈ ["pending"; "scheduling"; "initializing"; "running"; "failing";
             "paused"; "moderator_paused"])
  ∧ (∀ s, s ∈ ["completed"; "stopped"; "rejected"; "failed"; "terminated"] →
          isActive s = false)
  ∧ (∀ o, matches shutdown_query o = true
          ↔ ∃ s, str_field "_status" o = Some s ∧ isActive s = true)
  ∧ (∀ job_id o s,
       str_field "_status" o = Some s → s ∈ VALID_STATUS →
       (matches (latest_execution_query job_id true) o = true
        ↔ matches (latest_execution_query job_id false) o = true
          ∧ isActive s = true)).
Proof.
  split; [|split; [|split]].
  - intros s. unfold isActive. by rewrite bool_decide_eq_true.
  - intros s Hs. apply finished_iff_not_active; [|done].
    unfold VALID_STATUS. set_solver.
  - apply matches_shutdown_query.
  - intros job_id o s Ho Hs. unfold latest_execution_query.
    cbn [matches]. rewrite andb_true_iff, negb_true_iff.
    assert (matches (join_or (map (QTerm "_status") finished_statuses)) o = false
            ↔ isActive s = true) as ->; [|done].
    rewrite <- not_true_iff_false, matches_status_list.
    rewrite <- (not_false_iff_true (isActive s)), <- finished_iff_not_active by done.
    split; intros Hn Hf; apply Hn.
    + by exists s.
    + destruct Hf as (s' & Hs' & Heq). by simplify_eq.
Qed.

Lemma isActive_first_seven_witness :
  isActive "terminated" = false
  ∧ (matches (latest_execution_query "j" true) (execution "e" "j" "paused") = true
     ↔ matches (latest_execution_query "j" false) (execution "e" "j" "paused") = true
       ∧ isActive "paused" = true).
Proof.
  destruct isActive_first_seven as (_ & Hfin & _ & Hlatest). split.
  - apply Hfin. set_solver.
  - apply Hlatest; [reflexivity | unfold VALID_STATUS; set_solver].
Defined.

(** ** Frames *)

Section frames.
Context {Cluster : Type} `{!Context_ Cluster}.
Context {X : Type} (proj : world Cluster → X).
Local Abbreviation promise := (promise Cluster).

Lemma frames_resolve {A} (a : A) : frames proj (resolve a).
Proof. by intros w. Qed.

Lemma frames_reject {A} (e : error) : frames proj (@reject Cluster A e).
Proof. by intros w. Qed.

Lemma frames_throw {A} (e : error) : frames proj (@throw Cluster A e).
Proof. by intros w. Qed.

Lemma frames_bind {A B} (m : promise A) (f : A → promise B) :
  frames proj m → (∀ a, frames proj (f a)) → frames proj (bind m f).
Proof.
  intros Hm Hf w. unfold bind. specialize (Hm w).
  destruct (m w) as [[a|e|e] w']; simpl in *; [|done..].
  by rewrite Hf.
Qed.

Lemma frames_catch {A} (m : promise A) (h : error → promise A) :
  frames proj m → (∀ e, frames proj (h e)) → frames proj (catch m h).
Proof.
  intros Hm Hh w. unfold catch. specialize (Hm w).
  destruct (m w) as [[a|e|e] w']; simpl in *; [done| |done].
  by rewrite Hh.
Qed.

Lemma frames_finally {A B} (m : promise A) (f : promise B) :
  frames proj m → frames proj f → frames proj (finally m f).
Proof.
  intros Hm Hf w. unfold finally. specialize (Hm w).
  destruct (m w) as [r w']. specialize (Hf w').
  destruct (f w') as [[b|e|e] w'']; simpl in *; congruence.
Qed.

Lemma frames_in_callback {A} (m : promise A) :
  frames proj m → frames proj (in_callback m).
Proof.
  intros Hm w. unfold in_callback. specialize (Hm w).
  by destruct (m w) as [[a|e|e] w'].
Qed.

Lemma frames_detached {A} (m : promise A) :
  frames proj m → frames proj (detached m).
Proof.
  intros Hm w. unfold detached. specialize (Hm w). by destruct (m w).
Qed.

Lemma frames_Promise_all2 {A B} (m1 : promise A) (m2 : promise B) :
  frames proj m1 → frames proj m2 → frames proj (Promise_all2 m1 m2).
Proof.
  intros H1 H2 w. unfold Promise_all2. specialize (H1 w).
  destruct (m1 w) as [r1 w1]. specialize (H2 w1).
  destruct (m2 w1) as [r2 w2]. simpl in *.
  destruct r1, r2; simpl; congruence.
Qed.

Lemma frames_Promise_all {A} (ms : list (promise A)) :
  Forall (frames proj) ms → frames proj (Promise_all ms).
Proof.
  induction 1 as [|m ms Hm _ IH]; intros w; [done|]. simpl.
  specialize (Hm w). destruct (m w) as [r w1]. specialize (IH w1).
  destruct (Promise_all ms w1) as [rs w2]. simpl in *.
  destruct r, rs; simpl; congruence.
Qed.

Lemma frames_Promise_map {A B} (l : list A) (f : A → promise B) :
  (∀ a, frames proj (f a)) → frames proj (Promise_map l f).
Proof.
  intros Hf. apply frames_Promise_all, Forall_map, Forall_forall. auto.
Qed.
End frames.

(** Splits a chain along its combinators and closes the leaves that only
    touch parts of the world outside the projection. *)
Ltac frames_leaf :=
  let w := fresh "w" in
  intros w;
  repeat match goal with
         | |- context [let (_, _) := ?x in _] => destruct x
         | |- context [match ?x with _ => _ end] => destruct x
         end;
  reflexivity.

Ltac frames_step :=
  first
    [ assumption
    | solve [eauto 3 with frames]
    | apply frames_resolve | apply frames_reject | apply frames_throw
    | apply frames_bind; [|intros ?]
    | apply frames_catch; [|intros ?]
    | apply frames_finally
    | apply frames_in_callback
    | apply frames_detached
    | apply frames_Promise_all2
    | apply frames_Promise_map; intros ?
    | progress cbv zeta
    | match goal with
      | |- frames _ (match ?x with _ => _ end) => destruct x
      | |- frames _ (if ?b then _ else _) => destruct b
      end ].

Ltac frames_tac := repeat frames_step.

Create HintDb frames.

Section service_properties.
Context {Cluster : Type} `{!Context_ Cluster}.
Local Abbreviation promise := (promise Cluster).

Lemma logger_log_control level message : frames (Cluster:=Cluster) control (logger_log (Cluster:=Cluster) level message).
Proof. frames_leaf. Qed.
Lemma logger_log_index level message : frames (Cluster:=Cluster) jobs_index (logger_log (Cluster:=Cluster) level message).
Proof. frames_leaf. Qed.
Lemma logger_log_cluster level message : frames (Cluster:=Cluster) cluster_side (logger_log (Cluster:=Cluster) level message).
Proof. frames_leaf. Qed.

Lemma new_Date_control : frames (Cluster:=Cluster) control (new_Date (Cluster:=Cluster)).
Proof. frames_leaf. Qed.
Lemma new_Date_index : frames (Cluster:=Cluster) jobs_index (new_Date (Cluster:=Cluster)).
Proof. frames_leaf. Qed.
Lemma new_Date_cluster : frames (Cluster:=Cluster) cluster_side (new_Date (Cluster:=Cluster)).
Proof. frames_leaf. Qed.

Lemma uuid_v4_control : frames (Cluster:=Cluster) control storage.uuid_v4.
Proof. frames_leaf. Qed.
Lemma uuid_v4_cluster : frames (Cluster:=Cluster) cluster_side storage.uuid_v4.
Proof. frames_leaf. Qed.

Hint Resolve logger_log_control logger_log_index logger_log_cluster
  new_Date_control new_Date_index new_Date_cluster
  uuid_v4_control uuid_v4_cluster : frames.

(** The backend *)

Lemma backend_get_control s record_id : frames (Cluster:=Cluster) control (elasticsearch_store.get s record_id).
Proof. unfold elasticsearch_store.get. frames_leaf. Qed.
Lemma backend_get_index s record_id : frames (Cluster:=Cluster) jobs_index (elasticsearch_store.get s record_id).
Proof. unfold elasticsearch_store.get. frames_leaf. Qed.
Lemma backend_get_cluster s record_id : frames (Cluster:=Cluster) cluster_side (elasticsearch_store.get s record_id).
Proof. unfold elasticsearch_store.get. frames_leaf. Qed.

Lemma backend_search_control s q from size sort :
  frames (Cluster:=Cluster) control (elasticsearch_store.search s q from size sort).
Proof. unfold elasticsearch_store.search. frames_leaf. Qed.
Lemma backend_search_index s q from size sort :
  frames (Cluster:=Cluster) jobs_index (elasticsearch_store.search s q from size sort).
Proof. unfold elasticsearch_store.search. frames_leaf. Qed.
Lemma backend_search_cluster s q from size sort :
  frames (Cluster:=Cluster) cluster_side (elasticsearch_store.search s q from size sort).
Proof. unfold elasticsearch_store.search. frames_leaf. Qed.

Lemma backend_create_control s record : frames (Cluster:=Cluster) control (elasticsearch_store.create s record).
Proof. unfold elasticsearch_store.create. frames_leaf. Qed.
Lemma backend_create_cluster s record : frames (Cluster:=Cluster) cluster_side (elasticsearch_store.create s record).
Proof. unfold elasticsearch_store.create. frames_leaf. Qed.

Lemma backend_update_control s record_id update_spec :
  frames (Cluster:=Cluster) control (elasticsearch_store.update s record_id update_spec).
Proof. unfold elasticsearch_store.update. frames_leaf. Qed.
Lemma backend_update_cluster s record_id update_spec :
  frames (Cluster:=Cluster) cluster_side (elasticsearch_store.update s record_id update_spec).
Proof. unfold elasticsearch_store.update. frames_leaf. Qed.

Lemma backend_shutdown_index s : frames (Cluster:=Cluster) jobs_index (elasticsearch_store.shutdown s).
Proof. unfold elasticsearch_store.shutdown. intros w. by destruct s. Qed.
Lemma backend_shutdown_cluster s : frames (Cluster:=Cluster) cluster_side (elasticsearch_store.shutdown s).
Proof. unfold elasticsearch_store.shutdown. intros w. by destruct s. Qed.

Hint Resolve backend_get_control backend_get_index backend_get_cluster
  backend_search_control backend_search_index backend_search_cluster
  backend_create_control backend_create_cluster
  backend_update_control backend_update_cluster
  backend_shutdown_index backend_shutdown_cluster : frames.

(** The adapter *)

Lemma storage_get_control s record_id : frames (Cluster:=Cluster) control (storage.get s record_id).
Proof. unfold storage.get. frames_tac. Qed.
Lemma storage_get_index s record_id : frames (Cluster:=Cluster) jobs_index (storage.get s record_id).
Proof. unfold storage.get. frames_tac. Qed.
Lemma storage_get_cluster s record_id : frames (Cluster:=Cluster) cluster_side (storage.get s record_id).
Proof. unfold storage.get. frames_tac. Qed.

Lemma storage_search_control s q from size sort :
  frames (Cluster:=Cluster) control (storage.search s q from size sort).
Proof. unfold storage.search. frames_tac. Qed.
Lemma storage_search_index s q from size sort :
  frames (Cluster:=Cluster) jobs_index (storage.search s q from size sort).
Proof. unfold storage.search. frames_tac. Qed.
Lemma storage_search_cluster s q from size sort :
  frames (Cluster:=Cluster) cluster_side (storage.search s q from size sort).
Proof. unfold storage.search. frames_tac. Qed.

Lemma storage_create_control s record : frames (Cluster:=Cluster) control (storage.create s record).
Proof. unfold storage.create. frames_tac. Qed.
Lemma storage_create_cluster s record : frames (Cluster:=Cluster) cluster_side (storage.create s record).
Proof. unfold storage.create. frames_tac. Qed.

Lemma storage_update_control s record_id update_spec :
  frames (Cluster:=Cluster) control (storage.update s record_id update_spec).
Proof. unfold storage.update. frames_tac. Qed.
Lemma storage_update_cluster s record_id update_spec :
  frames (Cluster:=Cluster) cluster_side (storage.update s record_id update_spec).
Proof. unfold storage.update. frames_tac. Qed.

Lemma storage_shutdown_index s : frames (Cluster:=Cluster) jobs_index (storage.shutdown s).
Proof. unfold storage.shutdown. frames_tac. Qed.
Lemma storage_shutdown_cluster s : frames (Cluster:=Cluster) cluster_side (storage.shutdown s).
Proof. unfold storage.shutdown. frames_tac. Qed.

Hint Resolve storage_get_control storage_get_index storage_get_cluster
  storage_search_control storage_search_index storage_search_cluster
  storage_create_control storage_create_cluster
  storage_update_control storage_update_cluster
  storage_shutdown_index storage_shutdown_cluster : frames.

(** The cluster service *)

Lemma cluster_allocateSlicer_control ex recover : frames (Cluster:=Cluster) control (cluster_allocateSlicer ex recover).
Proof. unfold cluster_allocateSlicer. frames_leaf. Qed.
Lemma cluster_allocateSlicer_index ex recover : frames (Cluster:=Cluster) jobs_index (cluster_allocateSlicer ex recover).
Proof. unfold cluster_allocateSlicer. frames_leaf. Qed.
Lemma cluster_allocateWorkers_control ex workers : frames (Cluster:=Cluster) control (cluster_allocateWorkers ex workers).
Proof. unfold cluster_allocateWorkers. frames_leaf. Qed.
Lemma cluster_allocateWorkers_index ex workers : frames (Cluster:=Cluster) jobs_index (cluster_allocateWorkers ex workers).
Proof. unfold cluster_allocateWorkers. frames_leaf. Qed.
Lemma cluster_notifyNode_control node_id message ex_id :
  frames (Cluster:=Cluster) control (cluster_notifyNode node_id message ex_id).
Proof. unfold cluster_notifyNode. frames_leaf. Qed.
Lemma cluster_notifyNode_index node_id message ex_id :
  frames (Cluster:=Cluster) jobs_index (cluster_notifyNode node_id message ex_id).
Proof. unfold cluster_notifyNode. frames_leaf. Qed.
Lemma cluster_checkModerator_control connectionList :
  frames (Cluster:=Cluster) control (cluster_checkModerator connectionList).
Proof. unfold cluster_checkModerator. frames_leaf. Qed.
Lemma cluster_checkModerator_index connectionList :
  frames (Cluster:=Cluster) jobs_index (cluster_checkModerator connectionList).
Proof. unfold cluster_checkModerator. frames_leaf. Qed.

Hint Resolve cluster_allocateSlicer_control cluster_allocateSlicer_index
  cluster_allocateWorkers_control cluster_allocateWorkers_index
  cluster_notifyNode_control cluster_notifyNode_index
  cluster_checkModerator_control cluster_checkModerator_index : frames.

(** The service *)

Lemma getJob_control job_id : frames (Cluster:=Cluster) control (getJob job_id).
Proof. unfold getJob. frames_tac. Qed.
Lemma getJob_index job_id : frames (Cluster:=Cluster) jobs_index (getJob job_id).
Proof. unfold getJob. frames_tac. Qed.
Lemma getExecutionContext_control ex_id : frames (Cluster:=Cluster) control (getExecutionContext ex_id).
Proof. unfold getExecutionContext. frames_tac. Qed.
Lemma getExecutionContext_index ex_id : frames (Cluster:=Cluster) jobs_index (getExecutionContext ex_id).
Proof. unfold getExecutionContext. frames_tac. Qed.
Lemma getExecutionContext_cluster ex_id : frames (Cluster:=Cluster) cluster_side (getExecutionContext ex_id).
Proof. unfold getExecutionContext. frames_tac. Qed.
Lemma ex_search_control q : frames (Cluster:=Cluster) control (ex_search q).
Proof. unfold ex_search. frames_tac. Qed.
Lemma ex_search_index q : frames (Cluster:=Cluster) jobs_index (ex_search q).
Proof. unfold ex_search. frames_tac. Qed.
Lemma checkModerator_control job : frames (Cluster:=Cluster) control (checkModerator job).
Proof. unfold checkModerator. frames_tac. Qed.
Lemma checkModerator_index job : frames (Cluster:=Cluster) jobs_index (checkModerator job).
Proof. unfold checkModerator. frames_tac. Qed.

Hint Resolve getJob_control getJob_index getExecutionContext_control
  getExecutionContext_index getExecutionContext_cluster ex_search_control
  ex_search_index checkModerator_control checkModerator_index : frames.

Lemma _setStatus_control job_spec status metaData :
  frames (Cluster:=Cluster) control (_setStatus job_spec status metaData).
Proof. unfold _setStatus. frames_tac. Qed.
Lemma _setStatus_cluster job_spec status metaData :
  frames (Cluster:=Cluster) cluster_side (_setStatus job_spec status metaData).
Proof. unfold _setStatus. frames_tac. Qed.

Lemma _notifyCluster_control ex_id notice : frames (Cluster:=Cluster) control (_notifyCluster ex_id notice).
Proof.
  unfold _notifyCluster. destruct (MESSAGE_MAPPING !! notice); [|frames_tac].
  intros w. match goal with |- context [catch ?m ?h] => apply (frames_catch _ m h) end.
  - frames_tac.
  - intros e. frames_tac.
Qed.
Lemma _notifyCluster_index ex_id notice : frames (Cluster:=Cluster) jobs_index (_notifyCluster ex_id notice).
Proof.
  unfold _notifyCluster. destruct (MESSAGE_MAPPING !! notice); [|frames_tac].
  intros w. match goal with |- context [catch ?m ?h] => apply (frames_catch _ m h) end.
  - frames_tac.
  - intros e. frames_tac.
Qed.

Hint Resolve _setStatus_control _setStatus_cluster _notifyCluster_control
  _notifyCluster_index : frames.

Lemma _signalJobStateChange_control ex_id notice state :
  frames (Cluster:=Cluster) control (_signalJobStateChange ex_id notice state).
Proof. unfold _signalJobStateChange. frames_tac. Qed.

Hint Resolve _signalJobStateChange_control : frames.

Lemma notify_control ex_id state : frames (Cluster:=Cluster) control (notify ex_id state).
Proof. unfold notify. frames_tac. Qed.

Lemma enqueueJob_index ex : frames (Cluster:=Cluster) jobs_index (enqueueJob ex).
Proof. frames_leaf. Qed.

Hint Resolve notify_control enqueueJob_index : frames.

Lemma restartExecution_index ex_id : frames (Cluster:=Cluster) jobs_index (restartExecution ex_id).
Proof. unfold restartExecution. frames_tac. Qed.

(** ** Steps of the store *)

Lemma backend_of_set_jobs_index s i (w : world Cluster) :
  backend_of s (set_jobs_index i w) = backend_of s w.
Proof. by destruct s. Qed.

Lemma storage_get_resolved s id record (w : world Cluster) :
  online (backend_of s w) = true → jobs_index w !! id = Some record →
  storage.get s (Some id) w = (Resolved record, w).
Proof.
  intros Hon Hget. unfold storage.get, elasticsearch_store.get.
  rewrite Hon. simpl. by rewrite Hget.
Qed.

Lemma storage_update_resolved s id update_spec record (w : world Cluster) :
  online (backend_of s w) = true → jobs_index w !! id = Some record →
  storage.update s (Some id) (Some update_spec) w
  = (Resolved (<["_updated" := VDate (clock w)]> update_spec ∪ record),
     set_jobs_index
       (<[id := <["_updated" := VDate (clock w)]> update_spec ∪ record]> (jobs_index w))
       (set_clock (S (clock w)) w)).
Proof.
  intros Hon Hget. unfold storage.update, bind, new_Date, elasticsearch_store.update.
  assert (online (backend_of s (set_clock (S (clock w)) w)) = true) as ->
    by (by destruct s).
  simpl. by rewrite Hget.
Qed.

Lemma getExecutionContext_resolved id record (w : world Cluster) :
  online (ex_backend w) = true → jobs_index w !! id = Some record →
  getExecutionContext (Some id) w = (Resolved (Some record), w).
Proof.
  intros Hon Hget. unfold getExecutionContext, catch, bind.
  by rewrite (storage_get_resolved ex_store id record).
Qed.

Lemma _setStatus_resolved job_spec id status record (w : world Cluster) :
  str_field "ex_id" job_spec = Some id → status ∈ VALID_STATUS →
  online (ex_backend w) = true → jobs_index w !! id = Some record →
  _setStatus job_spec (Some status) None w
  = (Resolved job_spec,
     set_jobs_index (<[id := with_status status (clock w) record]> (jobs_index w))
       (set_clock (S (clock w)) w)).
Proof.
  intros Hid Hst Hon Hget. unfold _setStatus, valid_status.
  rewrite bool_decide_eq_true_2 by done.
  unfold catch at 1, bind at 1. rewrite Hid.
  rewrite (getExecutionContext_resolved id record) by done.
  unfold catch, bind, in_callback.
  by rewrite (storage_update_resolved ex_store id _ record).
Qed.

Lemma _setStatus_invalid job_spec status metaData (w : world Cluster) :
  valid_status status = false →
  _setStatus job_spec status metaData w = (Rejected (InvalidStatus status), w).
Proof. intros Hst. unfold _setStatus. by rewrite Hst. Qed.

(** ** Steps of the notifications *)

Lemma set_cluster_nil (w : world Cluster) : set_cluster (cluster w) [] w = w.
Proof. destruct w. unfold set_cluster. simpl. by rewrite app_nil_r. Qed.

Lemma set_cluster_set_cluster c1 l1 c2 l2 (w : world Cluster) :
  set_cluster c2 l2 (set_cluster c1 l1 w) = set_cluster c2 (l1 ++ l2) w.
Proof. unfold set_cluster. simpl. by rewrite app_assoc. Qed.

Lemma first_rejection_None rs :
  first_rejection rs = None ↔ ∀ e, inl e ∉ rs.
Proof.
  induction rs as [|[e|[]] rs IH]; simpl.
  - split; [intros _ e; apply not_elem_of_nil | done].
  - split; [done|]. intros H. destruct (H e). left.
  - rewrite IH. split; intros H e; specialize (H e).
    + by rewrite elem_of_cons; intros [?|?].
    + intros ?. apply H. by right.
Qed.

Lemma first_rejection_Some rs :
  is_Some (first_rejection rs) ↔ ∃ e, inl e ∈ rs.
Proof.
  induction rs as [|[e'|[]] rs IH]; simpl.
  - split; [by intros [? ?] | intros [e He]; by apply elem_of_nil in He].
  - split; [intros _; exists e'; left | intros _; eauto].
  - rewrite IH. split; intros [e He]; exists e; [by right|].
    by apply elem_of_cons in He as [?|?].
Qed.

Lemma notify_requests nodes message ex_id (w : world Cluster) :
  Promise_all (map (fun node_id => cluster_notifyNode node_id message ex_id) nodes) w
  = (match first_rejection (notifyNodes nodes message ex_id (cluster w)).1 with
     | Some e => Rejected e
     | None => Resolved (replicate (length nodes) tt)
     end,
     set_cluster (notifyNodes nodes message ex_id (cluster w)).2
       (map (fun node_id => CallNotifyNode node_id message ex_id) nodes) w).
Proof.
  revert w. induction nodes as [|node_id nodes IH]; intros w; simpl.
  - unfold resolve. by rewrite set_cluster_nil.
  - unfold cluster_notifyNode at 1.
    destruct (cluster_service.notifyNode node_id message ex_id (cluster w)) as [r c1].
    rewrite IH. cbn [cluster set_cluster].
    destruct (notifyNodes nodes message ex_id c1) as [rs c2]. cbn [fst snd].
    rewrite set_cluster_set_cluster.
    destruct r as [e|[]]; simpl; [done|].
    by destruct (first_rejection rs).
Qed.

Lemma slicerOnly_notices notice :
  bool_decide (notice = "pause") || bool_decide (notice = "resume")
  || bool_decide (notice = "moderator_paused")
  = bool_decide (notice ∈ ["pause"; "resume"; "moderator_paused"]).
Proof.
  apply eq_true_iff_eq.
  rewrite !orb_true_iff, !bool_decide_eq_true, !elem_of_cons, elem_of_nil.
  tauto.
Qed.

(** The world once [_notifyCluster] has called every node. *)
Lemma _notifyCluster_step ex_id notice message (w : world Cluster) :
  MESSAGE_MAPPING !! notice = Some message →
  let nodes := nodes_for ex_id notice (cluster w) in
  let answers := notifyNodes nodes message ex_id (cluster w) in
  let w' := set_cluster answers.2
              (map (fun node_id => CallNotifyNode node_id message ex_id) nodes) w in
  _notifyCluster ex_id notice w
  = match first_rejection answers.1 with
    | None => (Resolved true, w')
    | Some e =>
        (Rejected (parseError e),
         set_logger (logger w' ++ [("error", "could not notify cluster")]) w')
    end.
Proof.
  intros Hmsg. unfold _notifyCluster, nodes_for. rewrite Hmsg, slicerOnly_notices.
  cbv zeta. unfold catch, bind at 1. rewrite notify_requests.
  by destruct (first_rejection _).
Qed.

Lemma _signalJobStateChange_notify_fails ex_id notice state message e (w : world Cluster) :
  MESSAGE_MAPPING !! notice = Some message →
  let nodes := nodes_for ex_id notice (cluster w) in
  first_rejection (notifyNodes nodes message ex_id (cluster w)).1 = Some e →
  ∃ w',
    _signalJobStateChange ex_id notice state w
    = (Rejected (parseError (parseError e)), w')
    ∧ jobs_index w' = jobs_index w
    ∧ cluster_calls w'
      = cluster_calls w ++ map (fun node_id => CallNotifyNode node_id message ex_id) nodes.
Proof.
  intros Hmsg nodes Hrej. unfold _signalJobStateChange, catch, bind at 1.
  rewrite (_notifyCluster_step _ _ message) by done. cbv zeta.
  fold nodes. rewrite Hrej. cbn [bind logger_log reject]. eauto.
Qed.

Lemma _signalJobStateChange_resolved id notice status message record (w : world Cluster) :
  MESSAGE_MAPPING !! notice = Some message →
  let nodes := nodes_for (Some id) notice (cluster w) in
  first_rejection (notifyNodes nodes message (Some id) (cluster w)).1 = None →
  online (ex_backend w) = true → jobs_index w !! id = Some record →
  str_field "ex_id" record = Some id → status ∈ VALID_STATUS →
  ∃ w',
    _signalJobStateChange (Some id) notice (Some status) w = (Resolved (Some status), w')
    ∧ jobs_index w' = <[id := with_status status (clock w) record]> (jobs_index w)
    ∧ control w' = control w
    ∧ cluster_calls w'
      = cluster_calls w ++ map (fun node_id => CallNotifyNode node_id message (Some id)) nodes
    ∧ cluster w' = (notifyNodes nodes message (Some id) (cluster w)).2.
Proof.
  intros Hmsg nodes Hok Hon Hget Hid Hst.
  unfold _signalJobStateChange, catch, bind at 1.
  rewrite (_notifyCluster_step _ _ message) by done. cbv zeta.
  fold nodes. rewrite Hok. unfold bind at 1.
  rewrite (storage_get_resolved ex_store id record) by done.
  unfold bind at 1. cbn [logger_log]. unfold bind at 1.
  rewrite (_setStatus_resolved _ id status record) by done.
  cbn [resolve]. eexists. split; [reflexivity|]. by repeat split.
Qed.

Lemma _signalJobStateChange_invalid id notice state message record (w : world Cluster) :
  MESSAGE_MAPPING !! notice = Some message →
  let nodes := nodes_for (Some id) notice (cluster w) in
  first_rejection (notifyNodes nodes message (Some id) (cluster w)).1 = None →
  online (ex_backend w) = true → jobs_index w !! id = Some record →
  valid_status state = false →
  ∃ w',
    _signalJobStateChange (Some id) notice state w
    = (Rejected (parseError (InvalidStatus state)), w')
    ∧ jobs_index w' = jobs_index w
    ∧ cluster_calls w'
      = cluster_calls w ++ map (fun node_id => CallNotifyNode node_id message (Some id)) nodes.
Proof.
  intros Hmsg nodes Hok Hon Hget Hst.
  unfold _signalJobStateChange, catch, bind at 1.
  rewrite (_notifyCluster_step _ _ message) by done. cbv zeta.
  fold nodes. rewrite Hok. unfold bind at 1.
  rewrite (storage_get_resolved ex_store id record) by done.
  unfold bind at 1. cbn [logger_log]. unfold bind at 1.
  rewrite _setStatus_invalid by done.
  cbn [bind logger_log reject]. eauto.
Qed.

Lemma STATE_MAPPING_Some command status :
  STATE_MAPPING !! command = Some status →
  status ∈ VALID_STATUS ∧ is_Some (MESSAGE_MAPPING !! command).
Proof.
  unfold STATE_MAPPING. rewrite !lookup_insert_Some, lookup_empty.
  intros H. unfold VALID_STATUS.
  repeat (destruct H as [[<- <-]|[_ H]]; [split; [set_solver | by eexists]|]).
  done.
Qed.

(** ** Notify *)

Lemma notify_notification_fails ex_id command message e (w : world Cluster) :
  MESSAGE_MAPPING !! command = Some message →
  let nodes := nodes_for ex_id command (cluster w) in
  first_rejection (notifyNodes nodes message ex_id (cluster w)).1 = Some e →
  ∃ w',
    notify ex_id command w = (Rejected (parseError (parseError (parseError e))), w')
    ∧ jobs_index w' = jobs_index w
    ∧ cluster_calls w'
      = cluster_calls w ++ map (fun node_id => CallNotifyNode node_id message ex_id) nodes.
Proof.
  intros Hmsg nodes Hrej. unfold notify, catch at 1.
  destruct (_signalJobStateChange_notify_fails ex_id command (STATE_MAPPING !! command)
              message e w Hmsg Hrej) as (w' & -> & Hidx & Hcalls).
  cbn [bind logger_log reject]. eauto.
Qed.

Lemma notify_resolved id command status message record (w : world Cluster) :
  STATE_MAPPING !! command = Some status →
  MESSAGE_MAPPING !! command = Some message →
  let nodes := nodes_for (Some id) command (cluster w) in
  first_rejection (notifyNodes nodes message (Some id) (cluster w)).1 = None →
  online (ex_backend w) = true → jobs_index w !! id = Some record →
  str_field "ex_id" record = Some id →
  ∃ w',
    notify (Some id) command w = (Resolved (Some status), w')
    ∧ jobs_index w' = <[id := with_status status (clock w) record]> (jobs_index w)
    ∧ control w' = control w
    ∧ cluster_calls w'
      = cluster_calls w ++ map (fun node_id => CallNotifyNode node_id message (Some id)) nodes
    ∧ cluster w' = (notifyNodes nodes message (Some id) (cluster w)).2.
Proof.
  intros Hcmd Hmsg nodes Hok Hon Hget Hid. unfold notify, catch at 1. rewrite Hcmd.
  destruct (STATE_MAPPING_Some _ _ Hcmd) as [Hst _].
  destruct (_signalJobStateChange_resolved id command status message record w
              Hmsg Hok Hon Hget Hid Hst) as (w' & -> & ?). by exists w'.
Qed.

Lemma notify_invalid_status id command message record (w : world Cluster) :
  STATE_MAPPING !! command = None →
  MESSAGE_MAPPING !! command = Some message →
  let nodes := nodes_for (Some id) command (cluster w) in
  first_rejection (notifyNodes nodes message (Some id) (cluster w)).1 = None →
  online (ex_backend w) = true → jobs_index w !! id = Some record →
  ∃ w',
    notify (Some id) command w
    = (Rejected (parseError (parseError (InvalidStatus None))), w')
    ∧ jobs_index w' = jobs_index w
    ∧ cluster_calls w'
      = cluster_calls w ++ map (fun node_id => CallNotifyNode node_id message (Some id)) nodes.
Proof.
  intros Hcmd Hmsg nodes Hok Hon Hget. unfold notify, catch at 1. rewrite Hcmd.
  destruct (_signalJobStateChange_invalid id command None message record w
              Hmsg Hok Hon Hget eq_refl) as (w' & -> & Hidx & Hcalls).
  cbn [bind logger_log reject]. eauto.
Qed.

(** C3.  For a command of the notify set, [notify] first sends the mapped
    cluster message to every node that [findNodesForJob] names for the
    command.  If some node's notification fails the call rejects and the
    store is as it was; when every notification succeeds the status of the
    command map is written to the execution and it is that status that the
    call resolves with. *)
Theorem notify_writes_after_notifications ex_id command status record (w : world Cluster) :
  STATE_MAPPING !! command = Some status →
  online (ex_backend w) = true →
  jobs_index w !! ex_id = Some record →
  str_field "ex_id" record = Some ex_id →
  ∃ message,
    MESSAGE_MAPPING !! command = Some message
    ∧ let nodes := nodes_for (Some ex_id) command (cluster w) in
      let answers := (notifyNodes nodes message (Some ex_id) (cluster w)).1 in
      let result := notify (Some ex_id) command w in
      cluster_calls result.2
      = cluster_calls w
        ++ map (fun node_id => CallNotifyNode node_id message (Some ex_id)) nodes
      ∧ ((∃ e, inl e ∈ answers) →
         (∃ e, result.1 = Rejected e) ∧ jobs_index result.2 = jobs_index w)
      ∧ ((∀ e, inl e ∉ answers) →
         result.1 = Resolved (Some status)
         ∧ jobs_index result.2
           = <[ex_id := with_status status (clock w) record]> (jobs_index w)).
Proof.
  intros Hcmd Hon Hget Hid.
  destruct (STATE_MAPPING_Some _ _ Hcmd) as [Hst [message Hmsg]].
  exists message. split; [done|]. cbv zeta.
  destruct (first_rejection
              (notifyNodes (nodes_for (Some ex_id) command (cluster w)) message
                 (Some ex_id) (cluster w)).1) as [e|] eqn:Hrej.
  - destruct (notify_notification_fails (Some ex_id) command message e w Hmsg Hrej)
      as (w' & -> & Hidx & Hcalls).
    cbn [fst snd]. split; [done|]. split; [eauto|].
    intros Hall. apply first_rejection_None in Hall. congruence.
  - destruct (notify_resolved ex_id command status message record w
                Hcmd Hmsg Hrej Hon Hget Hid) as (w' & -> & Hidx & _ & Hcalls & _).
    cbn [fst snd]. split; [done|]. split; [|done].
    intros Hsome. apply first_rejection_Some in Hsome as [e He]. congruence.
Qed.

(** C10.  [restart] is a key of the message map and not of the status map.
    When the nodes running the execution all acknowledge, [notify] of
    [restart] has sent [cluster:job:restart] to every one of them, rejects
    with the invalid status [undefined], and leaves the store, and so the
    status of the execution, as it was. *)
Theorem notify_restart_rejects_after_sending ex_id record (w : world Cluster) :
  let nodes := cluster_service.findNodesForJob (Some ex_id) false (cluster w) in
  (∀ e, inl e ∉ (notifyNodes nodes "cluster:job:restart" (Some ex_id) (cluster w)).1) →
  online (ex_backend w) = true →
  jobs_index w !! ex_id = Some record →
  MESSAGE_MAPPING !! "restart" = Some "cluster:job:restart"
  ∧ STATE_MAPPING !! "restart" = None
  ∧ let result := notify (Some ex_id) "restart" w in
    result.1 = Rejected (parseError (parseError (InvalidStatus None)))
    ∧ cluster_calls result.2
      = cluster_calls w
        ++ map (fun node_id => CallNotifyNode node_id "cluster:job:restart" (Some ex_id))
               nodes
    ∧ jobs_index result.2 = jobs_index w.
Proof.
  intros nodes Hall Hon Hget.
  assert (MESSAGE_MAPPING !! "restart" = Some "cluster:job:restart") as Hmsg
    by (vm_compute; reflexivity).
  assert (STATE_MAPPING !! "restart" = None) as Hst by (vm_compute; reflexivity).
  split; [done|]. split; [done|]. cbv zeta.
  apply first_rejection_None in Hall.
  destruct (notify_invalid_status ex_id "restart" _ record w Hst Hmsg Hall Hon Hget)
    as (w' & -> & Hidx & Hcalls).
  done.
Qed.

(** ** Restart *)

Lemma restartExecution_enqueues ex_id record (w : world Cluster) :
  online (ex_backend w) = true →
  jobs_index w !! ex_id = Some record →
  record !! "_status" ≠ Some (VStr "completed") →
  record !! "_status" ≠ Some (VStr "scheduling") →
  restartExecution (Some ex_id) w
  = (Resolved tt,
     set_pendingExecutionQueue
       (pendingExecutionQueue w ++ [<["_recover_execution" := VBool true]> record]) w).
Proof.
  intros Hon Hget Hc Hs. unfold restartExecution, catch, bind.
  rewrite (getExecutionContext_resolved ex_id record) by done.
  by rewrite !bool_decide_eq_false_2 by done.
Qed.

Lemma restartExecution_always_resolves ex_id (w : world Cluster) :
  ∃ w', restartExecution ex_id w = (Resolved tt, w').
Proof.
  unfold restartExecution, catch, bind, getExecutionContext, catch, bind,
    storage.get, elasticsearch_store.get, enqueueJob, reject, resolve, logger_log.
  repeat case_match; simplify_eq; eauto.
Qed.

(** C5.  Evaluation of [restartExecution] on an execution that is completed
    or being scheduled: the refusal is thrown and caught inside the call,
    which logs it and resolves; the caller sees no error.  The queue and the
    store are as they were. *)
Theorem restartExecution_swallows_refusal ex_id record (w : world Cluster) :
  online (ex_backend w) = true →
  jobs_index w !! ex_id = Some record →
  record !! "_status" = Some (VStr "completed")
  ∨ record !! "_status" = Some (VStr "scheduling") →
  restartExecution (Some ex_id) w
  = (Resolved tt,
     set_logger (logger w ++ [("error", "could not restart execution context")]) w).
Proof.
  intros Hon Hget Hst. unfold restartExecution, catch, bind.
  rewrite (getExecutionContext_resolved ex_id record) by done.
  destruct Hst as [-> | ->]; by repeat case_bool_decide.
Qed.

(** ** Update of a job *)

Lemma insert_union_self (k : string) (v : val) (o : obj) :
  <[k := v]> o ∪ o = <[k := v]> o.
Proof. by rewrite <- insert_union_l, (idemp (∪) o). Qed.

Lemma updateJob_always_resolves job_id partial (w : world Cluster) :
  ∃ r w', updateJob job_id partial w = (Resolved r, w').
Proof.
  unfold updateJob, catch, bind, in_callback, getJob, catch, bind,
    storage.get, elasticsearch_store.get, storage.update, reject, resolve,
    logger_log, throw.
  repeat case_match; simplify_eq; eauto.
Qed.

(** C9.  Evaluation of [updateJob] on a stored job: inside the callback the
    name [job] is the record just fetched, so what is written back and
    answered is the stored job with a new [_updated]; the partial of the
    caller does not reach the store. *)
Theorem updateJob_writes_back_stored_job job_id partial stored (w : world Cluster) :
  online (job_backend w) = true →
  jobs_index w !! job_id = Some stored →
  updateJob (Some job_id) partial w
  = (Resolved (Some (<["_updated" := VDate (clock w)]> stored)),
     set_jobs_index
       (<[job_id := <["_updated" := VDate (clock w)]> stored]> (jobs_index w))
       (set_clock (S (clock w)) w)).
Proof.
  intros Hon Hget. unfold updateJob, catch, bind at 1, getJob, catch, bind at 1.
  rewrite (storage_get_resolved job_store job_id stored) by done.
  cbn [resolve]. unfold bind, in_callback.
  rewrite (storage_update_resolved job_store job_id _ stored) by done.
  by rewrite insert_union_self.
Qed.

(** ** Submission *)

Lemma created_record_id s id t record :
  str_field (id_field s) (created_record s id t record) = Some id.
Proof. unfold str_field, created_record. destruct s; by simplify_map_eq. Qed.

Lemma created_record_context s id t record :
  created_record s id t record !! "_context" = Some (VStr (jobType s)).
Proof. unfold created_record. by simplify_map_eq. Qed.

Lemma created_record_job_id id t record :
  created_record ex_store id t record !! "job_id" = record !! "job_id".
Proof. unfold created_record. by simplify_map_eq. Qed.

Lemma with_status_status status t record :
  with_status status t record !! "_status" = Some (VStr status).
Proof.
  unfold with_status. erewrite lookup_union_Some_l; [done|]. by simplify_map_eq.
Qed.

Lemma with_status_other status t record k :
  k ≠ "_status" → k ≠ "_updated" →
  with_status status t record !! k = record !! k.
Proof.
  intros H1 H2. unfold with_status. rewrite lookup_union_r; [done|].
  by simplify_map_eq.
Qed.

Lemma storage_create_resolved s record (w : world Cluster) :
  online (backend_of s w) = true →
  let id := uuid (uuids_used w) in
  let record' := created_record s id (clock w) record in
  storage.create s record w
  = (Resolved record',
     set_jobs_index (<[id := record']> (jobs_index w))
       (set_uuids_used (S (uuids_used w)) (set_clock (S (clock w)) w))).
Proof.
  intros Hon id record'.
  unfold storage.create, bind, new_Date, storage.uuid_v4, elasticsearch_store.create.
  cbn [uuids_used set_clock clock].
  assert (online (backend_of s (set_uuids_used (S (uuids_used w))
                                  (set_clock (S (clock w)) w))) = true) as ->
    by (by destruct s).
  cbv zeta. pose proof (created_record_id s id (clock w) record) as Hid.
  subst record' id. unfold created_record in *. by rewrite Hid.
Qed.

Lemma checkModerator_untracked job (w : world Cluster) :
  truthy (job !! "moderator") = false →
  checkModerator job w = (Resolved ModeratorTrue, w).
Proof. intros Hm. unfold checkModerator. by rewrite Hm. Qed.

Lemma checkModerator_tracked job (w : world Cluster) :
  truthy (job !! "moderator") = true →
  let connectionList := connectionDefaults (toPairs (job !! "moderator")) in
  let answer := cluster_service.checkModerator connectionList (cluster w) in
  checkModerator job w
  = match answer.1 with
    | inr entries =>
        (Resolved (ModeratorEntries entries),
         set_cluster answer.2 [CallCheckModerator connectionList] w)
    | inl e =>
        (Rejected (parseError e),
         set_logger (logger w ++ [("error", "could not check moderator")])
           (set_cluster answer.2 [CallCheckModerator connectionList] w))
    end.
Proof.
  intros Hm. unfold checkModerator. rewrite Hm. cbn [negb]. cbv zeta.
  unfold catch, bind, cluster_checkModerator.
  by destruct (cluster_service.checkModerator _ _) as [[e|entries] c].
Qed.

(** What [createExecutionContext] does when the store is reachable and the
    moderator, if asked, answers. *)
Lemma createExecutionContext_resolved job (w : world Cluster) :
  online (ex_backend w) = true →
  moderator_answers job (cluster w) →
  let ex_id := uuid (uuids_used w) in
  let ex := created_record ex_store ex_id (clock w) job in
  ∃ w',
    createExecutionContext job w = (Resolved (set_field "job_id" (job !! "job_id") ∅), w')
    ∧ jobs_index w' = <[ex_id := with_status "pending" (S (clock w)) ex]> (jobs_index w)
    ∧ pendingExecutionQueue w'
      = (if gate_passes job (cluster w) then pendingExecutionQueue w ++ [ex]
         else pendingExecutionQueue w)
    ∧ moderatorPausedQueue w'
      = (if gate_passes job (cluster w) then moderatorPausedQueue w
         else moderatorPausedQueue w ++ [ex])
    ∧ (truthy (job !! "moderator") = false → cluster_side w' = cluster_side w).
Proof.
  intros Hon Hanswers ex_id ex.
  assert (ex !! "job_id" = job !! "job_id") as Hjob by apply created_record_job_id.
  unfold createExecutionContext, catch at 1, bind at 1, saveJob.
  rewrite bool_decide_eq_false_2 by done.
  rewrite storage_create_resolved by done. fold ex_id ex.
  unfold bind at 1, Promise_all2.
  rewrite (_setStatus_resolved ex ex_id "pending" ex);
    [|apply (created_record_id ex_store)|unfold VALID_STATUS; set_solver|done
     |cbn [jobs_index set_jobs_index]; by rewrite lookup_insert_eq].
  cbn [jobs_index set_jobs_index clock set_uuids_used set_clock].
  rewrite insert_insert_eq.
  unfold gate_passes.
  destruct (truthy (job !! "moderator")) eqn:Hm.
  - rewrite checkModerator_tracked by done.
    cbn [cluster set_jobs_index set_clock set_uuids_used negb orb].
    destruct (Hanswers Hm) as [entries Hentries]. rewrite Hentries.
    cbn [fst snd every_canRun].
    rewrite Hjob.
    destruct (forallb _ entries); cbn [bind logger_log resolve]; eexists;
      (split; [reflexivity|]); by repeat split.
  - rewrite checkModerator_untracked by done.
    cbn [fst snd every_canRun negb orb bind logger_log resolve].
    rewrite Hjob.
    eexists; (split; [reflexivity|]); by repeat split.
Qed.

Lemma set_field_other k v (o : obj) k' :
  k ≠ k' → set_field k v o !! k' = o !! k'.
Proof. intros Hk. unfold set_field. destruct v; by simplify_map_eq. Qed.

Lemma ensureAssets_world job_spec (w : world Cluster) :
  (ensureAssets job_spec w).2 = w.
Proof. unfold ensureAssets. by repeat case_match. Qed.

Lemma moderator_answers_field job job' (c : Cluster) :
  job' !! "moderator" = job !! "moderator" →
  moderator_answers job c → moderator_answers job' c.
Proof. unfold moderator_answers. by intros ->. Qed.

Lemma gate_passes_field job job' (c : Cluster) :
  job' !! "moderator" = job !! "moderator" →
  gate_passes job' c = gate_passes job c.
Proof. unfold gate_passes. by intros ->. Qed.

(** C6.  When the store is reachable and the moderator, if it is asked,
    answers, [createExecutionContext] puts the new execution at the tail of
    the pending queue exactly when the gate passes, that is when the job
    tracks no connections or every entry of the answer can run, and at the
    tail of the queue of held executions otherwise; a job that tracks no
    connections is admitted without a call on the cluster service. *)
Theorem createExecutionContext_admission job (w : world Cluster) :
  online (ex_backend w) = true →
  moderator_answers job (cluster w) →
  ∃ ex,
    str_field "ex_id" ex = Some (uuid (uuids_used w))
    ∧ let w' := (createExecutionContext job w).2 in
      (gate_passes job (cluster w) = true ↔
       pendingExecutionQueue w' = pendingExecutionQueue w ++ [ex]
       ∧ moderatorPausedQueue w' = moderatorPausedQueue w)
      ∧ (gate_passes job (cluster w) = false ↔
         pendingExecutionQueue w' = pendingExecutionQueue w
         ∧ moderatorPausedQueue w' = moderatorPausedQueue w ++ [ex])
      ∧ (truthy (job !! "moderator") = false →
         gate_passes job (cluster w) = true ∧ cluster_calls w' = cluster_calls w).
Proof.
  intros Hon Hanswers.
  destruct (createExecutionContext_resolved job w Hon Hanswers)
    as (w' & -> & _ & Hpending & Hheld & Hcalls).
  eexists. split; [apply (created_record_id ex_store)|].
  cbn [snd]. rewrite Hpending, Hheld.
  assert (∀ (q : list obj) x, q ≠ q ++ [x]) as Hneq.
  { intros q x Hq. apply (f_equal length) in Hq. rewrite length_app in Hq.
    simpl in Hq. lia. }
  split; [|split].
  - destruct (gate_passes job (cluster w)); [done|].
    split; [done|]. intros [Hq _]. by apply Hneq in Hq.
  - destruct (gate_passes job (cluster w)); [|done].
    split; [done|]. intros [_ Hq]. by apply Hneq in Hq.
  - intros Hm. split.
    + unfold gate_passes. by rewrite Hm.
    + specialize (Hcalls Hm). unfold cluster_side in Hcalls. congruence.
Qed.

(** C1.  For a job spec whose assets resolve and which the validator
    accepts, with both stores reachable, the moderator answering and
    [uuid.v4()] handing out two new identifiers, [submitJob(spec, true)]
    adds exactly two documents to the store: one job, and one execution of
    that job whose [_status] is pending.  The execution is appended to exactly
    one of the two queues, the other queue is as it was, and the call
    resolves with the [job_id] alone. *)
Theorem submitJob_persists_job_and_execution job_spec parsedAssetJob validJob
    (w : world Cluster) :
  (ensureAssets job_spec w).1 = Resolved parsedAssetJob →
  job_validator_validate parsedAssetJob = Some validJob →
  online (job_backend w) = true →
  online (ex_backend w) = true →
  moderator_answers validJob (cluster w) →
  let job_id := uuid (uuids_used w) in
  let ex_id := uuid (S (uuids_used w)) in
  jobs_index w !! job_id = None →
  jobs_index w !! ex_id = None →
  job_id ≠ ex_id →
  ∃ job ex queued w',
    submitJob job_spec true w = (Resolved {["job_id" := VStr job_id]}, w')
    ∧ jobs_index w' = <[ex_id := ex]> (<[job_id := job]> (jobs_index w))
    ∧ size (jobs_index w') = S (S (size (jobs_index w)))
    ∧ job !! "_context" = Some (VStr "job")
    ∧ job !! "job_id" = Some (VStr job_id)
    ∧ ex !! "_context" = Some (VStr "ex")
    ∧ ex !! "ex_id" = Some (VStr ex_id)
    ∧ ex !! "job_id" = Some (VStr job_id)
    ∧ ex !! "_status" = Some (VStr "pending")
    ∧ queued !! "ex_id" = Some (VStr ex_id)
    ∧ (pendingExecutionQueue w' = pendingExecutionQueue w ++ [queued]
       ∧ moderatorPausedQueue w' = moderatorPausedQueue w
       ∨ pendingExecutionQueue w' = pendingExecutionQueue w
         ∧ moderatorPausedQueue w' = moderatorPausedQueue w ++ [queued]).
Proof.
  intros Hassets Hvalid Hjob_on Hex_on Hanswers job_id ex_id Hfresh_job Hfresh_ex Hne.
  pose proof (ensureAssets_world job_spec w) as Hworld.
  destruct (ensureAssets job_spec w) as [r w0] eqn:Hensure.
  simpl in Hassets, Hworld. subst r w0.
  unfold submitJob, catch at 1, bind at 1. rewrite Hensure.
  unfold bind at 1, _validateJob. rewrite Hvalid. cbn [resolve]. cbv zeta.
  unfold bind at 1, saveJob. rewrite bool_decide_eq_true_2 by done.
  rewrite storage_create_resolved by done. cbn [negb]. fold job_id.
  set (stored := created_record job_store job_id (clock w)
                   (set_field "assets" (job_spec !! "assets") validJob)).
  set (job := set_field "assets" (validJob !! "assets") stored).
  set (w1 := set_jobs_index _ _).
  assert (job !! "moderator" = validJob !! "moderator") as Hmod.
  { unfold job, stored, created_record.
    rewrite set_field_other by done. simplify_map_eq.
    by rewrite set_field_other. }
  assert (job !! "job_id" = Some (VStr job_id)) as Hjid.
  { unfold job, stored, created_record.
    rewrite set_field_other by done. by simplify_map_eq. }
  destruct (createExecutionContext_resolved job w1) as (w' & -> & Hidx & Hp & Hh & _).
  { done. }
  { by apply (moderator_answers_field validJob). }
  cbn [uuids_used set_jobs_index set_uuids_used set_clock clock w1 jobs_index
       pendingExecutionQueue moderatorPausedQueue cluster] in Hidx, Hp, Hh.
  fold ex_id in Hidx, Hp, Hh.
  set (queued := created_record ex_store ex_id (S (clock w)) job) in *.
  exists stored, (with_status "pending" (S (S (clock w))) queued), queued, w'.
  rewrite Hjid. split; [done|]. split; [done|]. split.
  { rewrite Hidx. rewrite !map_size_insert_None; [done|done|].
    by rewrite lookup_insert_ne. }
  split; [apply created_record_context|].
  split; [unfold stored, created_record; by simplify_map_eq|].
  split; [rewrite with_status_other by done; apply created_record_context|].
  split; [rewrite with_status_other by done;
          unfold queued, created_record; by simplify_map_eq|].
  split; [rewrite with_status_other by done;
          unfold queued; by rewrite created_record_job_id|].
  split; [apply with_status_status|].
  split; [unfold queued, created_record; by simplify_map_eq|].
  rewrite Hp, Hh. destruct (gate_passes job (cluster w)); auto.
Qed.

(** ** The allocator *)

Lemma frames_queues_of_control {A} (m : promise A) :
  frames control m → frames queues m.
Proof.
  intros Hm w. specialize (Hm w). unfold control, queues in *. congruence.
Qed.

Hint Resolve frames_queues_of_control : frames.

Lemma allocation_queues executionContext :
  frames (Cluster:=Cluster) queues (allocation executionContext).
Proof. unfold allocation. frames_tac; frames_leaf. Qed.

(** A run of the allocator ends within as many calls as the queue is long,
    plus the one that finds it empty. *)
Lemma allocator_total fuel (w : world Cluster) :
  length (pendingExecutionQueue w) < fuel → is_Some (allocator fuel w).
Proof.
  revert w. induction fuel as [|fuel IH]; intros w Hlen; [lia|].
  simpl. destruct (_ && _); [|by eexists].
  cbn [pendingExecutionQueue set_isJobBeingAllocated].
  destruct (pendingExecutionQueue w) as [|ex rest] eqn:Hq; [by eexists|].
  cbn [Queue.dequeue].
  pose proof (allocation_queues ex
                (set_pendingExecutionQueue rest (set_isJobBeingAllocated true w))) as Hfr.
  destruct (allocation ex _) as [r w']. simpl in Hfr.
  destruct r as [[]| |]; try by eexists.
  apply IH. unfold queues in Hfr. simpl in *.
  assert (pendingExecutionQueue w' = rest) as -> by congruence. lia.
Qed.

Lemma allocateJobs_total (w : world Cluster) : is_Some (allocateJobs w).
Proof. apply allocator_total. unfold Queue.size. lia. Qed.

Lemma status_in_with_status (docs : gmap string obj) id status t record :
  status_in (<[id := with_status status t record]> docs) id = Some status.
Proof.
  unfold status_in, str_field. rewrite lookup_insert_eq. simpl.
  by rewrite with_status_status.
Qed.

Lemma allocation_slicer_fails ex id record e c (w : world Cluster) :
  str_field "ex_id" ex = Some id →
  online (ex_backend w) = true →
  jobs_index w !! id = Some record →
  cluster_service.allocateSlicer ex (ex !! "_recover_execution") (cluster w) = (inl e, c) →
  ∃ w',
    allocation ex w = (Resolved true, w')
    ∧ status_in (jobs_index w') id = Some "failed"
    ∧ isJobBeingAllocated w' = false
    ∧ queues w' = queues w.
Proof.
  intros Hid Hon Hget Hslicer. unfold allocation. cbv zeta.
  unfold bind at 1. cbn [logger_log]. unfold bind at 1.
  rewrite (_setStatus_resolved ex id "scheduling" record);
    [|done|unfold VALID_STATUS; set_solver|done|done].
  unfold catch at 1, bind at 1, cluster_allocateSlicer.
  cbn [cluster set_jobs_index set_clock set_logger]. rewrite Hslicer.
  cbn [settle]. unfold bind at 1. cbn [logger_log]. unfold bind at 1, bind at 1, detached.
  rewrite (_setStatus_resolved ex id "failed" (with_status "scheduling" (clock w) record));
    [|done|unfold VALID_STATUS; set_solver|done
     |cbn [jobs_index set_isJobBeingAllocated set_logger set_cluster set_jobs_index];
      by rewrite lookup_insert_eq].
  cbn [resolve]. eexists. split; [reflexivity|].
  cbn [jobs_index set_jobs_index]. by rewrite status_in_with_status.
Qed.

Lemma allocation_workers_fail ex id record c1 e c2 (w : world Cluster) :
  str_field "ex_id" ex = Some id →
  online (ex_backend w) = true →
  jobs_index w !! id = Some record →
  cluster_service.allocateSlicer ex (ex !! "_recover_execution") (cluster w) = (inr tt, c1) →
  cluster_service.allocateWorkers ex (ex !! "workers") c1 = (inl e, c2) →
  ∃ w',
    allocation ex w = (Resolved true, w')
    ∧ status_in (jobs_index w') id = Some "initializing"
    ∧ isJobBeingAllocated w' = false
    ∧ queues w' = queues w.
Proof.
  intros Hid Hon Hget Hslicer Hworkers. unfold allocation. cbv zeta.
  unfold bind at 1. cbn [logger_log]. unfold bind at 1.
  rewrite (_setStatus_resolved ex id "scheduling" record);
    [|done|unfold VALID_STATUS; set_solver|done|done].
  unfold catch at 1, bind at 1, cluster_allocateSlicer.
  cbn [cluster set_jobs_index set_clock set_logger]. rewrite Hslicer.
  cbn [settle]. unfold bind at 1.
  rewrite (_setStatus_resolved ex id "initializing"
             (with_status "scheduling" (clock w) record));
    [|done|unfold VALID_STATUS; set_solver|done
     |cbn [jobs_index set_cluster set_jobs_index]; by rewrite lookup_insert_eq].
  unfold catch at 1, bind at 1, cluster_allocateWorkers.
  cbn [cluster set_jobs_index set_clock set_logger set_cluster]. rewrite Hworkers.
  cbn [settle bind logger_log]. eexists. split; [reflexivity|].
  cbn [jobs_index set_jobs_index set_isJobBeingAllocated set_logger set_cluster].
  by rewrite status_in_with_status.
Qed.

Lemma allocator_enters ex rest fuel (w : world Cluster) :
  isJobBeingAllocated w = false →
  pendingExecutionQueue w = ex :: rest →
  (2 ≤ cluster_service.availableWorkers (cluster w))%Z →
  allocator (S fuel) w
  = match allocation ex (set_pendingExecutionQueue rest
                           (set_isJobBeingAllocated true w)) with
    | (Resolved true, w') => allocator fuel w'
    | (_, w') => Some w'
    end.
Proof.
  intros Hbusy Hq Hworkers. cbn [allocator]. rewrite Hbusy, Hq.
  unfold Queue.size. cbn [negb length andb].
  rewrite !bool_decide_eq_true_2 by (done || lia).
  cbn [pendingExecutionQueue set_isJobBeingAllocated]. by rewrite Hq.
Qed.

(** C2.  When the allocator takes an execution off the pending queue and
    the allocation of its slicer fails, the execution ends with status
    failed; when the slicer is allocated and the allocation of its workers
    fails, the execution is left with status initializing.  Either way the
    flag is cleared and the allocator is entered again on the rest of the
    queue, a run that ends. *)
Theorem allocator_recovers_from_allocation_failure ex rest id record fuel
    (w : world Cluster) :
  isJobBeingAllocated w = false →
  pendingExecutionQueue w = ex :: rest →
  (2 ≤ cluster_service.availableWorkers (cluster w))%Z →
  str_field "ex_id" ex = Some id →
  online (ex_backend w) = true →
  jobs_index w !! id = Some record →
  (∀ e c,
     cluster_service.allocateSlicer ex (ex !! "_recover_execution") (cluster w)
     = (inl e, c) →
     ∃ w', allocator (S fuel) w = allocator fuel w'
           ∧ status_in (jobs_index w') id = Some "failed"
           ∧ isJobBeingAllocated w' = false
           ∧ pendingExecutionQueue w' = rest
           ∧ (length rest < fuel → is_Some (allocator fuel w')))
  ∧ (∀ c1 e c2,
       cluster_service.allocateSlicer ex (ex !! "_recover_execution") (cluster w)
       = (inr tt, c1) →
       cluster_service.allocateWorkers ex (ex !! "workers") c1 = (inl e, c2) →
       ∃ w', allocator (S fuel) w = allocator fuel w'
             ∧ status_in (jobs_index w') id = Some "initializing"
             ∧ isJobBeingAllocated w' = false
             ∧ pendingExecutionQueue w' = rest
             ∧ (length rest < fuel → is_Some (allocator fuel w'))).
Proof.
  intros Hbusy Hq Hworkers Hid Hon Hget.
  rewrite (allocator_enters ex rest) by done.
  split.
  - intros e c Hslicer.
    destruct (allocation_slicer_fails ex id record e c
                (set_pendingExecutionQueue rest (set_isJobBeingAllocated true w)))
      as (w' & -> & Hst & Hflag & Hqueues); [done..|].
    exists w'. unfold queues in Hqueues. simpl in Hqueues.
    assert (pendingExecutionQueue w' = rest) as Hrest by congruence.
    repeat split; [done..|]. intros Hlen. apply allocator_total. by rewrite Hrest.
  - intros c1 e c2 Hslicer Hfail.
    destruct (allocation_workers_fail ex id record c1 e c2
                (set_pendingExecutionQueue rest (set_isJobBeingAllocated true w)))
      as (w' & -> & Hst & Hflag & Hqueues); [done..|].
    exists w'. unfold queues in Hqueues. simpl in Hqueues.
    assert (pendingExecutionQueue w' = rest) as Hrest by congruence.
    repeat split; [done..|]. intros Hlen. apply allocator_total. by rewrite Hrest.
Qed.

(** ** Release of held executions *)

Lemma resume_sidelined_step I job (w : world Cluster) :
  moderator_answers_within I → I (cluster w) →
  let w' := (resume_sidelined job w).2 in
  moderatorPausedQueue w'
  = Queue.remove (job !! "ex_id") "ex_id" (moderatorPausedQueue w)
  ∧ pendingExecutionQueue w' = job :: pendingExecutionQueue w
  ∧ I (cluster w').
Proof.
  intros Hanswers HI. unfold resume_sidelined, catch, bind.
  destruct (truthy (job !! "moderator")) eqn:Hm.
  - rewrite checkModerator_tracked by done.
    destruct (Hanswers (connectionDefaults (toPairs (job !! "moderator"))) (cluster w) HI)
      as (entries & c' & -> & HI').
    done.
  - by rewrite checkModerator_untracked.
Qed.

Lemma resume_sidelined_all I jobs (w : world Cluster) :
  moderator_answers_within I → I (cluster w) →
  let w' := (Promise_map jobs resume_sidelined w).2 in
  moderatorPausedQueue w'
  = foldl (fun q job => Queue.remove (job !! "ex_id") "ex_id" q)
          (moderatorPausedQueue w) jobs
  ∧ pendingExecutionQueue w' = rev jobs ++ pendingExecutionQueue w.
Proof.
  intros Hanswers. revert w.
  induction jobs as [|job jobs IH]; intros w HI; [done|].
  unfold Promise_map in *. simpl.
  destruct (resume_sidelined_step I job w Hanswers HI) as (Hheld & Hpending & HI').
  destruct (resume_sidelined job w) as [r w1]. simpl in Hheld, Hpending, HI'.
  destruct (IH w1 HI') as [Hheld' Hpending'].
  destruct (Promise_all (map resume_sidelined jobs) w1) as [rs w2].
  assert (∀ (o : outcome unit) (os : outcome (list unit)),
            (match o, os with
             | Resolved a, Resolved l => (Resolved (a :: l), w2)
             | Thrown e, _ | Rejected e, _ => (Rejected e, w2)
             | _, Thrown e | _, Rejected e => (Rejected e, w2)
             end).2 = w2) as -> by (by intros [] []).
  simpl in *. rewrite Hheld', Hpending', Hheld, Hpending.
  split; [done|]. by rewrite <- app_assoc.
Qed.

Lemma remove_all_held (held jobs : list obj) :
  (∀ job, job ∈ held → job ∈ jobs) →
  foldl (fun q job => Queue.remove (job !! "ex_id") "ex_id" q) held jobs = [].
Proof.
  revert held. induction jobs as [|job jobs IH]; intros held Hsub; simpl.
  - destruct held as [|x held]; [done|]. specialize (Hsub x).
    rewrite elem_of_nil in Hsub. destruct Hsub. left.
  - apply IH. intros x. unfold Queue.remove. rewrite list_elem_of_filter.
    intros [Hne Hx]. apply Hsub in Hx. apply elem_of_cons in Hx as [->|Hx]; done.
Qed.

Lemma resume_rest_queues (q : query) :
  frames (Cluster:=Cluster) queues
    (catch
       (await results <- findJobs q in
        await _ <- Promise_map results
                     (fun job => in_callback (notify (str_field "ex_id" job) "resume")) in
        if bool_decide (0 < length results)%nat
        then logger_log "warn" "The following jobs have been resumed by the moderator"
        else resolve tt)
       (fun err =>
          let errMsg := parseError err in
          logger_log "error" "could not resume job for moderator")).
Proof. unfold findJobs. frames_tac; frames_leaf. Qed.

(** C7.  Evaluation of the handler of [moderate_jobs:resume]: the handler
    tests the answer of [checkModerator] itself, an array, which is truthy
    whatever its entries say.  So whenever the moderator answers, every held
    execution leaves the queue of held executions and is inserted at the
    front of the pending queue, also those for which an entry reports that
    they cannot run. *)
Theorem moderate_jobs_resume_promotes_every_held I connectionList (w : world Cluster) :
  moderator_answers_within I → I (cluster w) →
  let w' := (on_moderate_jobs_resume connectionList w).2 in
  moderatorPausedQueue w' = []
  ∧ pendingExecutionQueue w' = rev (moderatorPausedQueue w) ++ pendingExecutionQueue w.
Proof.
  intros Hanswers HI.
  cut (∃ r w',
         on_moderate_jobs_resume connectionList w = (r, w')
         ∧ moderatorPausedQueue w' = []
         ∧ pendingExecutionQueue w'
           = rev (moderatorPausedQueue w) ++ pendingExecutionQueue w).
  { by intros (r & w' & -> & ?). }
  unfold on_moderate_jobs_resume. cbv zeta.
  unfold bind at 1. cbn [logger_log]. unfold bind at 1.
  set (w0 := set_logger _ w).
  match goal with
  | |- context [catch ?m ?h] => pose proof (resume_rest_queues _ : frames queues (catch m h)) as Hrest
  end.
  assert (∃ w1,
    (if bool_decide (0 < Queue.size (moderatorPausedQueue w0))%nat
     then detached (Promise_map (moderatorPausedQueue w0) resume_sidelined) w0
     else (Resolved tt, w0)) = (Resolved tt, w1)
    ∧ moderatorPausedQueue w1 = []
    ∧ pendingExecutionQueue w1 = rev (moderatorPausedQueue w) ++ pendingExecutionQueue w)
    as (w1 & -> & Hheld & Hpending).
  { case_bool_decide as Hsize.
    - destruct (resume_sidelined_all I (moderatorPausedQueue w0) w0 Hanswers HI)
        as [H1 H2].
      unfold detached. destruct (Promise_map _ _ w0) as [r w1]. simpl in H1, H2.
      exists w1. split; [done|]. split; [|done].
      rewrite H1. by apply remove_all_held.
    - exists w0. split; [done|]. unfold Queue.size in Hsize.
      destruct (moderatorPausedQueue w0) eqn:Hq; [|simpl in Hsize; lia].
      change (moderatorPausedQueue w) with (moderatorPausedQueue w0). by rewrite Hq. }
  specialize (Hrest w1). unfold queues in Hrest.
  destruct (catch _ _ w1) as [r w2]. simpl in *.
  exists r, w2. split; [done|]. split; congruence.
Qed.

(** ** Shutdown *)

Lemma notifyNodes_acknowledged I nodes message ex_id (c : Cluster) :
  nodes_acknowledge_within I → I c →
  first_rejection (notifyNodes nodes message ex_id c).1 = None
  ∧ I (notifyNodes nodes message ex_id c).2.
Proof.
  intros Hack. revert c. induction nodes as [|node_id nodes IH]; intros c HI; [done|].
  simpl. destruct (Hack node_id message ex_id c HI) as (c1 & -> & HI1).
  destruct (IH c1 HI1) as [H1 H2].
  by destruct (notifyNodes nodes message ex_id c1) as [rs c2].
Qed.

Lemma str_field_with_status k status t record :
  k ≠ "_status" → k ≠ "_updated" →
  str_field k (with_status status t record) = str_field k record.
Proof. intros H1 H2. unfold str_field. by rewrite with_status_other. Qed.

Lemma mark_terminated_step I job id record (w : world Cluster) :
  nodes_acknowledge_within I → I (cluster w) →
  online (ex_backend w) = true →
  str_field "ex_id" job = Some id →
  jobs_index w !! id = Some record →
  str_field "ex_id" record = Some id →
  ∃ w',
    mark_terminated job w = (Resolved (Some "terminated"), w')
    ∧ jobs_index w' = <[id := with_status "terminated" (clock w) record]> (jobs_index w)
    ∧ control w' = control w
    ∧ I (cluster w')
    ∧ cluster_calls w'
      = cluster_calls w
        ++ map (fun node_id => CallNotifyNode node_id "cluster:job:stop" (Some id))
               (cluster_service.findNodesForJob (Some id) false (cluster w)).
Proof.
  intros Hack HI Hon Hjob Hget Hid. unfold mark_terminated, bind at 1.
  cbn [logger_log]. rewrite Hjob. unfold in_callback.
  set (w0 := set_logger _ w).
  destruct (notifyNodes_acknowledged I
              (nodes_for (Some id) "stop" (cluster w0)) "cluster:job:stop" (Some id)
              (cluster w0) Hack HI) as [Hok HI'].
  destruct (_signalJobStateChange_resolved id "stop" "terminated" "cluster:job:stop"
              record w0) as (w' & -> & Hidx & Hcontrol & Hcalls & Hcluster);
    [by vm_compute|done|done|done|done|unfold VALID_STATUS; set_solver|].
  exists w'. rewrite Hcluster. by repeat split.
Qed.

Lemma mark_terminated_all I jobs (w : world Cluster) :
  nodes_acknowledge_within I → I (cluster w) →
  online (ex_backend w) = true →
  Forall (fun job => ∃ id record,
            str_field "ex_id" job = Some id
            ∧ jobs_index w !! id = Some record
            ∧ str_field "ex_id" record = Some id) jobs →
  ∃ rs w',
    Promise_map jobs mark_terminated w = (Resolved rs, w')
    ∧ control w' = control w
    ∧ (∀ id, Some id ∈ map (str_field "ex_id") jobs →
             status_in (jobs_index w') id = Some "terminated"
             ∧ ∃ c : Cluster, ∀ node_id,
                 node_id ∈ cluster_service.findNodesForJob (Some id) false c →
                 CallNotifyNode node_id "cluster:job:stop" (Some id) ∈ cluster_calls w')
    ∧ (∀ id, Some id ∉ map (str_field "ex_id") jobs →
             jobs_index w' !! id = jobs_index w !! id)
    ∧ (∀ call, call ∈ cluster_calls w → call ∈ cluster_calls w').
Proof.
  intros Hack. revert w.
  induction jobs as [|job jobs IH]; intros w HI Hon Hjobs.
  { exists [], w. split; [done|]. split; [done|]. split; [|done].
    intros id Hin. by apply elem_of_nil in Hin. }
  apply Forall_cons in Hjobs as [(id & record & Hjob & Hget & Hid) Hjobs].
  destruct (mark_terminated_step I job id record w Hack HI Hon Hjob Hget Hid)
    as (w1 & Hstep & Hidx & Hcontrol & HI1 & Hcalls).
  assert (online (ex_backend w1) = true) as Hon1.
  { unfold control in Hcontrol. congruence. }
  destruct (IH w1 HI1 Hon1) as (rs & w2 & Hrest & Hcontrol2 & Hin & Hout & Hmono).
  { eapply Forall_impl; [exact Hjobs|]. cbn beta.
    intros job' (id' & record' & Hjob' & Hget' & Hid'). rewrite Hidx.
    destruct (decide (id = id')) as [<-|Hne].
    - exists id, (with_status "terminated" (clock w) record).
      rewrite lookup_insert_eq, str_field_with_status by done.
      split; [done|]. split; [done|]. congruence.
    - exists id', record'. by rewrite lookup_insert_ne. }
  exists (Some "terminated" :: rs), w2.
  split.
  { unfold Promise_map in *. cbn [map Promise_all]. by rewrite Hstep, Hrest. }
  split; [congruence|].
  split; [|split].
  - intros id0 Hid0. cbn [map] in Hid0.
    destruct (decide (Some id0 ∈ map (str_field "ex_id") jobs)) as [Hrec|Hnot];
      [by apply Hin|].
    apply elem_of_cons in Hid0 as [Heq|?]; [|done].
    assert (id0 = id) as -> by congruence. split.
    + unfold status_in. rewrite (Hout id Hnot), Hidx, lookup_insert_eq. simpl.
      unfold str_field. by rewrite with_status_status.
    + exists (cluster w). intros node_id Hnode. apply Hmono. rewrite Hcalls.
      apply elem_of_app. right. apply list_elem_of_fmap. by exists node_id.
  - intros id0 Hid0. cbn [map] in Hid0. apply not_elem_of_cons in Hid0 as [Hne Hnot].
    rewrite (Hout id0 Hnot), Hidx, lookup_insert_ne; [done|]. congruence.
  - intros call Hcall. apply Hmono. rewrite Hcalls. apply elem_of_app. by left.
Qed.

Lemma ex_search_resolved q (w : world Cluster) :
  online (ex_backend w) = true →
  ex_search q w
  = (Resolved (take 10000 (filter (fun o => matches q o = true)
                                  ((map_to_list (jobs_index w)).*2))), w).
Proof.
  intros Hon. unfold ex_search, catch, storage.search, elasticsearch_store.search.
  cbn [backend_of]. rewrite Hon.
  cbn [elasticsearch_store.sorted default drop]. reflexivity.
Qed.

Lemma shutdown_closes (w : world Cluster) :
  closed (job_backend (shutdown w).2) = true
  ∧ closed (ex_backend (shutdown w).2) = true.
Proof.
  destruct (shutdown w) as [r w'] eqn:Heq. cbn [snd].
  unfold shutdown, bind at 1 in Heq. cbn [logger_log] in Heq. unfold finally in Heq.
  destruct (bind _ _ _) as [r1 w1] in Heq.
  unfold Promise_all2, storage.shutdown, bind, logger_log,
    elasticsearch_store.shutdown in Heq.
  simpl in Heq. by simplify_eq.
Qed.

Lemma status_field (o : obj) s :
  str_field "_status" o = Some s → o !! "_status" = Some (VStr s).
Proof. unfold str_field. repeat case_match; congruence. Qed.

(** C8.  [shutdown] always ends with both stores closed, whatever the
    executions it handles do.  When the execution store is reachable, the
    nodes acknowledge and no more than the 10000 executions that one search
    returns are active, every execution that was active has been sent
    [cluster:job:stop] on its nodes and has status terminated, every other
    document is as it was, and so no execution is left with an active
    status. *)
Theorem shutdown_terminates_active_executions I (w : world Cluster) :
  let w' := (shutdown w).2 in
  (closed (job_backend w') = true ∧ closed (ex_backend w') = true)
  ∧ (online (ex_backend w) = true →
     executions_filed (jobs_index w) →
     nodes_acknowledge_within I → I (cluster w) →
     (length (active_executions w) ≤ 10000)%nat →
     (∀ id record,
        jobs_index w !! id = Some record →
        if matches shutdown_query record
        then status_in (jobs_index w') id = Some "terminated"
             ∧ ∃ c : Cluster, ∀ node_id,
                 node_id ∈ cluster_service.findNodesForJob (Some id) false c →
                 CallNotifyNode node_id "cluster:job:stop" (Some id) ∈ cluster_calls w'
        else jobs_index w' !! id = Some record)
     ∧ (∀ id record s,
          jobs_index w' !! id = Some record →
          str_field "_status" record = Some s → isActive s = false)).
Proof.
  cbv zeta. split; [apply shutdown_closes|].
  intros Hon Hfiled Hack HI Hlen.
  destruct (shutdown w) as [r w'] eqn:Heq. cbn [snd].
  assert (∀ id record,
            jobs_index w !! id = Some record → matches shutdown_query record = true →
            str_field "ex_id" record = Some id) as Hactive_id.
  { intros id record Hget Hm. apply (Hfiled id record Hget).
    apply matches_shutdown_query in Hm as (s & Hs & _).
    apply status_field in Hs. by eexists. }
  assert (∀ id record,
            jobs_index w !! id = Some record →
            (matches shutdown_query record = true ↔
             Some id ∈ map (str_field "ex_id") (active_executions w))) as Hids.
  { intros id record Hget. unfold active_executions. split.
    - intros Hm. apply list_elem_of_fmap. exists record. split; [by rewrite (Hactive_id id record)|].
      apply list_elem_of_filter. split; [done|].
      apply list_elem_of_fmap. exists (id, record). split; [done|].
      by apply elem_of_map_to_list.
    - intros Hin. apply list_elem_of_fmap in Hin as (record' & Hid' & Hin).
      apply list_elem_of_filter in Hin as [Hm Hin].
      apply list_elem_of_fmap in Hin as ([id' r'] & -> & Hin).
      apply elem_of_map_to_list in Hin. simpl in *.
      rewrite (Hactive_id id' r' Hin Hm) in Hid'. by simplify_eq. }
  unfold shutdown, bind at 1 in Heq. cbn [logger_log] in Heq.
  unfold finally, bind at 1 in Heq.
  set (w0 := set_logger _ w) in Heq.
  rewrite (ex_search_resolved shutdown_query w0) in Heq by done.
  change (filter _ _) with (active_executions w) in Heq.
  rewrite take_ge in Heq by done.
  destruct (mark_terminated_all I (active_executions w) w0 Hack HI Hon)
    as (rs & w1 & Hmap & Hcontrol & Hin & Hout & _).
  { unfold active_executions. apply Forall_forall. intros job Hjob.
    apply list_elem_of_filter in Hjob as [Hm Hjob].
    apply list_elem_of_fmap in Hjob as ([id record] & -> & Hjob).
    apply elem_of_map_to_list in Hjob. simpl in *.
    exists id, record. split; [by apply Hactive_id|]. split; [done|].
    by apply Hactive_id. }
  pose proof (frames_Promise_all2 jobs_index _ _
                (storage_shutdown_index job_store) (storage_shutdown_index ex_store) w1)
    as Hidx.
  pose proof (frames_Promise_all2 cluster_side _ _
                (storage_shutdown_cluster job_store) (storage_shutdown_cluster ex_store) w1)
    as Hcl.
  rewrite Hmap in Heq.
  destruct (Promise_all2 _ _ w1) as [r2 w2].
  assert (w' = w2) as -> by (destruct r2; by simplify_eq).
  simpl in Hidx, Hcl. unfold cluster_side in Hcl.
  assert (cluster_calls w2 = cluster_calls w1) as Hcalls by congruence.
  rewrite Hidx.
  split.
  - intros id record Hget. destruct (matches shutdown_query record) eqn:Hm.
    + destruct (Hin id) as [Hst [c Hc]]; [by apply (Hids id record)|].
      split; [done|]. exists c. intros node_id Hnode. rewrite Hcalls. by apply Hc.
    + rewrite Hout; [done|]. rewrite <- (Hids id record) by done. congruence.
  - intros id record s Hget Hs.
    destruct (decide (Some id ∈ map (str_field "ex_id") (active_executions w)))
      as [Hact|Hnot].
    + destruct (Hin id Hact) as [Hst _]. unfold status_in in Hst.
      rewrite Hget in Hst. simpl in Hst. assert (s = "terminated") as -> by congruence.
      done.
    + rewrite (Hout id Hnot) in Hget. change (jobs_index w0) with (jobs_index w) in Hget.
      rewrite <- (Hids id record Hget) in Hnot.
      apply not_true_is_false. intros Hact. apply Hnot.
      apply matches_shutdown_query. eauto.
Qed.

(** * Further properties *)

(** ** The storage adapter *)

(** [create] files the record under a new id and stamps it: what [get]
    then answers is the record with its id field, [_context], [_created] and
    [_updated] set by the adapter, whatever the caller had put there, and
    every other field as the caller gave it. *)
Theorem storage_create_then_get s record (w : world Cluster) :
  online (backend_of s w) = true →
  ∃ record' w',
    storage.create s record w = (Resolved record', w')
    ∧ storage.get s (str_field (id_field s) record') w' = (Resolved record', w')
    ∧ record' !! id_field s = Some (VStr (uuid (uuids_used w)))
    ∧ record' !! "_context" = Some (VStr (jobType s))
    ∧ record' !! "_created" = Some (VDate (clock w))
    ∧ record' !! "_updated" = Some (VDate (clock w))
    ∧ (∀ k, k ∉ [id_field s; "_context"; "_created"; "_updated"] →
            record' !! k = record !! k)
    ∧ (∀ id, id ≠ uuid (uuids_used w) → jobs_index w' !! id = jobs_index w !! id).
Proof.
  intros Hon. rewrite storage_create_resolved by done. cbv zeta.
  eexists _, _. split; [reflexivity|].
  rewrite created_record_id.
  split.
  { apply storage_get_resolved.
    - by destruct s.
    - cbn [jobs_index set_jobs_index]. apply lookup_insert_eq. }
  unfold created_record.
  split; [destruct s; by simplify_map_eq|].
  split; [by simplify_map_eq|]. split; [by simplify_map_eq|].
  split; [by simplify_map_eq|]. split.
  - intros k Hk. rewrite !not_elem_of_cons in Hk. destruct Hk as (?&?&?&?&_).
    by rewrite !lookup_insert_ne.
  - intros id Hid. cbn [jobs_index set_jobs_index set_uuids_used set_clock].
    by rewrite lookup_insert_ne.
Qed.

(** ** Status writes *)

Lemma _setStatus_resolved_with job_spec id status metaData record (w : world Cluster) :
  str_field "ex_id" job_spec = Some id → status ∈ VALID_STATUS →
  online (ex_backend w) = true → jobs_index w !! id = Some record →
  _setStatus job_spec (Some status) metaData w
  = (Resolved job_spec,
     set_jobs_index
       (<[id := updated_record (statusObj_of status metaData) (clock w) record]>
          (jobs_index w))
       (set_clock (S (clock w)) w)).
Proof.
  intros Hid Hst Hon Hget. unfold _setStatus, valid_status.
  rewrite bool_decide_eq_true_2 by done.
  unfold catch at 1, bind at 1. rewrite Hid.
  rewrite (getExecutionContext_resolved id record) by done.
  unfold catch, bind, in_callback.
  assert (∀ u, (match metaData with
                | Some metaData0 => metaData0 ∪ u
                | None => u
                end) = match metaData with
                       | Some m => m ∪ u
                       | None => u
                       end) as _ by done.
  cbv zeta. cbn [set_field fmap option_fmap option_map].
  fold (statusObj_of status metaData).
  by rewrite (storage_update_resolved ex_store id _ record).
Qed.

Lemma statusObj_status status metaData :
  metaData ≫= (.!! "_status") = None →
  statusObj_of status metaData !! "_status" = Some (VStr status).
Proof.
  intros Hm. unfold statusObj_of. destruct metaData as [m|]; simpl in *.
  - rewrite lookup_union_r by done. by simplify_map_eq.
  - by simplify_map_eq.
Qed.

Lemma updated_record_lookup update_spec t record k :
  k ≠ "_updated" →
  updated_record update_spec t record !! k
  = match update_spec !! k with
    | Some v => Some v
    | None => record !! k
    end.
Proof.
  intros Hk. unfold updated_record. rewrite lookup_union, lookup_insert_ne by done.
  destruct (update_spec !! k), (record !! k); done.
Qed.

Lemma updated_record_updated update_spec t record :
  updated_record update_spec t record !! "_updated" = Some (VDate t).
Proof.
  unfold updated_record. erewrite lookup_union_Some_l; [done|]. by simplify_map_eq.
Qed.

(** After a status write that resolves, reading the execution back yields
    the status written, the metadata written with it, the time of the write
    as [_updated], and every other field as it was; no other document is
    touched.  (Metadata that itself carries a [_status] would win over the
    status; the handlers build none that does.) *)
Theorem _setStatus_then_read job_spec id status metaData record (w : world Cluster) :
  str_field "ex_id" job_spec = Some id →
  status ∈ VALID_STATUS →
  online (ex_backend w) = true →
  jobs_index w !! id = Some record →
  metaData ≫= (.!! "_status") = None →
  ∃ record' w',
    _setStatus job_spec (Some status) metaData w = (Resolved job_spec, w')
    ∧ getExecutionContext (Some id) w' = (Resolved (Some record'), w')
    ∧ record' !! "_status" = Some (VStr status)
    ∧ record' !! "_updated" = Some (VDate (clock w))
    ∧ (∀ k v, k ≠ "_updated" → metaData ≫= (.!! k) = Some v → record' !! k = Some v)
    ∧ (∀ k, k ≠ "_updated" → k ≠ "_status" → metaData ≫= (.!! k) = None →
            record' !! k = record !! k)
    ∧ (∀ id', id' ≠ id → jobs_index w' !! id' = jobs_index w !! id').
Proof.
  intros Hid Hst Hon Hget Hmeta.
  rewrite (_setStatus_resolved_with job_spec id status metaData record) by done.
  eexists _, _. split; [reflexivity|]. split.
  { apply getExecutionContext_resolved; [done|].
    cbn [jobs_index set_jobs_index]. apply lookup_insert_eq. }
  split.
  { rewrite updated_record_lookup by done. by rewrite statusObj_status. }
  split; [apply updated_record_updated|]. split; [|split].
  - intros k v Hk Hv. rewrite updated_record_lookup by done.
    unfold statusObj_of. destruct metaData as [m|]; [|done]. simpl in Hv.
    by erewrite lookup_union_Some_l.
  - intros k Hk Hk' Hnone. rewrite updated_record_lookup by done.
    unfold statusObj_of. destruct metaData as [m|]; simpl in Hnone.
    + rewrite lookup_union_r by done. by rewrite lookup_insert_ne.
    + by rewrite lookup_insert_ne.
  - intros id' Hne. cbn [jobs_index set_jobs_index]. by rewrite lookup_insert_ne.
Qed.

Lemma updated_record_twice update_spec t1 t2 record :
  updated_record update_spec t2 (updated_record update_spec t1 record)
  = updated_record update_spec t2 record.
Proof.
  apply map_eq. intros k. destruct (decide (k = "_updated")) as [->|Hk].
  - by rewrite !updated_record_updated.
  - rewrite !updated_record_lookup by done. by destruct (update_spec !! k).
Qed.

(** Writing the same status twice in a row leaves the store as one write at
    the time of the second would: the second write only moves [_updated]. *)
Theorem _setStatus_twice job_spec id status metaData record (w : world Cluster) :
  str_field "ex_id" job_spec = Some id →
  status ∈ VALID_STATUS →
  online (ex_backend w) = true →
  jobs_index w !! id = Some record →
  jobs_index
    ((await _ <- _setStatus job_spec (Some status) metaData in
      _setStatus job_spec (Some status) metaData) w).2
  = <[id := updated_record (statusObj_of status metaData) (S (clock w)) record]>
      (jobs_index w).
Proof.
  intros Hid Hst Hon Hget. unfold bind.
  rewrite (_setStatus_resolved_with job_spec id status metaData record) by done.
  rewrite (_setStatus_resolved_with job_spec id status metaData
             (updated_record (statusObj_of status metaData) (clock w) record));
    [|done|done|done|cbn [jobs_index set_jobs_index]; apply lookup_insert_eq].
  cbn [snd jobs_index set_jobs_index clock set_clock].
  by rewrite insert_insert_eq, updated_record_twice.
Qed.

(** ** Stored statuses stay valid *)

Section keeps.
Context (P : gmap string obj → Prop).

Lemma keeps_of_frames {A} (m : promise A) :
  frames jobs_index m → keeps P m.
Proof. intros Hm w HP. by rewrite Hm. Qed.

Lemma keeps_bind {A B} (m : promise A) (f : A → promise B) :
  keeps P m → (∀ a, keeps P (f a)) → keeps P (bind m f).
Proof.
  intros Hm Hf w HP. unfold bind. specialize (Hm w HP).
  destruct (m w) as [[a|e|e] w']; simpl in *; [|done..].
  by apply Hf.
Qed.

Lemma keeps_catch {A} (m : promise A) (h : error → promise A) :
  keeps P m → (∀ e, keeps P (h e)) → keeps P (catch m h).
Proof.
  intros Hm Hh w HP. unfold catch. specialize (Hm w HP).
  destruct (m w) as [[a|e|e] w']; simpl in *; [done| |done].
  by apply Hh.
Qed.

Lemma keeps_finally {A B} (m : promise A) (f : promise B) :
  keeps P m → keeps P f → keeps P (finally m f).
Proof.
  intros Hm Hf w HP. unfold finally. specialize (Hm w HP).
  destruct (m w) as [r w']. specialize (Hf w' Hm).
  by destruct (f w') as [[b|e|e] w''].
Qed.

Lemma keeps_in_callback {A} (m : promise A) :
  keeps P m → keeps P (in_callback m).
Proof.
  intros Hm w HP. unfold in_callback. specialize (Hm w HP).
  by destruct (m w) as [[a|e|e] w'].
Qed.

Lemma keeps_detached {A} (m : promise A) :
  keeps P m → keeps P (detached m).
Proof.
  intros Hm w HP. unfold detached. specialize (Hm w HP). by destruct (m w).
Qed.

Lemma keeps_Promise_all2 {A B} (m1 : promise A) (m2 : promise B) :
  keeps P m1 → keeps P m2 → keeps P (Promise_all2 m1 m2).
Proof.
  intros H1 H2 w HP. unfold Promise_all2. specialize (H1 w HP).
  destruct (m1 w) as [r1 w1]. specialize (H2 w1 H1).
  destruct (m2 w1) as [r2 w2]. by destruct r1, r2.
Qed.

Lemma keeps_Promise_map {A B} (l : list A) (f : A → promise B) :
  (∀ a, keeps P (f a)) → keeps P (Promise_map l f).
Proof.
  intros Hf. unfold Promise_map.
  induction l as [|a l IH]; intros w HP; [done|]. simpl.
  specialize (Hf a w HP). destruct (f a w) as [r w1].
  specialize (IH w1 Hf). destruct (Promise_all (map f l) w1) as [rs w2].
  by destruct r, rs.
Qed.
End keeps.

Create HintDb keeps discriminated.

Ltac keeps_step :=
  lazymatch goal with
  | |- keeps _ (bind _ _) => apply keeps_bind; [|intros ?]
  | |- keeps _ (catch _ _) => apply keeps_catch; [|intros ?]
  | |- keeps _ (finally _ _) => apply keeps_finally
  | |- keeps _ (in_callback _) => apply keeps_in_callback
  | |- keeps _ (detached _) => apply keeps_detached
  | |- keeps _ (Promise_all2 _ _) => apply keeps_Promise_all2
  | |- keeps _ (Promise_map _ _) => apply keeps_Promise_map; intros ?
  | |- keeps _ (match ?x with _ => _ end) => destruct x
  | |- keeps _ (let _ := _ in _) => cbv zeta
  | |- keeps _ (_setStatus _ _ (Some _)) => fail "the metadata is left to the caller"
  | |- keeps _ _ =>
      first
        [ assumption
        | solve [eauto 2 with keeps]
        | solve [apply keeps_of_frames; eauto 3 with frames] ]
  end.

Lemma frames_index_resolve {A} (a : A) : frames (Cluster:=Cluster) jobs_index (resolve a).
Proof. by intros w. Qed.
Lemma frames_index_reject {A} e : frames jobs_index (@reject Cluster A e).
Proof. by intros w. Qed.
Lemma frames_index_throw {A} e : frames jobs_index (@throw Cluster A e).
Proof. by intros w. Qed.

Hint Resolve frames_index_resolve frames_index_reject frames_index_throw : frames.

Lemma storage_update_keeps s record_id update_spec :
  (∀ v, update_spec !! "_status" = Some v → ∃ st, v = VStr st ∧ st ∈ VALID_STATUS) →
  keeps (Cluster:=Cluster) statuses_valid (storage.update s record_id (Some update_spec)).
Proof.
  intros Hspec w Hvalid.
  unfold storage.update, bind, new_Date, elasticsearch_store.update.
  destruct (online _); [|done].
  destruct record_id as [id|]; [|done]. simpl.
  destruct (jobs_index w !! id) as [record|] eqn:Hget; [|done]. simpl.
  apply map_Forall_insert_2; [|done].
  intros v Hv. apply lookup_union_Some_raw in Hv as [Hv|[_ Hv]].
  - rewrite lookup_insert_ne in Hv by done. by apply Hspec.
  - by apply (Hvalid id record Hget).
Qed.

Lemma _setStatus_keeps job_spec status metaData :
  metaData ≫= (.!! "_status") = None →
  keeps statuses_valid (_setStatus job_spec status metaData).
Proof.
  intros Hmeta. unfold _setStatus.
  destruct (valid_status status) eqn:Hst; [|by keeps_step].
  destruct status as [st|]; [|done]. apply bool_decide_eq_true in Hst.
  repeat first [ apply storage_update_keeps | keeps_step ].
  intros v Hv. exists st. split; [|done].
  pose proof (statusObj_status st metaData Hmeta) as Hs.
  unfold statusObj_of in Hs. cbn [set_field fmap option_fmap option_map] in Hv.
  destruct metaData; congruence.
Qed.

Lemma _setStatus_keeps_plain job_spec status :
  keeps statuses_valid (_setStatus job_spec status None).
Proof. by apply _setStatus_keeps. Qed.

Hint Resolve _setStatus_keeps_plain : keeps.

Lemma _signalJobStateChange_keeps ex_id notice state :
  keeps statuses_valid (_signalJobStateChange ex_id notice state).
Proof. unfold _signalJobStateChange. repeat keeps_step. Qed.

Hint Resolve _signalJobStateChange_keeps : keeps.

Lemma notify_keeps ex_id command : keeps statuses_valid (notify ex_id command).
Proof. unfold notify. repeat keeps_step. Qed.

Hint Resolve notify_keeps : keeps.

Lemma failure_metaData_status data : failure_metaData data !! "_status" = None.
Proof.
  unfold failure_metaData. cbv zeta.
  destruct (truthy _); rewrite ?set_field_other by done;
    rewrite lookup_insert_ne by done; by rewrite set_field_other.
Qed.

Lemma allocation_keeps ex : keeps statuses_valid (allocation ex).
Proof.
  unfold allocation.
  repeat first [ keeps_step | apply keeps_of_frames; frames_leaf ].
Qed.

Lemma allocator_keeps fuel (w w' : world Cluster) :
  allocator fuel w = Some w' →
  statuses_valid (jobs_index w) → statuses_valid (jobs_index w').
Proof.
  revert w. induction fuel as [|fuel IH]; intros w Hrun Hvalid; [done|].
  simpl in Hrun. destruct (_ && _); [|by simplify_eq].
  cbn [pendingExecutionQueue set_isJobBeingAllocated] in Hrun.
  destruct (pendingExecutionQueue w) as [|ex rest]; [simpl in Hrun; by simplify_eq|].
  cbn [Queue.dequeue] in Hrun.
  pose proof (allocation_keeps ex
                (set_pendingExecutionQueue rest (set_isJobBeingAllocated true w)) Hvalid)
    as Hstep.
  destruct (allocation ex _) as [r w1]. simpl in Hstep.
  destruct r as [[]| |]; try by simplify_eq.
  by apply (IH w1).
Qed.

(** Whatever they are called with, the operations that move executions
    through their life cycle (notify, shutdown, the allocator, the handlers of
    the cluster, slicer and moderator events, restart) never leave a stored
    [_status] outside [VALID_STATUS], provided none was there before. *)
Theorem lifecycle_keeps_statuses_valid :
  (∀ ex_id command, keeps statuses_valid (notify ex_id command))
  ∧ keeps statuses_valid shutdown
  ∧ (∀ fuel w w', allocator fuel w = Some w' →
                  statuses_valid (jobs_index w) → statuses_valid (jobs_index w'))
  ∧ (∀ data, keeps statuses_valid (on_cluster_job_finished data))
  ∧ (∀ data, keeps statuses_valid (on_cluster_job_failure data))
  ∧ (∀ data, keeps statuses_valid (on_cluster_slicer_failure data))
  ∧ (∀ data, keeps statuses_valid (on_slicer_processing_error data))
  ∧ (∀ data, keeps statuses_valid (on_slicer_initialized data))
  ∧ (∀ connectionList, keeps statuses_valid (on_moderate_jobs_pause connectionList))
  ∧ (∀ connectionList, keeps statuses_valid (on_moderate_jobs_resume connectionList))
  ∧ (∀ data, keeps statuses_valid (on_cluster_service_cleanup_job data))
  ∧ (∀ ex_id, keeps statuses_valid (restartExecution ex_id)).
Proof.
  repeat split.
  - apply notify_keeps.
  - unfold shutdown, mark_terminated. repeat keeps_step.
  - apply allocator_keeps.
  - intros data. unfold on_cluster_job_finished. repeat keeps_step.
    apply _setStatus_keeps. simpl.
    destruct (truthy _); rewrite ?lookup_insert_ne by done; by rewrite set_field_other.
  - intros data. unfold on_cluster_job_failure. repeat keeps_step.
    apply _setStatus_keeps. apply failure_metaData_status.
  - intros data. unfold on_cluster_slicer_failure. repeat keeps_step.
    apply _setStatus_keeps. apply failure_metaData_status.
  - intros data. unfold on_slicer_processing_error. repeat keeps_step.
    by apply _setStatus_keeps.
  - intros data. unfold on_slicer_initialized. repeat keeps_step.
  - intros connectionList. unfold on_moderate_jobs_pause, findJobs.
    repeat keeps_step.
  - intros connectionList. unfold on_moderate_jobs_resume, findJobs, resume_sidelined.
    repeat first [ keeps_step | apply keeps_of_frames; frames_leaf ].
    intros w Hw. cbv beta. case_bool_decide; [|done].
    match goal with
    | |- statuses_valid (jobs_index (?m w).2) =>
        cut (keeps statuses_valid m); [intros Hk; by apply Hk|]
    end.
    repeat first [ keeps_step | apply keeps_of_frames; frames_leaf ].
  - intros data. unfold on_cluster_service_cleanup_job.
    repeat first [ keeps_step | apply keeps_of_frames; apply restartExecution_index ].
  - intros ex_id. apply keeps_of_frames, restartExecution_index.
Qed.

(** ** The allocator, further *)

Lemma allocation_succeeds ex id record c1 c2 (w : world Cluster) :
  str_field "ex_id" ex = Some id →
  online (ex_backend w) = true →
  jobs_index w !! id = Some record →
  cluster_service.allocateSlicer ex (ex !! "_recover_execution") (cluster w) = (inr tt, c1) →
  cluster_service.allocateWorkers ex (ex !! "workers") c1 = (inr tt, c2) →
  ∃ w',
    allocation ex w = (Resolved true, w')
    ∧ jobs_index w'
      = <[id := with_status "initializing" (S (clock w))
                  (with_status "scheduling" (clock w) record)]> (jobs_index w)
    ∧ isJobBeingAllocated w' = false
    ∧ queues w' = queues w
    ∧ ex_backend w' = ex_backend w
    ∧ cluster w' = c2
    ∧ cluster_calls w' = cluster_calls w ++ allocation_calls ex.
Proof.
  intros Hid Hon Hget Hslicer Hworkers. unfold allocation. cbv zeta.
  unfold bind at 1. cbn [logger_log]. unfold bind at 1.
  rewrite (_setStatus_resolved ex id "scheduling" record);
    [|done|unfold VALID_STATUS; set_solver|done|done].
  unfold catch at 1, bind at 1, cluster_allocateSlicer.
  cbn [cluster set_jobs_index set_clock set_logger]. rewrite Hslicer.
  cbn [settle]. unfold bind at 1.
  rewrite (_setStatus_resolved ex id "initializing"
             (with_status "scheduling" (clock w) record));
    [|done|unfold VALID_STATUS; set_solver|done
     |cbn [jobs_index set_cluster set_jobs_index]; by rewrite lookup_insert_eq].
  unfold catch at 1, bind at 1, cluster_allocateWorkers.
  cbn [cluster set_jobs_index set_clock set_logger set_cluster]. rewrite Hworkers.
  cbn [settle]. eexists. split; [reflexivity|].
  cbn [jobs_index set_jobs_index set_isJobBeingAllocated set_logger set_cluster
       set_clock clock isJobBeingAllocated ex_backend cluster cluster_calls].
  rewrite insert_insert_eq. unfold allocation_calls.
  repeat split. by rewrite <- app_assoc.
Qed.

Lemma allocator_drains_from I queue :
  allocations_succeed_within I →
  ∀ fuel (w : world Cluster),
    length queue < fuel →
    pendingExecutionQueue w = queue →
    isJobBeingAllocated w = false →
    online (ex_backend w) = true →
    I (cluster w) →
    Forall (stored_execution (jobs_index w)) queue →
    ∃ w',
      allocator fuel w = Some w'
      ∧ pendingExecutionQueue w' = []
      ∧ moderatorPausedQueue w' = moderatorPausedQueue w
      ∧ isJobBeingAllocated w' = false
      ∧ cluster_calls w' = cluster_calls w ++ flat_map allocation_calls queue
      ∧ (∀ id, Some id ∈ map (str_field "ex_id") queue →
               status_in (jobs_index w') id = Some "initializing")
      ∧ (∀ id, Some id ∉ map (str_field "ex_id") queue →
               jobs_index w' !! id = jobs_index w !! id).
Proof.
  intros Hplenty.
  induction queue as [|ex rest IH]; intros fuel w Hfuel Hq Hbusy Hon HI Hstored.
  { destruct fuel as [|fuel]; [simpl in Hfuel; lia|].
    exists w. cbn [allocator]. rewrite Hq. unfold Queue.size. cbn [length].
    rewrite (bool_decide_eq_false_2 (0 < 0)%nat) by lia.
    rewrite andb_false_r. cbn [andb]. rewrite app_nil_r.
    repeat split; try done. intros id Hin. by apply elem_of_nil in Hin. }
  destruct fuel as [|fuel]; [simpl in Hfuel; lia|].
  apply Forall_cons in Hstored as [(id & Hid & [record Hget]) Hstored].
  destruct (Hplenty (cluster w) HI) as [Hworkers Halloc].
  destruct (Halloc ex (ex !! "_recover_execution")) as (c1 & Hslicer & Hwork).
  destruct (Hwork (ex !! "workers")) as (c2 & Hwork2 & HI2).
  rewrite (allocator_enters ex rest) by done.
  destruct (allocation_succeeds ex id record c1 c2
              (set_pendingExecutionQueue rest (set_isJobBeingAllocated true w)))
    as (w1 & -> & Hidx & Hflag & Hqueues & Hback & Hcl & Hcalls); [done..|].
  unfold queues in Hqueues. simpl in Hqueues, Hidx, Hback, Hcalls.
  destruct (IH fuel w1) as (w2 & Hrun & Hempty & Hheld & Hflag2 & Hcalls2 & Hin & Hout).
  { simpl in Hfuel. lia. }
  { congruence. }
  { done. }
  { congruence. }
  { by rewrite Hcl. }
  { eapply Forall_impl; [exact Hstored|]. intros ex' (id' & Hid' & Hsome).
    exists id'. split; [done|]. rewrite Hidx.
    destruct (decide (id = id')) as [<-|Hne];
      [rewrite lookup_insert_eq; by eexists | by rewrite lookup_insert_ne]. }
  exists w2. split; [done|]. split; [done|]. split; [congruence|]. split; [done|].
  split; [|split].
  - rewrite Hcalls2, Hcalls. cbn [flat_map]. by rewrite <- app_assoc.
  - intros id0 Hid0. cbn [map] in Hid0.
    destruct (decide (Some id0 ∈ map (str_field "ex_id") rest)) as [Hrec|Hnot];
      [by apply Hin|].
    apply elem_of_cons in Hid0 as [Heq|?]; [|done].
    assert (id0 = id) as -> by congruence.
    unfold status_in. rewrite (Hout id Hnot), Hidx, lookup_insert_eq. simpl.
    unfold str_field. by rewrite with_status_status.
  - intros id0 Hid0. cbn [map] in Hid0. apply not_elem_of_cons in Hid0 as [Hne Hnot].
    rewrite (Hout id0 Hnot), Hidx, lookup_insert_ne; [done|]. congruence.
Qed.

(** With workers to spare and allocations that succeed, one tick of the
    allocator empties the pending queue: the executions are taken in the
    order of the queue, for each a slicer is allocated and then its workers,
    each is left with status initializing, and the flag is free again.  The
    queue of held executions and every other document are not touched. *)
Theorem allocateJobs_drains_in_order I (w : world Cluster) :
  allocations_succeed_within I →
  I (cluster w) →
  isJobBeingAllocated w = false →
  online (ex_backend w) = true →
  Forall (stored_execution (jobs_index w)) (pendingExecutionQueue w) →
  ∃ w',
    allocateJobs w = Some w'
    ∧ pendingExecutionQueue w' = []
    ∧ moderatorPausedQueue w' = moderatorPausedQueue w
    ∧ isJobBeingAllocated w' = false
    ∧ cluster_calls w'
      = cluster_calls w ++ flat_map allocation_calls (pendingExecutionQueue w)
    ∧ (∀ id, Some id ∈ map (str_field "ex_id") (pendingExecutionQueue w) →
             status_in (jobs_index w') id = Some "initializing")
    ∧ (∀ id, Some id ∉ map (str_field "ex_id") (pendingExecutionQueue w) →
             jobs_index w' !! id = jobs_index w !! id).
Proof.
  intros Hplenty HI Hbusy Hon Hstored. unfold allocateJobs.
  apply (allocator_drains_from I (pendingExecutionQueue w)); try done.
  unfold Queue.size. lia.
Qed.

Lemma _setStatus_unreachable job_spec status metaData (w : world Cluster) :
  online (ex_backend w) = false
  ∨ str_field "ex_id" job_spec ≫= (jobs_index w !!.) = None →
  ∃ e w',
    _setStatus job_spec status metaData w = (Rejected e, w')
    ∧ control w' = control w
    ∧ jobs_index w' = jobs_index w.
Proof.
  intros Hcause. unfold _setStatus.
  destruct (valid_status status); [|by eexists _, _].
  unfold catch, bind, getExecutionContext, catch, bind, in_callback, storage.get,
    storage.update, bind, new_Date, elasticsearch_store.get, elasticsearch_store.update.
  cbn [backend_of logger_log set_logger set_clock ex_backend jobs_index].
  destruct Hcause as [Hoff|Hmissing].
  - repeat (progress (cbn; rewrite ?Hoff)). by eexists _, _.
  - destruct (online (ex_backend w)) eqn:Hon;
      destruct (str_field "ex_id" job_spec) as [id|]; cbn in Hmissing;
      repeat (progress (cbn; rewrite ?Hon, ?Hmissing)); by eexists _, _.
Qed.

(** When the first status write of an allocation fails, because the store
    is unreachable or the execution is not in it, nothing handles the
    rejection: the execution has left the queue, the flag is still set, and
    from then on every call of the allocator returns at once, whatever is
    queued. *)
Theorem allocator_stalls_when_scheduling_fails ex rest fuel (w : world Cluster) :
  isJobBeingAllocated w = false →
  pendingExecutionQueue w = ex :: rest →
  (2 ≤ cluster_service.availableWorkers (cluster w))%Z →
  online (ex_backend w) = false
  ∨ str_field "ex_id" ex ≫= (jobs_index w !!.) = None →
  ∃ w',
    allocator (S fuel) w = Some w'
    ∧ isJobBeingAllocated w' = true
    ∧ pendingExecutionQueue w' = rest
    ∧ jobs_index w' = jobs_index w
    ∧ cluster_calls w' = cluster_calls w
    ∧ ∀ fuel' w'', isJobBeingAllocated w'' = true → allocator (S fuel') w'' = Some w''.
Proof.
  intros Hbusy Hq Hworkers Hcause.
  rewrite (allocator_enters ex rest) by done.
  unfold allocation. cbv zeta. unfold bind at 1. cbn [logger_log]. unfold bind at 1.
  set (w1 := set_logger _ _).
  destruct (_setStatus_unreachable ex (Some "scheduling") None w1 Hcause)
    as (e & w' & Hrej & Hcontrol & Hidx).
  pose proof (_setStatus_cluster ex (Some "scheduling") None w1) as Hcl.
  rewrite Hrej in Hcl |- *. exists w'.
  unfold control in Hcontrol. unfold cluster_side in Hcl. simpl in Hcontrol, Hcl, Hidx.
  split; [done|]. split; [congruence|]. split; [congruence|]. split; [done|].
  split; [congruence|].
  intros fuel' w'' Hset. cbn [allocator]. by rewrite Hset.
Qed.

(** ** Submission, further *)

(** [ensureAssets] only ever replaces the [assets] of a job spec.  A spec
    without assets comes back as it is, without a question to the asset
    service; otherwise the spec comes back with the identifiers that the
    service answered, as many as there were names, and is rejected when the
    service reports an error, answers nothing or answers another number of
    assets. *)
Theorem ensureAssets_replaces_assets_only job_spec (w : world Cluster) :
  (ensureAssets job_spec w).2 = w
  ∧ (truthy (job_spec !! "assets") = false →
     (ensureAssets job_spec w).1 = Resolved job_spec)
  ∧ (∀ parsedAssetJob,
       (ensureAssets job_spec w).1 = Resolved parsedAssetJob →
       (∀ k, k ≠ "assets" → parsedAssetJob !! k = job_spec !! k)
       ∧ (truthy (job_spec !! "assets") = true →
          ∃ assets,
            msg_error (verify_assets (job_spec !! "assets")) = None
            ∧ msg_assets (verify_assets (job_spec !! "assets")) = Some assets
            ∧ parsedAssetJob !! "assets" = Some (VStrs assets)
            ∧ js_length (job_spec !! "assets") = Some (length assets))).
Proof.
  split; [apply ensureAssets_world|]. unfold ensureAssets.
  destruct (truthy (job_spec !! "assets")) eqn:Hassets; cbn [negb].
  - split; [done|]. intros parsed Hres. cbv zeta in Hres.
    destruct (msg_error _) as [e|] eqn:Herr; [done|].
    destruct (msg_assets _) as [assets|] eqn:Hmsg; [|done].
    case_bool_decide as Hlen; [done|]. simpl in Hres. simplify_eq.
    split.
    + intros k Hk. by rewrite lookup_insert_ne.
    + intros _. exists assets. rewrite lookup_insert_eq.
      repeat split; done.
  - split; [done|]. intros parsed Hres. simpl in Hres. simplify_eq. by split.
Qed.

(** When the assets do not resolve or the validator refuses the spec,
    [submitJob] rejects and has done nothing but log: no document is stored,
    nothing is queued and the cluster service is not called. *)
Theorem submitJob_rejects_before_persisting job_spec shouldRun e (w : world Cluster) :
  (ensureAssets job_spec w).1 = Rejected e
  ∨ (∃ parsedAssetJob,
       (ensureAssets job_spec w).1 = Resolved parsedAssetJob
       ∧ job_validator_validate parsedAssetJob = None
       ∧ e = ValidationError) →
  submitJob job_spec shouldRun w
  = (Rejected (parseError e),
     set_logger (logger w ++ [("error", "could not submit job")]) w).
Proof.
  intros Hfail.
  pose proof (ensureAssets_world job_spec w) as Hworld.
  destruct (ensureAssets job_spec w) as [r w0] eqn:Hensure.
  simpl in Hfail, Hworld. subst w0.
  unfold submitJob, catch at 1, bind at 1. rewrite Hensure.
  destruct Hfail as [->|(parsed & -> & Hvalid & ->)]; [done|].
  unfold bind at 1, _validateJob. by rewrite Hvalid.
Qed.

(** [submitJob(spec, false)] stores the job and nothing else: the index
    gains the one job document, filed under the new [job_id] and carrying the
    asset names of the caller, not the resolved identifiers; no execution is
    created, nothing is queued and the cluster service is not called. *)
Theorem submitJob_without_run job_spec parsedAssetJob validJob (w : world Cluster) :
  (ensureAssets job_spec w).1 = Resolved parsedAssetJob →
  job_validator_validate parsedAssetJob = Some validJob →
  online (job_backend w) = true →
  let job_id := uuid (uuids_used w) in
  ∃ job w',
    submitJob job_spec false w = (Resolved {["job_id" := VStr job_id]}, w')
    ∧ jobs_index w' = <[job_id := job]> (jobs_index w)
    ∧ job !! "_context" = Some (VStr "job")
    ∧ job !! "assets" = job_spec !! "assets"
    ∧ (∀ k, k ∉ ["job_id"; "_context"; "_created"; "_updated"; "assets"] →
            job !! k = validJob !! k)
    ∧ queues w' = queues w
    ∧ cluster_side w' = cluster_side w.
Proof.
  intros Hassets Hvalid Hon job_id.
  pose proof (ensureAssets_world job_spec w) as Hworld.
  destruct (ensureAssets job_spec w) as [r w0] eqn:Hensure.
  simpl in Hassets, Hworld. subst r w0.
  unfold submitJob, catch at 1, bind at 1. rewrite Hensure.
  unfold bind at 1, _validateJob. rewrite Hvalid. cbn [resolve]. cbv zeta.
  unfold bind at 1, saveJob. rewrite bool_decide_eq_true_2 by done.
  rewrite storage_create_resolved by done. cbn [negb resolve]. fold job_id.
  set (job := created_record job_store job_id (clock w)
                (set_field "assets" (job_spec !! "assets") validJob)).
  assert (job !! "job_id" = Some (VStr job_id)) as ->
    by (unfold job, created_record; by simplify_map_eq).
  exists job. eexists. split; [reflexivity|]. split; [done|].
  split; [apply created_record_context|]. split; [|split; [|done]].
  - unfold job, created_record. rewrite !lookup_insert_ne by done.
    unfold set_field. destruct (job_spec !! "assets"); by simplify_map_eq.
  - intros k Hk. rewrite !not_elem_of_cons in Hk. destruct Hk as (?&?&?&?&?&_).
    unfold job, created_record. rewrite !lookup_insert_ne by done.
    by rewrite set_field_other.
Qed.

(** On a submission that runs, the job document keeps the asset names of
    the caller while the execution document carries the assets of the
    validated spec, that is the identifiers the asset service resolved. *)
Theorem submitJob_asset_names job_spec parsedAssetJob validJob (w : world Cluster) :
  (ensureAssets job_spec w).1 = Resolved parsedAssetJob →
  job_validator_validate parsedAssetJob = Some validJob →
  online (job_backend w) = true →
  online (ex_backend w) = true →
  moderator_answers validJob (cluster w) →
  let job_id := uuid (uuids_used w) in
  let ex_id := uuid (S (uuids_used w)) in
  job_id ≠ ex_id →
  let w' := (submitJob job_spec true w).2 in
  jobs_index w' !! job_id ≫= (.!! "assets") = job_spec !! "assets"
  ∧ jobs_index w' !! ex_id ≫= (.!! "assets") = validJob !! "assets".
Proof.
  intros Hassets Hvalid Hjob_on Hex_on Hanswers job_id ex_id Hne.
  pose proof (ensureAssets_world job_spec w) as Hworld.
  destruct (ensureAssets job_spec w) as [r w0] eqn:Hensure.
  simpl in Hassets, Hworld. subst r w0.
  cut (∃ r w',
         submitJob job_spec true w = (r, w')
         ∧ jobs_index w' !! job_id ≫= (.!! "assets") = job_spec !! "assets"
         ∧ jobs_index w' !! ex_id ≫= (.!! "assets") = validJob !! "assets").
  { by intros (r & w' & -> & ?). }
  unfold submitJob, catch at 1, bind at 1. rewrite Hensure.
  unfold bind at 1, _validateJob. rewrite Hvalid. cbn [resolve]. cbv zeta.
  unfold bind at 1, saveJob. rewrite bool_decide_eq_true_2 by done.
  rewrite storage_create_resolved by done. cbn [negb]. fold job_id.
  set (stored := created_record job_store job_id (clock w)
                   (set_field "assets" (job_spec !! "assets") validJob)).
  set (job := set_field "assets" (validJob !! "assets") stored).
  set (w1 := set_jobs_index _ _).
  assert (job !! "moderator" = validJob !! "moderator") as Hmod.
  { unfold job, stored, created_record.
    rewrite set_field_other by done. simplify_map_eq.
    by rewrite set_field_other. }
  destruct (createExecutionContext_resolved job w1) as (w' & -> & Hidx & _).
  { done. }
  { by apply (moderator_answers_field validJob). }
  cbn [uuids_used set_jobs_index set_uuids_used set_clock clock w1 jobs_index] in Hidx.
  fold ex_id in Hidx. eexists _, w'. split; [reflexivity|]. rewrite Hidx.
  split.
  - rewrite lookup_insert_ne, lookup_insert_eq by done. simpl.
    unfold stored, created_record. rewrite !lookup_insert_ne by done.
    unfold set_field. destruct (job_spec !! "assets"); by simplify_map_eq.
  - rewrite lookup_insert_eq. simpl. rewrite with_status_other by done.
    unfold created_record. rewrite !lookup_insert_ne by done.
    unfold job, set_field. destruct (validJob !! "assets"); by simplify_map_eq.
Qed.

(** ** The moderator gate, further *)

Lemma connectionDefaults_elasticsearch array t names :
  (t, names) ∈ connectionDefaults array → t = "elasticsearch" →
  esConnectionState ∈ names.
Proof.
  unfold connectionDefaults. cbv zeta. intros Hin ->.
  assert (("elasticsearch", names)
          ∈ map (fun conn : string * list string =>
                   if bool_decide (conn.1 = "elasticsearch") then
                     match find (fun c => bool_decide (c = esConnectionState)) conn.2 with
                     | Some stateConn =>
                         if String.eqb stateConn ""
                         then (conn.1, conn.2 ++ [esConnectionState])
                         else conn
                     | None => (conn.1, conn.2 ++ [esConnectionState])
                     end
                   else conn) array
          ∨ names = [esConnectionState]) as [Hmap| ->].
  { destruct (existsb _ array); [by left|].
    apply elem_of_app in Hin as [?|Hin]; [by left|].
    apply list_elem_of_singleton in Hin. right. congruence. }
  - apply list_elem_of_fmap in Hmap as ([t0 names0] & Heq & _). simpl in Heq.
    case_bool_decide as Ht; [|congruence].
    destruct (find _ names0) as [stateConn|] eqn:Hfind.
    + apply find_some in Hfind as [Hin' Hstate].
      apply bool_decide_eq_true in Hstate. subst stateConn.
      destruct (String.eqb esConnectionState ""); simplify_eq.
      * apply elem_of_app. right. apply list_elem_of_singleton. done.
      * by apply list_elem_of_In.
    + simplify_eq. apply elem_of_app. right. by apply list_elem_of_singleton.
  - by apply list_elem_of_singleton.
Qed.

(** The connection list that reaches the moderator always names the state
    connection under [elasticsearch]: [connectionDefaults] yields a list with
    an [elasticsearch] entry, every such entry lists the state connection,
    and every connection that the job declared is still listed under its
    type. *)
Theorem connectionDefaults_adds_state_connection array :
  (∃ names, ("elasticsearch", names) ∈ connectionDefaults array)
  ∧ (∀ names, ("elasticsearch", names) ∈ connectionDefaults array →
              esConnectionState ∈ names)
  ∧ (∀ t names, (t, names) ∈ array →
       ∃ names', (t, names') ∈ connectionDefaults array ∧ names ⊆ names').
Proof.
  split; [|split].
  - unfold connectionDefaults. cbv zeta.
    destruct (existsb _ array) eqn:Hfound.
    + apply existsb_exists in Hfound as ([t names] & Hin & Ht).
      apply bool_decide_eq_true in Ht. simpl in Ht. subst t.
      apply list_elem_of_In in Hin.
      destruct (find (fun c => bool_decide (c = esConnectionState)) names)
        as [stateConn|] eqn:Hfind;
        [destruct (String.eqb stateConn "") eqn:Hempty|];
        eexists; apply list_elem_of_fmap; exists ("elasticsearch", names);
        (split; [|done]); cbn [fst snd]; rewrite bool_decide_eq_true_2 by done;
        rewrite Hfind, ?Hempty; reflexivity.
    + exists [esConnectionState]. apply elem_of_app. right.
      by apply list_elem_of_singleton.
  - intros names Hin. by apply (connectionDefaults_elasticsearch array "elasticsearch").
  - intros t names Hin.
    assert (∃ names',
              (t, names')
              ∈ map (fun conn : string * list string =>
                       if bool_decide (conn.1 = "elasticsearch") then
                         match find (fun c => bool_decide (c = esConnectionState)) conn.2 with
                         | Some stateConn =>
                             if String.eqb stateConn ""
                             then (conn.1, conn.2 ++ [esConnectionState])
                             else conn
                         | None => (conn.1, conn.2 ++ [esConnectionState])
                         end
                       else conn) array
              ∧ names ⊆ names') as (names' & Hin' & Hsub).
    { destruct (decide (t = "elasticsearch")) as [->|Hne].
      - destruct (find (fun c => bool_decide (c = esConnectionState)) names)
          as [stateConn|] eqn:Hfind.
        + destruct (String.eqb stateConn "") eqn:Hempty.
          * exists (names ++ [esConnectionState]). split.
            -- apply list_elem_of_fmap. exists ("elasticsearch", names).
               split; [|done]. cbn [fst snd]. rewrite bool_decide_eq_true_2 by done.
               by rewrite Hfind, Hempty.
            -- intros x Hx. apply elem_of_app. by left.
          * exists names. split; [|done].
            apply list_elem_of_fmap. exists ("elasticsearch", names).
            split; [|done]. cbn [fst snd]. rewrite bool_decide_eq_true_2 by done.
            by rewrite Hfind, Hempty.
        + exists (names ++ [esConnectionState]). split.
          * apply list_elem_of_fmap. exists ("elasticsearch", names).
            split; [|done]. cbn [fst snd]. rewrite bool_decide_eq_true_2 by done.
            by rewrite Hfind.
          * intros x Hx. apply elem_of_app. by left.
      - exists names. split; [|done].
        apply list_elem_of_fmap. exists (t, names). split; [|done]. cbn [fst snd].
        by rewrite bool_decide_eq_false_2. }
    exists names'. split; [|done]. unfold connectionDefaults. cbv zeta.
    destruct (existsb _ array); [done|]. apply elem_of_app. by left.
Qed.

(** When the moderator cannot be asked, [createExecutionContext] rejects
    and queues nothing; but the two promises of [Promise.all] were both
    started, so the execution has been stored with status pending all the
    same. *)
Theorem createExecutionContext_moderator_fails job e c (w : world Cluster) :
  online (ex_backend w) = true →
  truthy (job !! "moderator") = true →
  cluster_service.checkModerator
    (connectionDefaults (toPairs (job !! "moderator"))) (cluster w) = (inl e, c) →
  let ex_id := uuid (uuids_used w) in
  ∃ w',
    createExecutionContext job w = (Rejected (parseError (parseError e)), w')
    ∧ queues w' = queues w
    ∧ status_in (jobs_index w') ex_id = Some "pending"
    ∧ (∀ id, id ≠ ex_id → jobs_index w' !! id = jobs_index w !! id).
Proof.
  intros Hon Hm Hcheck ex_id.
  unfold createExecutionContext, catch at 1, bind at 1, saveJob.
  rewrite bool_decide_eq_false_2 by done.
  rewrite storage_create_resolved by done. fold ex_id.
  set (ex := created_record ex_store ex_id (clock w) job).
  unfold bind at 1, Promise_all2.
  rewrite (_setStatus_resolved ex ex_id "pending" ex);
    [|apply (created_record_id ex_store)|unfold VALID_STATUS; set_solver|done
     |cbn [jobs_index set_jobs_index]; by rewrite lookup_insert_eq].
  cbn [jobs_index set_jobs_index clock set_uuids_used set_clock].
  rewrite insert_insert_eq.
  rewrite checkModerator_tracked by done.
  cbn [cluster set_jobs_index set_clock set_uuids_used]. rewrite Hcheck.
  cbn [fst snd bind logger_log reject]. eexists. split; [reflexivity|].
  cbn [jobs_index set_jobs_index set_logger set_cluster].
  split; [done|]. split; [apply status_in_with_status|].
  intros id Hid. by rewrite lookup_insert_ne.
Qed.

(** ** Restart and recovery *)

Lemma getExecutionContext_unreadable ex_id (w : world Cluster) :
  online (ex_backend w) = false ∨ ex_id ≫= (jobs_index w !!.) = None →
  getExecutionContext ex_id w
  = (Resolved None,
     set_logger (logger w ++ [("error", "error getting execution context for ex")]) w).
Proof.
  intros Hcause.
  unfold getExecutionContext, catch, bind, storage.get, elasticsearch_store.get.
  cbn [backend_of]. destruct Hcause as [->| Hmissing]; [done|].
  destruct (online (ex_backend w)); [|done]. by rewrite Hmissing.
Qed.

(** An execution that cannot be read, because it is not stored or the
    store is unreachable, is not restarted: the call logs and resolves, and
    the queue and the store are as they were. *)
Theorem restartExecution_unreadable ex_id (w : world Cluster) :
  online (ex_backend w) = false ∨ ex_id ≫= (jobs_index w !!.) = None →
  ∃ w',
    restartExecution ex_id w = (Resolved tt, w')
    ∧ queues w' = queues w
    ∧ jobs_index w' = jobs_index w.
Proof.
  intros Hcause. unfold restartExecution, catch, bind.
  rewrite getExecutionContext_unreadable by done.
  cbn [reject logger_log]. by eexists.
Qed.

(** A restart hands the allocator a copy of the stored execution marked for
    recovery, at the tail of the queue, and writes nothing; when the
    allocator then takes it, the slicer is allocated with the recovery flag
    set and the execution goes to initializing. *)
Theorem restartExecution_then_allocator_recovers I ex_id record (w : world Cluster) :
  allocations_succeed_within I →
  I (cluster w) →
  isJobBeingAllocated w = false →
  pendingExecutionQueue w = [] →
  online (ex_backend w) = true →
  jobs_index w !! ex_id = Some record →
  str_field "ex_id" record = Some ex_id →
  record !! "_status" ≠ Some (VStr "completed") →
  record !! "_status" ≠ Some (VStr "scheduling") →
  let restarted := (restartExecution (Some ex_id) w).2 in
  pendingExecutionQueue restarted = [<["_recover_execution" := VBool true]> record]
  ∧ jobs_index restarted = jobs_index w
  ∧ ∃ w',
      allocateJobs restarted = Some w'
      ∧ pendingExecutionQueue w' = []
      ∧ status_in (jobs_index w') ex_id = Some "initializing"
      ∧ cluster_calls w'
        = cluster_calls w
          ++ [CallAllocateSlicer (Some ex_id) (Some (VBool true));
              CallAllocateWorkers (Some ex_id) (record !! "workers")].
Proof.
  intros Hplenty HI Hbusy Hq Hon Hget Hid Hc Hs.
  cbv zeta. rewrite (restartExecution_enqueues ex_id record) by done. cbn [snd].
  rewrite Hq. cbn [app pendingExecutionQueue set_pendingExecutionQueue jobs_index].
  split; [done|]. split; [done|].
  set (ex := <["_recover_execution" := VBool true]> record).
  assert (str_field "ex_id" ex = Some ex_id) as Hex.
  { unfold ex, str_field in *. by rewrite lookup_insert_ne. }
  destruct (allocateJobs_drains_in_order I (set_pendingExecutionQueue [ex] w))
    as (w' & Hrun & Hempty & _ & _ & Hcalls & Hin & _); [done..| |].
  { apply Forall_singleton. exists ex_id. split; [done|]. by eexists. }
  exists w'. split; [done|]. split; [done|]. split.
  - apply Hin. cbn [pendingExecutionQueue set_pendingExecutionQueue map].
    rewrite Hex. left.
  - rewrite Hcalls.
    cbn [pendingExecutionQueue set_pendingExecutionQueue flat_map cluster_calls].
    unfold allocation_calls. rewrite Hex, app_nil_r. unfold ex.
    by rewrite lookup_insert_eq, lookup_insert_ne.
Qed.


(** ** Updates of an execution *)

(** [updateEX] merges the partial of the caller into the stored execution:
    what is read back afterwards has the fields of the partial, the time of
    the update as [_updated] whatever the partial said, and every other field
    of the stored record.  When the execution cannot be updated the call logs,
    resolves with nothing and leaves the store as it was. *)
Theorem updateEX_merges ex_id updateConfig (w : world Cluster) :
  (∀ record,
     online (ex_backend w) = true → jobs_index w !! ex_id = Some record →
     ∃ updated record' w',
       updateEX (Some ex_id) (Some updateConfig) w = (Resolved updated, w')
       ∧ getExecutionContext (Some ex_id) w' = (Resolved (Some record'), w')
       ∧ record' !! "_updated" = Some (VDate (clock w))
       ∧ (∀ k, k ≠ "_updated" →
               record' !! k = match updateConfig !! k with
                              | Some v => Some v
                              | None => record !! k
                              end)
       ∧ (∀ id, id ≠ ex_id → jobs_index w' !! id = jobs_index w !! id))
  ∧ (online (ex_backend w) = false ∨ jobs_index w !! ex_id = None →
     ∃ w',
       updateEX (Some ex_id) (Some updateConfig) w = (Resolved None, w')
       ∧ jobs_index w' = jobs_index w).
Proof.
  split.
  - intros record Hon Hget. unfold updateEX, catch, bind.
    rewrite (storage_update_resolved ex_store ex_id _ record) by done.
    fold (updated_record updateConfig (clock w) record).
    eexists _, _, _. split; [reflexivity|]. split.
    { apply getExecutionContext_resolved; [done|].
      cbn [jobs_index set_jobs_index]. apply lookup_insert_eq. }
    split; [apply updated_record_updated|]. split.
    + intros k Hk. by apply updated_record_lookup.
    + intros id Hid. cbn [jobs_index set_jobs_index]. by rewrite lookup_insert_ne.
  - intros Hcause.
    unfold updateEX, catch, bind, storage.update, bind, new_Date,
      elasticsearch_store.update.
    cbn [backend_of set_clock ex_backend jobs_index].
    destruct Hcause as [->| Hmissing]; [by eexists|].
    destruct (online (ex_backend w)); [|by eexists].
    cbn [mbind option_bind]. rewrite Hmissing. by eexists.
Qed.

(** ** Start of a stored job *)

(** [startJob] on a job that cannot be read logs and resolves with nothing:
    no execution is stored, nothing is queued, the cluster service is not
    called. *)
Theorem startJob_unreadable job_id (w : world Cluster) :
  online (job_backend w) = false ∨ job_id ≫= (jobs_index w !!.) = None →
  ∃ w',
    startJob job_id w = (Resolved None, w')
    ∧ jobs_index w' = jobs_index w
    ∧ queues w' = queues w
    ∧ cluster_side w' = cluster_side w.
Proof.
  intros Hcause.
  unfold startJob, catch, bind, getJob, catch, bind, storage.get,
    elasticsearch_store.get.
  cbn [backend_of]. destruct Hcause as [->| Hmissing]; [by eexists|].
  destruct (online (job_backend w)); [|by eexists]. rewrite Hmissing. by eexists.
Qed.


(** ** Notify, further *)



(** A pause followed by a resume leaves the execution running: both calls
    resolve, the slicer's node is sent [cluster:job:pause] and then
    [cluster:job:resume], and the status read back is running. *)
Theorem notify_pause_then_resume I ex_id record (w : world Cluster) :
  nodes_acknowledge_within I → I (cluster w) →
  online (ex_backend w) = true →
  jobs_index w !! ex_id = Some record →
  str_field "ex_id" record = Some ex_id →
  let paused := notify (Some ex_id) "pause" w in
  let resumed := notify (Some ex_id) "resume" paused.2 in
  paused.1 = Resolved (Some "paused")
  ∧ status_in (jobs_index paused.2) ex_id = Some "paused"
  ∧ resumed.1 = Resolved (Some "running")
  ∧ status_in (jobs_index resumed.2) ex_id = Some "running"
  ∧ cluster_calls resumed.2
    = cluster_calls w
      ++ map (fun node_id => CallNotifyNode node_id "cluster:job:pause" (Some ex_id))
             (cluster_service.findNodesForJob (Some ex_id) true (cluster w))
      ++ map (fun node_id => CallNotifyNode node_id "cluster:job:resume" (Some ex_id))
             (cluster_service.findNodesForJob (Some ex_id) true (cluster paused.2)).
Proof.
  intros Hack HI Hon Hget Hid. cbv zeta.
  destruct (notifyNodes_acknowledged I (nodes_for (Some ex_id) "pause" (cluster w))
              "cluster:job:pause" (Some ex_id) (cluster w) Hack HI) as [Hok HI1].
  destruct (notify_resolved ex_id "pause" "paused" "cluster:job:pause" record w)
    as (w1 & -> & Hidx1 & Hcontrol1 & Hcalls1 & Hcl1); [done..|].
  cbn [fst snd]. rewrite <- Hcl1 in HI1.
  destruct (notifyNodes_acknowledged I (nodes_for (Some ex_id) "resume" (cluster w1))
              "cluster:job:resume" (Some ex_id) (cluster w1) Hack HI1) as [Hok2 _].
  destruct (notify_resolved ex_id "resume" "running" "cluster:job:resume"
              (with_status "paused" (clock w) record) w1)
    as (w2 & -> & Hidx2 & _ & Hcalls2 & _); [done|done|done| | | |].
  { unfold control in Hcontrol1. congruence. }
  { rewrite Hidx1. apply lookup_insert_eq. }
  { by rewrite str_field_with_status. }
  cbn [fst snd]. split; [done|]. split.
  { rewrite Hidx1. apply status_in_with_status. }
  split; [done|]. split.
  { rewrite Hidx2. apply status_in_with_status. }
  rewrite Hcalls2, Hcalls1. by rewrite <- app_assoc.
Qed.

(** ** The latest execution of a job *)

Lemma found_documents (q : query) (docs : gmap string obj) o :
  o ∈ filter (fun o => matches q o = true) ((map_to_list docs).*2)
  ↔ matches q o = true ∧ ∃ id, docs !! id = Some o.
Proof.
  rewrite list_elem_of_filter, list_elem_of_fmap. split.
  - intros [Hm ([id o'] & -> & Hin)]. apply elem_of_map_to_list in Hin. eauto.
  - intros [Hm [id Hget]]. split; [done|]. exists (id, o). split; [done|].
    by apply elem_of_map_to_list.
Qed.


(** ** Lifecycle events *)

Lemma status_event_step level message data id status metaData record (w : world Cluster) :
  str_field "ex_id" data = Some id → status ∈ VALID_STATUS →
  online (ex_backend w) = true → jobs_index w !! id = Some record →
  ∃ w',
    (await _ <- logger_log level message in
     detached (_setStatus data (Some status) metaData)) w = (Resolved tt, w')
    ∧ jobs_index w'
      = <[id := updated_record (statusObj_of status metaData) (clock w) record]>
          (jobs_index w).
Proof.
  intros Hid Hst Hon Hget. unfold bind. cbn [logger_log]. unfold detached.
  rewrite (_setStatus_resolved_with data id status metaData record) by done.
  by eexists.
Qed.

Lemma status_in_updated (docs : gmap string obj) id status metaData t record :
  metaData ≫= (.!! "_status") = None →
  status_in (<[id := updated_record (statusObj_of status metaData) t record]> docs) id
  = Some status.
Proof.
  intros Hmeta. unfold status_in, str_field. rewrite lookup_insert_eq. simpl.
  rewrite updated_record_lookup by done. by rewrite statusObj_status.
Qed.

(** The events of the slicer and of the cluster move a stored execution to
    the status that belongs to them: [slicer:initialized] to running,
    [slicer:processing:error] to failing, [cluster:job_finished] to completed,
    [cluster:job_failure] and [cluster:slicer_failure] to failed. *)
Theorem lifecycle_events_write_status data id record (w : world Cluster) :
  str_field "ex_id" data = Some id →
  online (ex_backend w) = true →
  jobs_index w !! id = Some record →
  status_in (jobs_index (on_slicer_initialized data w).2) id = Some "running"
  ∧ status_in (jobs_index (on_slicer_processing_error data w).2) id = Some "failing"
  ∧ status_in (jobs_index (on_cluster_job_finished data w).2) id = Some "completed"
  ∧ status_in (jobs_index (on_cluster_job_failure data w).2) id = Some "failed"
  ∧ status_in (jobs_index (on_cluster_slicer_failure data w).2) id = Some "failed".
Proof.
  intros Hid Hon Hget.
  assert (∀ status, status ∈ VALID_STATUS →
            ∀ level message metaData,
              metaData ≫= (.!! "_status") = None →
              status_in
                (jobs_index
                   ((await _ <- logger_log level message in
                     detached (_setStatus data (Some status) metaData)) w).2) id
              = Some status) as Hevent.
  { intros status Hst level message metaData Hmeta.
    destruct (status_event_step level message data id status metaData record w)
      as (w' & -> & Hidx); [done..|].
    cbn [snd]. rewrite Hidx. by apply status_in_updated. }
  repeat split.
  - apply Hevent; [unfold VALID_STATUS; set_solver|done].
  - apply Hevent; [unfold VALID_STATUS; set_solver|done].
  - unfold on_cluster_job_finished. cbv zeta.
    apply Hevent; [unfold VALID_STATUS; set_solver|]. simpl.
    destruct (truthy _); rewrite ?lookup_insert_ne by done; by rewrite set_field_other.
  - apply Hevent; [unfold VALID_STATUS; set_solver|]. apply failure_metaData_status.
  - apply Hevent; [unfold VALID_STATUS; set_solver|]. apply failure_metaData_status.
Qed.

(** What the terminal events record besides the status.  A finished job
    gets the slicer's statistics and, when it had recovered, [_has_errors] set
    to [recovered]; a failed job gets [_has_errors] set to [true], the
    statistics and, when the event carries one, the error as
    [_failureReason].  Whatever the event does not carry is left as stored. *)
Theorem terminal_events_record_metadata data id record (w : world Cluster) :
  str_field "ex_id" data = Some id →
  online (ex_backend w) = true →
  jobs_index w !! id = Some record →
  let or_stored (v : option val) (k : string) :=
    match v with Some x => Some x | None => record !! k end in
  (∃ record',
     jobs_index (on_cluster_job_finished data w).2 !! id = Some record'
     ∧ record' !! "_slicer_stats" = or_stored (data !! "slicer_stats") "_slicer_stats"
     ∧ record' !! "_has_errors"
       = (if truthy (data !! "hasRecovered") then Some (VStr "recovered")
          else record !! "_has_errors")
     ∧ record' !! "_failureReason" = record !! "_failureReason")
  ∧ (∃ record',
       jobs_index (on_cluster_job_failure data w).2 !! id = Some record'
       ∧ record' !! "_slicer_stats" = or_stored (data !! "slicer_stats") "_slicer_stats"
       ∧ record' !! "_has_errors" = Some (VStr "true")
       ∧ record' !! "_failureReason"
         = (if truthy (data !! "error") then data !! "error"
            else record !! "_failureReason")).
Proof.
  intros Hid Hon Hget or_stored. split.
  - unfold on_cluster_job_finished. cbv zeta.
    match goal with
    | |- context [_setStatus data (Some "completed") ?m] => set (metaData := m)
    end.
    destruct (status_event_step "info" "job has completed" data id "completed"
                metaData record w) as (w' & -> & Hidx);
      [done|unfold VALID_STATUS; set_solver|done|done|].
    cbn [snd]. rewrite Hidx, lookup_insert_eq. eexists. split; [reflexivity|].
    rewrite !updated_record_lookup by done. unfold statusObj_of, metaData. simpl.
    unfold set_field, or_stored.
    destruct (truthy (data !! "hasRecovered")), (data !! "slicer_stats");
      rewrite ?lookup_union, ?lookup_insert_eq, ?lookup_insert_ne, ?lookup_empty by done;
      simpl; rewrite ?lookup_delete_ne, ?lookup_empty by done; by repeat split.
  - unfold on_cluster_job_failure.
    destruct (status_event_step "error" "job has failed to complete" data id "failed"
                (Some (failure_metaData data)) record w) as (w' & -> & Hidx);
      [done|unfold VALID_STATUS; set_solver|done|done|].
    cbn [snd]. rewrite Hidx, lookup_insert_eq. eexists. split; [reflexivity|].
    rewrite !updated_record_lookup by done. unfold statusObj_of, failure_metaData.
    cbv zeta. unfold set_field, or_stored.
    destruct (truthy (data !! "error")) eqn:Herr, (data !! "error") eqn:Herror,
      (data !! "slicer_stats");
      try discriminate Herr;
      rewrite ?lookup_union, ?lookup_insert_eq, ?lookup_insert_ne, ?lookup_empty by done;
      simpl;
      rewrite ?lookup_delete_ne, ?lookup_insert_eq, ?lookup_insert_ne, ?lookup_empty
        by done;
      simpl; rewrite ?lookup_empty; by repeat split.
Qed.

(** ** The handlers of the moderator and of the cluster *)













Lemma notify_sweep I command status message jobs (w : world Cluster) :
  STATE_MAPPING !! command = Some status →
  MESSAGE_MAPPING !! command = Some message →
  nodes_acknowledge_within I → I (cluster w) →
  online (ex_backend w) = true →
  Forall (fun job => ∃ id record,
            str_field "ex_id" job = Some id
            ∧ jobs_index w !! id = Some record
            ∧ str_field "ex_id" record = Some id) jobs →
  ∃ rs w',
    Promise_map jobs (fun job => in_callback (notify (str_field "ex_id" job) command)) w
    = (Resolved rs, w')
    ∧ control w' = control w
    ∧ I (cluster w')
    ∧ (∀ id, Some id ∈ map (str_field "ex_id") jobs →
             status_in (jobs_index w') id = Some status)
    ∧ (∀ id, Some id ∉ map (str_field "ex_id") jobs →
             jobs_index w' !! id = jobs_index w !! id).
Proof.
  intros Hcmd Hmsg Hack. revert w.
  induction jobs as [|job jobs IH]; intros w HI Hon Hjobs.
  { exists [], w. split; [done|]. split; [done|]. split; [done|]. split; [|done].
    intros id Hin. by apply elem_of_nil in Hin. }
  apply Forall_cons in Hjobs as [(id & record & Hjob & Hget & Hid) Hjobs].
  destruct (notifyNodes_acknowledged I (nodes_for (Some id) command (cluster w))
              message (Some id) (cluster w) Hack HI) as [Hok HI'].
  destruct (notify_resolved id command status message record w Hcmd Hmsg Hok Hon Hget Hid)
    as (w1 & Hstep & Hidx & Hcontrol & _ & Hcluster).
  rewrite <- Hcluster in HI'.
  assert (online (ex_backend w1) = true) as Hon1.
  { unfold control in Hcontrol. congruence. }
  destruct (IH w1 HI' Hon1) as (rs & w2 & Hrest & Hcontrol2 & HI2 & Hin & Hout).
  { eapply Forall_impl; [exact Hjobs|]. cbn beta.
    intros job' (id' & record' & Hjob' & Hget' & Hid'). rewrite Hidx.
    destruct (decide (id = id')) as [<-|Hne].
    - exists id, (with_status status (clock w) record).
      rewrite lookup_insert_eq, str_field_with_status by done.
      split; [done|]. split; [done|]. congruence.
    - exists id', record'. by rewrite lookup_insert_ne. }
  exists (Some status :: rs), w2.
  split.
  { unfold Promise_map in *. cbn [map Promise_all]. unfold in_callback at 1.
    rewrite Hjob, Hstep. by rewrite Hrest. }
  split; [congruence|]. split; [done|].
  split.
  - intros id0 Hid0. cbn [map] in Hid0.
    destruct (decide (Some id0 ∈ map (str_field "ex_id") jobs)) as [Hrec|Hnot];
      [by apply Hin|].
    apply elem_of_cons in Hid0 as [Heq|?]; [|done].
    assert (id0 = id) as -> by congruence.
    unfold status_in. rewrite (Hout id Hnot), Hidx, lookup_insert_eq. simpl.
    unfold str_field. by rewrite with_status_status.
  - intros id0 Hid0. cbn [map] in Hid0. apply not_elem_of_cons in Hid0 as [Hne Hnot].
    rewrite (Hout id0 Hnot), Hidx, lookup_insert_ne; [done|]. congruence.
Qed.

(** When the moderator pauses a list of connections, every execution that
    is running or failing and lists one of them becomes [moderator_paused],
    every other document is as it was, and neither queue changes.  This
    holds when the execution store is reachable, the nodes acknowledge and
    one search returns all the executions concerned. *)
Theorem moderate_jobs_pause_pauses_dependents I connectionList (w : world Cluster) :
  let q := QAnd (QOr (QTerm "_status" "running") (QTerm "_status" "failing"))
                (moderator_query connectionList) in
  let w' := (on_moderate_jobs_pause connectionList w).2 in
  online (ex_backend w) = true →
  executions_filed (jobs_index w) →
  nodes_acknowledge_within I → I (cluster w) →
  (length (filter (fun o => matches q o = true) ((map_to_list (jobs_index w)).*2))
   ≤ 10000)%nat →
  (∀ id record,
     jobs_index w !! id = Some record →
     if matches q record
     then status_in (jobs_index w') id = Some "moderator_paused"
     else jobs_index w' !! id = Some record)
  ∧ queues w' = queues w.
Proof.
  cbv zeta. intros Hon Hfiled Hack HI Hlen.
  set (q := QAnd _ _) in *.
  set (found := filter _ _) in Hlen.
  destruct (on_moderate_jobs_pause connectionList w) as [r w'] eqn:Heq. cbn [snd].
  assert (∀ id record,
            jobs_index w !! id = Some record → matches q record = true →
            str_field "ex_id" record = Some id) as Hfound_id.
  { intros id record Hget Hm. apply (Hfiled id record Hget).
    unfold q in Hm. cbn [matches] in Hm.
    apply andb_true_iff in Hm as [Hm _]. apply orb_true_iff in Hm.
    destruct Hm as [Hm|Hm]; apply bool_decide_eq_true in Hm;
      apply status_field in Hm; by eexists. }
  assert (∀ id record,
            jobs_index w !! id = Some record →
            (matches q record = true ↔ Some id ∈ map (str_field "ex_id") found))
    as Hids.
  { intros id record Hget. split.
    - intros Hm. apply list_elem_of_fmap. exists record.
      split; [by rewrite (Hfound_id id record)|]. apply found_documents. eauto.
    - intros Hin. apply list_elem_of_fmap in Hin as (record' & Hid' & Hin).
      apply found_documents in Hin as [Hm [id' Hget']].
      rewrite (Hfound_id id' record' Hget' Hm) in Hid'. by simplify_eq. }
  unfold on_moderate_jobs_pause, bind at 1 in Heq. cbn [logger_log] in Heq.
  fold q in Heq. unfold catch at 1, bind at 1, findJobs in Heq.
  set (w0 := set_logger _ w) in Heq.
  rewrite (ex_search_resolved q w0) in Heq by done.
  change (filter _ _) with found in Heq.
  rewrite take_ge in Heq by done.
  destruct (notify_sweep I "moderator_paused" "moderator_paused" "cluster:job:pause"
              found w0) as (rs & w1 & Hmap & Hcontrol & _ & Hin & Hout);
    [done|done|done|done|done| |].
  { apply Forall_forall. intros job Hjob.
    apply found_documents in Hjob as [Hm [id Hget]].
    exists id, job. split; [by apply Hfound_id|]. split; [done|]. by apply Hfound_id. }
  unfold bind at 1 in Heq. rewrite Hmap in Heq. cbn [logger_log] in Heq.
  simplify_eq. split.
  - intros id record Hget. cbn [jobs_index set_logger].
    destruct (matches q record) eqn:Hm.
    + apply Hin. by apply (Hids id record).
    + rewrite Hout; [done|]. rewrite <- (Hids id record) by done. congruence.
  - unfold control in Hcontrol. unfold queues. cbn. congruence.
Qed.

(** ** Listings and updates from the slicer *)


(** [slicer:job:update] replaces the [operations] of the stored execution
    by the update of the event and stamps the record; every other field of
    the execution and every other document stay as they were. *)
Theorem slicer_job_update_replaces_operations updateSpec ex_id record
    (w : world Cluster) :
  str_field "ex_id" updateSpec = Some ex_id →
  online (ex_backend w) = true →
  jobs_index w !! ex_id = Some record →
  ∃ record',
    jobs_index (on_slicer_job_update updateSpec w).2 !! ex_id = Some record'
    ∧ record' !! "operations"
      = match updateSpec !! "update" with
        | Some v => Some v
        | None => record !! "operations"
        end
    ∧ record' !! "_updated" = Some (VDate (clock w))
    ∧ (∀ k, k ≠ "operations" → k ≠ "_updated" → record' !! k = record !! k)
    ∧ ∀ id, id ≠ ex_id →
            jobs_index (on_slicer_job_update updateSpec w).2 !! id = jobs_index w !! id.
Proof.
  intros Hid Hon Hget. unfold on_slicer_job_update, detached, updateEX, catch, bind.
  rewrite Hid. rewrite (storage_update_resolved ex_store ex_id _ record) by done.
  cbn [snd resolve jobs_index set_jobs_index].
  fold (updated_record (set_field "operations" (updateSpec !! "update") ∅) (clock w) record).
  rewrite lookup_insert_eq. eexists. split; [reflexivity|].
  split; [|split; [apply updated_record_updated|split]].
  - rewrite updated_record_lookup by done. unfold set_field.
    destruct (updateSpec !! "update"); by simplify_map_eq.
  - intros k H1 H2. rewrite updated_record_lookup by done. unfold set_field.
    destruct (updateSpec !! "update"); by simplify_map_eq.
  - intros id Hne. by rewrite lookup_insert_ne.
Qed.
End service_properties.

(** ** The properties on the example cluster *)

#[local] Existing Instance example_context.

Lemma submitJob_persists_job_and_execution_witness :
  ∃ job ex queued w',
    submitJob hot_job true (example_world [] throttling_cluster)
    = (Resolved {["job_id" := VStr "uuid-0"]}, w')
    ∧ jobs_index w' = <["uuid-1" := ex]> (<["uuid-0" := job]> ∅)
    ∧ size (jobs_index w') = 2
    ∧ job !! "_context" = Some (VStr "job")
    ∧ job !! "job_id" = Some (VStr "uuid-0")
    ∧ ex !! "_context" = Some (VStr "ex")
    ∧ ex !! "ex_id" = Some (VStr "uuid-1")
    ∧ ex !! "job_id" = Some (VStr "uuid-0")
    ∧ ex !! "_status" = Some (VStr "pending")
    ∧ queued !! "ex_id" = Some (VStr "uuid-1")
    ∧ (pendingExecutionQueue w' = [] ++ [queued] ∧ moderatorPausedQueue w' = []
       ∨ pendingExecutionQueue w' = [] ∧ moderatorPausedQueue w' = [] ++ [queued]).
Proof.
  refine (submitJob_persists_job_and_execution hot_job hot_job hot_job
            (example_world [] throttling_cluster) _ _ _ _ _ _ _ _).
  - reflexivity.
  - reflexivity.
  - reflexivity.
  - reflexivity.
  - intros _. eexists. vm_compute. reflexivity.
  - reflexivity.
  - reflexivity.
  - intros H. vm_compute in H. discriminate.
Defined.

Lemma allocator_recovers_from_allocation_failure_witness :
  (∃ w', allocator 2 (world_with_pending slicerless_cluster) = allocator 1 w'
         ∧ status_in (jobs_index w') "E1" = Some "failed"
         ∧ isJobBeingAllocated w' = false
         ∧ pendingExecutionQueue w' = []
         ∧ (0 < 1 → is_Some (allocator 1 w')))
  ∧ (∃ w', allocator 2 (world_with_pending workerless_cluster) = allocator 1 w'
           ∧ status_in (jobs_index w') "E1" = Some "initializing"
           ∧ isJobBeingAllocated w' = false
           ∧ pendingExecutionQueue w' = []
           ∧ (0 < 1 → is_Some (allocator 1 w'))).
Proof.
  split.
  - refine (proj1 (allocator_recovers_from_allocation_failure hot_execution [] "E1"
                     hot_execution 1 (world_with_pending slicerless_cluster)
                     _ _ _ _ _ _)
              (ClusterError "no slicer") slicerless_cluster _);
      first [reflexivity | by vm_compute].
  - refine (proj2 (allocator_recovers_from_allocation_failure hot_execution [] "E1"
                     hot_execution 1 (world_with_pending workerless_cluster)
                     _ _ _ _ _ _)
              (take_workers 1 workerless_cluster) (ClusterError "no workers")
              (take_workers 1 workerless_cluster) _ _);
      first [reflexivity | by vm_compute].
Defined.

Lemma notify_writes_after_notifications_witness :
  (notify (Some "E1") "pause" world_with_running).1 = Resolved (Some "paused")
  ∧ status_in (jobs_index (notify (Some "E1") "pause" world_with_running).2) "E1"
    = Some "paused"
  ∧ cluster_calls (notify (Some "E1") "pause" world_with_running).2
    = [CallNotifyNode "node-1" "cluster:job:pause" (Some "E1")].
Proof.
  destruct (notify_writes_after_notifications "E1" "pause" "paused"
              (execution "E1" "J1" "running") world_with_running
              eq_refl eq_refl eq_refl eq_refl)
    as (message & Hmsg & Hcalls & _ & Hok).
  assert (message = "cluster:job:pause") as -> by (vm_compute in Hmsg; congruence).
  destruct Hok as [Hresult Hindex].
  { intros e He. apply list_elem_of_singleton in He. discriminate. }
  split; [exact Hresult|]. split; [|exact Hcalls].
  rewrite Hindex. apply status_in_with_status.
Defined.

Lemma notify_restart_rejects_after_sending_witness :
  MESSAGE_MAPPING !! "restart" = Some "cluster:job:restart"
  ∧ STATE_MAPPING !! "restart" = None
  ∧ (notify (Some "E1") "restart" world_with_running).1
    = Rejected (InvalidStatus None)
  ∧ cluster_calls (notify (Some "E1") "restart" world_with_running).2
    = [CallNotifyNode "node-1" "cluster:job:restart" (Some "E1");
       CallNotifyNode "node-2" "cluster:job:restart" (Some "E1")]
  ∧ jobs_index (notify (Some "E1") "restart" world_with_running).2
    = jobs_index world_with_running.
Proof.
  refine (notify_restart_rejects_after_sending "E1" (execution "E1" "J1" "running")
            world_with_running _ eq_refl eq_refl).
  intros e He. vm_compute in He.
  repeat (apply elem_of_cons in He as [He|He]; [discriminate|]).
  by apply elem_of_nil in He.
Defined.

Lemma restartExecution_swallows_refusal_witness :
  restartExecution (Some "E2") world_with_running
  = (Resolved tt,
     set_logger [("error", "could not restart execution context")] world_with_running).
Proof.
  refine (restartExecution_swallows_refusal "E2" (execution "E2" "J1" "completed")
            world_with_running eq_refl eq_refl _).
  left. reflexivity.
Defined.

Lemma createExecutionContext_admission_witness :
  gate_passes hot_job throttling_cluster = false
  ∧ ∃ ex,
      pendingExecutionQueue
        (createExecutionContext hot_job (example_world [] throttling_cluster)).2 = []
      ∧ moderatorPausedQueue
          (createExecutionContext hot_job (example_world [] throttling_cluster)).2 = [ex].
Proof.
  split; [reflexivity|].
  destruct (createExecutionContext_admission hot_job (example_world [] throttling_cluster))
    as (ex & _ & _ & Hheld & _).
  - reflexivity.
  - intros _. eexists. vm_compute. reflexivity.
  - exists ex. by apply Hheld.
Defined.

Lemma moderate_jobs_resume_promotes_every_held_witness :
  gate_passes hot_execution throttling_cluster = false
  ∧ moderatorPausedQueue
      (on_moderate_jobs_resume [("elasticsearch", "hot")]
         (world_with_held throttling_cluster)).2 = []
  ∧ pendingExecutionQueue
      (on_moderate_jobs_resume [("elasticsearch", "hot")]
         (world_with_held throttling_cluster)).2 = [hot_execution].
Proof.
  split; [reflexivity|].
  refine (moderate_jobs_resume_promotes_every_held (fun _ => True)
            [("elasticsearch", "hot")] (world_with_held throttling_cluster) _ I).
  intros connectionList c _. eexists _, _. split; [reflexivity|exact I].
Defined.

Lemma shutdown_terminates_active_executions_witness :
  closed (job_backend (shutdown world_with_running).2) = true
  ∧ closed (ex_backend (shutdown world_with_running).2) = true
  ∧ status_in (jobs_index (shutdown world_with_running).2) "E1" = Some "terminated"
  ∧ status_in (jobs_index (shutdown world_with_running).2) "E2" = Some "completed"
  ∧ ∀ id record s,
      jobs_index (shutdown world_with_running).2 !! id = Some record →
      str_field "_status" record = Some s → isActive s = false.
Proof.
  destruct (shutdown_terminates_active_executions (fun c => unreachable c = [])
              world_with_running) as [[Hjob Hex] Hrest].
  destruct Hrest as [Hdocs Hnone].
  - reflexivity.
  - apply (bool_decide_unpack _). vm_compute. exact I.
  - intros node_id message ex_id c Hc. exists c. split; [|exact Hc].
    cbn. rewrite Hc. reflexivity.
  - reflexivity.
  - apply Nat.leb_le. vm_compute. reflexivity.
  - split; [exact Hjob|]. split; [exact Hex|].
    pose proof (Hdocs "E1" (execution "E1" "J1" "running") eq_refl) as H1.
    pose proof (Hdocs "E2" (execution "E2" "J1" "completed") eq_refl) as H2.
    assert (matches shutdown_query (execution "E1" "J1" "running") = true) as Hm1
      by reflexivity.
    assert (matches shutdown_query (execution "E2" "J1" "completed") = false) as Hm2
      by reflexivity.
    rewrite Hm1 in H1. rewrite Hm2 in H2. destruct H1 as [H1 _].
    split; [exact H1|]. split; [|exact Hnone].
    unfold status_in. rewrite H2. reflexivity.
Defined.

Lemma updateJob_writes_back_stored_job_witness :
  jobs_index (updateJob (Some "J1") {["name" := VStr "b"]} world_with_job).2 !! "J1"
  ≫= (.!! "name")
  = Some (VStr "a").
Proof.
  rewrite (updateJob_writes_back_stored_job "J1" {["name" := VStr "b"]}
             (<["job_id" := VStr "J1"]> (<["name" := VStr "a"]> ∅)) world_with_job
             eq_refl eq_refl).
  reflexivity.
Defined.

(** ** The further properties on the example clusters *)

#[local] Existing Instance elastic_context.

Lemma storage_create_then_get_witness :
  ∃ record' w',
    storage.create ex_store hot_job (example_world [] quiet_cluster)
    = (Resolved record', w')
    ∧ storage.get ex_store (str_field "ex_id" record') w' = (Resolved record', w')
    ∧ record' !! "ex_id" = Some (VStr "uuid-0")
    ∧ record' !! "_context" = Some (VStr "ex").
Proof.
  destruct (storage_create_then_get ex_store hot_job (example_world [] quiet_cluster)
              eq_refl) as (record' & w' & Hcreate & Hget & Hid & Hcontext & _).
  exists record', w'. split; [exact Hcreate|]. split; [exact Hget|].
  split; [exact Hid|exact Hcontext].
Defined.

Lemma _setStatus_then_read_witness :
  ∃ record' w',
    _setStatus (execution "E1" "J1" "running") (Some "failed")
      (Some {["_has_errors" := VStr "true"]}) world_with_running
    = (Resolved (execution "E1" "J1" "running"), w')
    ∧ getExecutionContext (Some "E1") w' = (Resolved (Some record'), w')
    ∧ record' !! "_status" = Some (VStr "failed")
    ∧ record' !! "_has_errors" = Some (VStr "true")
    ∧ record' !! "job_id" = Some (VStr "J1").
Proof.
  destruct (_setStatus_then_read (execution "E1" "J1" "running") "E1" "failed"
              (Some {["_has_errors" := VStr "true"]}) (execution "E1" "J1" "running")
              world_with_running)
    as (record' & w' & Hset & Hread & Hstatus & _ & Hmeta & Hrest & _).
  - reflexivity.
  - apply (bool_decide_unpack _). vm_compute. exact I.
  - reflexivity.
  - reflexivity.
  - reflexivity.
  - exists record', w'. split; [exact Hset|]. split; [exact Hread|].
    split; [exact Hstatus|]. split.
    + apply Hmeta; [discriminate|reflexivity].
    + rewrite Hrest; [reflexivity|discriminate|discriminate|reflexivity].
Defined.

Lemma _setStatus_twice_witness :
  jobs_index
    ((await _ <- _setStatus (execution "E1" "J1" "running") (Some "paused") None in
      _setStatus (execution "E1" "J1" "running") (Some "paused") None)
       world_with_running).2
  = <["E1" := updated_record (statusObj_of "paused" None) 1
                (execution "E1" "J1" "running")]>
      (jobs_index world_with_running).
Proof.
  refine (_setStatus_twice (execution "E1" "J1" "running") "E1" "paused" None
            (execution "E1" "J1" "running") world_with_running _ _ _ _).
  - reflexivity.
  - apply (bool_decide_unpack _). vm_compute. exact I.
  - reflexivity.
  - reflexivity.
Defined.

Lemma allocator_stalls_when_scheduling_fails_witness :
  ∃ w',
    allocator 1
      (set_pendingExecutionQueue [hot_execution] (example_world [] quiet_cluster))
    = Some w'
    ∧ isJobBeingAllocated w' = true
    ∧ pendingExecutionQueue w' = []
    ∧ allocator 1 w' = Some w'.
Proof.
  destruct (allocator_stalls_when_scheduling_fails hot_execution [] 0
              (set_pendingExecutionQueue [hot_execution]
                 (example_world [] quiet_cluster)))
    as (w' & Hrun & Hflag & Hqueue & _ & _ & Hstall).
  - reflexivity.
  - reflexivity.
  - apply Z.leb_le. reflexivity.
  - right. reflexivity.
  - exists w'. split; [exact Hrun|]. split; [exact Hflag|].
    split; [exact Hqueue|exact (Hstall 0 w' Hflag)].
Defined.

Lemma submitJob_rejects_before_persisting_witness :
  submitJob ∅ true world_with_job
  = (Rejected ValidationError,
     set_logger [("error", "could not submit job")] world_with_job).
Proof.
  refine (submitJob_rejects_before_persisting ∅ true ValidationError world_with_job _).
  right. exists ∅. split; [reflexivity|]. split; reflexivity.
Defined.

Lemma submitJob_without_run_witness :
  ∃ job w',
    submitJob hot_job false (example_world [] quiet_cluster)
    = (Resolved {["job_id" := VStr "uuid-0"]}, w')
    ∧ jobs_index w' = <["uuid-0" := job]> ∅
    ∧ job !! "_context" = Some (VStr "job")
    ∧ pendingExecutionQueue w' = []
    ∧ cluster_calls w' = [].
Proof.
  destruct (submitJob_without_run hot_job hot_job hot_job
              (example_world [] quiet_cluster))
    as (job & w' & Hrun & Hidx & Hcontext & _ & _ & Hqueues & Hcluster).
  - reflexivity.
  - reflexivity.
  - reflexivity.
  - exists job, w'. split; [exact Hrun|]. split; [exact Hidx|].
    split; [exact Hcontext|]. split.
    + exact (f_equal fst Hqueues).
    + exact (f_equal snd Hcluster).
Defined.

Lemma submitJob_asset_names_witness :
  jobs_index (submitJob job_with_assets true (example_world [] quiet_cluster)).2
    !! "uuid-0" ≫= (.!! "assets")
  = Some (VStrs ["a1"])
  ∧ jobs_index (submitJob job_with_assets true (example_world [] quiet_cluster)).2
      !! "uuid-1" ≫= (.!! "assets")
    = Some (VStrs ["asset:a1"]).
Proof.
  refine (submitJob_asset_names job_with_assets
            (<["assets" := VStrs ["asset:a1"]]> job_with_assets)
            (<["assets" := VStrs ["asset:a1"]]> job_with_assets)
            (example_world [] quiet_cluster) _ _ _ _ _ _).
  - reflexivity.
  - reflexivity.
  - reflexivity.
  - reflexivity.
  - intros _. eexists. vm_compute. reflexivity.
  - intros H. vm_compute in H. discriminate.
Defined.

Lemma allocateJobs_drains_in_order_witness :
  ∃ w',
    allocateJobs (elastic_world [("E1", hot_execution)] [hot_execution] false) = Some w'
    ∧ pendingExecutionQueue w' = []
    ∧ isJobBeingAllocated w' = false
    ∧ status_in (jobs_index w') "E1" = Some "initializing"
    ∧ cluster_calls w'
      = [CallAllocateSlicer (Some "E1") None;
         CallAllocateWorkers (Some "E1") (Some (VNum 2))].
Proof.
  destruct (allocateJobs_drains_in_order (fun _ => True)
              (elastic_world [("E1", hot_execution)] [hot_execution] false))
    as (w' & Hrun & Hempty & _ & Hflag & Hcalls & Hin & _).
  - intros c _. split; [apply Z.leb_le; reflexivity|].
    intros ex recover. eexists. split; [reflexivity|].
    intros workers. eexists. split; [reflexivity|exact I].
  - exact I.
  - reflexivity.
  - reflexivity.
  - apply Forall_singleton. exists "E1". split; [reflexivity|].
    eexists. reflexivity.
  - exists w'. split; [exact Hrun|]. split; [exact Hempty|]. split; [exact Hflag|].
    split; [|exact Hcalls]. apply Hin. left.
Defined.

Lemma createExecutionContext_moderator_fails_witness :
  ∃ w',
    createExecutionContext hot_job (elastic_world [] [] true)
    = (Rejected (ClusterError "moderator down"), w')
    ∧ pendingExecutionQueue w' = []
    ∧ moderatorPausedQueue w' = []
    ∧ status_in (jobs_index w') "uuid-0" = Some "pending".
Proof.
  destruct (createExecutionContext_moderator_fails hot_job
              (ClusterError "moderator down")
              {| allocated := 0; moderator_down := true |}
              (elastic_world [] [] true))
    as (w' & Hrun & Hqueues & Hstatus & _).
  - reflexivity.
  - reflexivity.
  - reflexivity.
  - exists w'. split; [exact Hrun|].
    split; [exact (f_equal fst Hqueues)|].
    split; [exact (f_equal snd Hqueues)|exact Hstatus].
Defined.

Lemma restartExecution_unreadable_witness :
  ∃ w',
    restartExecution (Some "E9") world_with_running = (Resolved tt, w')
    ∧ pendingExecutionQueue w' = []
    ∧ jobs_index w' = jobs_index world_with_running.
Proof.
  destruct (restartExecution_unreadable (Some "E9") world_with_running)
    as (w' & Hrun & Hqueues & Hidx).
  - right. reflexivity.
  - exists w'. split; [exact Hrun|]. split; [exact (f_equal fst Hqueues)|exact Hidx].
Defined.

Lemma restartExecution_then_allocator_recovers_witness :
  pendingExecutionQueue
    (restartExecution (Some "E1") (elastic_world [("E1", hot_execution)] [] false)).2
  = [<["_recover_execution" := VBool true]> hot_execution]
  ∧ ∃ w',
      allocateJobs
        (restartExecution (Some "E1") (elastic_world [("E1", hot_execution)] [] false)).2
      = Some w'
      ∧ status_in (jobs_index w') "E1" = Some "initializing"
      ∧ cluster_calls w'
        = [CallAllocateSlicer (Some "E1") (Some (VBool true));
           CallAllocateWorkers (Some "E1") (Some (VNum 2))].
Proof.
  destruct (restartExecution_then_allocator_recovers (fun _ => True) "E1" hot_execution
              (elastic_world [("E1", hot_execution)] [] false))
    as (Hqueue & _ & w' & Hrun & _ & Hstatus & Hcalls).
  - intros c _. split; [apply Z.leb_le; reflexivity|].
    intros ex recover. eexists. split; [reflexivity|].
    intros workers. eexists. split; [reflexivity|exact I].
  - exact I.
  - reflexivity.
  - reflexivity.
  - reflexivity.
  - reflexivity.
  - reflexivity.
  - intros H. vm_compute in H. discriminate.
  - intros H. vm_compute in H. discriminate.
  - split; [exact Hqueue|]. exists w'. split; [exact Hrun|].
    split; [exact Hstatus|exact Hcalls].
Defined.


Lemma startJob_unreadable_witness :
  ∃ w',
    startJob (Some "J9") world_with_job = (Resolved None, w')
    ∧ jobs_index w' = jobs_index world_with_job
    ∧ pendingExecutionQueue w' = []
    ∧ cluster_calls w' = [].
Proof.
  destruct (startJob_unreadable (Some "J9") world_with_job)
    as (w' & Hrun & Hidx & Hqueues & Hcluster).
  - right. reflexivity.
  - exists w'. split; [exact Hrun|]. split; [exact Hidx|].
    split; [exact (f_equal fst Hqueues)|exact (f_equal snd Hcluster)].
Defined.




Lemma notify_pause_then_resume_witness :
  status_in
    (jobs_index
       (notify (Some "E1") "resume"
          (notify (Some "E1") "pause" world_with_running).2).2) "E1"
  = Some "running"
  ∧ cluster_calls
      (notify (Some "E1") "resume" (notify (Some "E1") "pause" world_with_running).2).2
    = [CallNotifyNode "node-1" "cluster:job:pause" (Some "E1");
       CallNotifyNode "node-1" "cluster:job:resume" (Some "E1")].
Proof.
  destruct (notify_pause_then_resume (fun c => unreachable c = []) "E1"
              (execution "E1" "J1" "running") world_with_running)
    as (_ & _ & _ & Hstatus & Hcalls).
  - intros node_id message ex_id c Hc. exists c. split; [|exact Hc].
    cbn. rewrite Hc. reflexivity.
  - reflexivity.
  - reflexivity.
  - reflexivity.
  - reflexivity.
  - split; [exact Hstatus|exact Hcalls].
Defined.


Lemma lifecycle_events_write_status_witness :
  status_in (jobs_index (on_slicer_initialized failure_of_E1 world_with_running).2) "E1"
  = Some "running"
  ∧ status_in
      (jobs_index (on_slicer_processing_error failure_of_E1 world_with_running).2) "E1"
    = Some "failing"
  ∧ status_in
      (jobs_index (on_cluster_job_finished failure_of_E1 world_with_running).2) "E1"
    = Some "completed"
  ∧ status_in
      (jobs_index (on_cluster_job_failure failure_of_E1 world_with_running).2) "E1"
    = Some "failed"
  ∧ status_in
      (jobs_index (on_cluster_slicer_failure failure_of_E1 world_with_running).2) "E1"
    = Some "failed".
Proof.
  refine (lifecycle_events_write_status failure_of_E1 "E1"
            (execution "E1" "J1" "running") world_with_running _ _ _);
    reflexivity.
Defined.

Lemma terminal_events_record_metadata_witness :
  ∃ record',
    jobs_index (on_cluster_job_failure failure_of_E1 world_with_running).2 !! "E1"
    = Some record'
    ∧ record' !! "_has_errors" = Some (VStr "true")
    ∧ record' !! "_failureReason" = Some (VStr "boom").
Proof.
  destruct (terminal_events_record_metadata failure_of_E1 "E1"
              (execution "E1" "J1" "running") world_with_running)
    as [_ (record' & Hget & _ & Herrors & Hreason)]; [reflexivity..|].
  exists record'. split; [exact Hget|]. split; [exact Herrors|exact Hreason].
Defined.

Lemma moderate_jobs_pause_pauses_dependents_witness :
  status_in
    (jobs_index
       (on_moderate_jobs_pause [("elasticsearch", "hot")] world_with_dependents).2) "E1"
  = Some "moderator_paused"
  ∧ status_in
      (jobs_index
         (on_moderate_jobs_pause [("elasticsearch", "hot")] world_with_dependents).2) "E2"
    = Some "running".
Proof.
  destruct (moderate_jobs_pause_pauses_dependents (fun c => unreachable c = [])
              [("elasticsearch", "hot")] world_with_dependents) as [Hdocs _].
  - reflexivity.
  - apply (bool_decide_unpack _). vm_compute. exact I.
  - intros node_id message ex_id c Hc. exists c. split; [|exact Hc].
    cbn. rewrite Hc. reflexivity.
  - reflexivity.
  - apply Nat.leb_le. vm_compute. reflexivity.
  - pose proof (Hdocs "E1" hot_running eq_refl) as H1.
    pose proof (Hdocs "E2" (execution "E2" "J1" "running") eq_refl) as H2.
    split; [exact H1|]. unfold status_in.
    change (jobs_index
              (on_moderate_jobs_pause [("elasticsearch", "hot")]
                 world_with_dependents).2 !! "E2"
            = Some (execution "E2" "J1" "running")) in H2.
    rewrite H2. reflexivity.
Defined.


Lemma slicer_job_update_replaces_operations_witness :
  ∃ record',
    jobs_index
      (on_slicer_job_update
         (<["update" := VStrs ["reader"; "noop"]]> (<["ex_id" := VStr "E1"]> ∅))
         world_with_running).2 !! "E1"
    = Some record'
    ∧ record' !! "operations" = Some (VStrs ["reader"; "noop"])
    ∧ record' !! "_status" = Some (VStr "running").
Proof.
  destruct (slicer_job_update_replaces_operations
              (<["update" := VStrs ["reader"; "noop"]]> (<["ex_id" := VStr "E1"]> ∅))
              "E1" (execution "E1" "J1" "running") world_with_running)
    as (record' & Hget & Hoperations & _ & Hrest & _); [reflexivity..|].
  exists record'. split; [exact Hget|]. split; [exact Hoperations|].
  rewrite Hrest; [reflexivity|discriminate|discriminate].
Defined.
